(** * AI Image & Story Generator: orchestration core, gateway and compositor

    A shallow embedding of [services/geminiService.ts], [App.tsx] and
    [components/StoryWriter.tsx], and the properties of the specification
    checked against it.

    Conventions of the embedding.

    - A JavaScript string is the list of its UTF-16 code units ([jsstring]).
      ASCII literals of the source are written [js "..."].
    - JavaScript numbers that the code uses as integers (image sizes, counts,
      indices) are [Z], [N] or [nat].  The numbers of the compositor are
      doubles: a finite double is the rational it denotes ([Q]), every
      arithmetic operation rounds its exact result to the nearest double
      (ties to even, [roundToDouble]), and [None] stands for a result that
      is not a finite number (NaN or an infinity).
    - A handler is a program in a small state-and-exception monad [M].  The
      values a React callback closes over are read from the [Session] (and
      [Story]) of the render that created it, the argument [r] (and [rs])
      of every handler; state setters act on the current state and are
      recorded in an event log, together with every call to an external
      collaborator.
    - An awaited call takes its outcome from the environment [Env]; one
      operation runs from its invocation to its settlement without another
      one interleaving ([run]).  A handler that settles after the state has
      moved on from the render that created it is [runFromRender].
    - The constants of [constants.ts] and the helper [blobToBase64] are not
      part of the sources at hand: the style prefixes and style names are
      fields of [Env], and a [File] carries what reading it settles with.
    - The reference strip and the image cards are components outside the
      sources at hand; their callbacks are the operations [SetReference],
      [RemoveReference], [UploadReference] and the per-image operations. *)

From Stdlib Require Import List String Ascii ZArith NArith QArith Qround Qabs Qpower Lqa DecimalN Bool Lia.
Import ListNotations.

Local Open Scope Z_scope.

(* ===================================================================== *)
(** ** JavaScript strings *)
(* ===================================================================== *)

Definition jsstring := list N.

(** An ASCII literal of the source as a sequence of code units. *)
Definition js (s : string) : jsstring :=
  map N_of_ascii (list_ascii_of_string s).

(** [a === b] on strings. *)
Fixpoint jseqb (a b : jsstring) : bool :=
  match a, b with
  | [], [] => true
  | x :: a', y :: b' => (x =? y)%N && jseqb a' b'
  | _, _ => false
  end.

Definition cu_quote : N := 34%N.      (* double quote *)
Definition cu_apostrophe : N := 39%N. (* apostrophe *)
Definition cu_comma : N := 44%N.      (* comma *)
Definition cu_colon : N := 58%N.      (* colon *)
Definition cu_semicolon : N := 59%N.  (* semicolon *)
Definition cu_newline : N := 10%N.    (* line feed *)
Definition cu_space : N := 32%N.

(** [s.startsWith(p)] *)
Fixpoint startsWith (p s : jsstring) : bool :=
  match p, s with
  | [], _ => true
  | _ :: _, [] => false
  | a :: p', b :: s' => (a =? b)%N && startsWith p' s'
  end.

(** [s.includes(needle)] *)
Fixpoint includes (needle s : jsstring) : bool :=
  startsWith needle s ||
  match s with
  | [] => false
  | _ :: s' => includes needle s'
  end.

(** White space and line terminators of [String.prototype.trim]. *)
Definition isWhiteSpace (c : N) : bool :=
  ((9 <=? c) && (c <=? 13) || (c =? 32) || (c =? 160) || (c =? 5760)
   || (8192 <=? c) && (c <=? 8202) || (c =? 8232) || (c =? 8233)
   || (c =? 8239) || (c =? 8287) || (c =? 12288) || (c =? 65279))%N.

Fixpoint trimStart (s : jsstring) : jsstring :=
  match s with
  | [] => []
  | c :: s' => if isWhiteSpace c then trimStart s' else s
  end.

Definition trimEnd (s : jsstring) : jsstring := rev (trimStart (rev s)).

(** [s.trim()] *)
Definition trim (s : jsstring) : jsstring := trimEnd (trimStart s).

(** Truthiness of a string: only the empty string is falsy. *)
Definition truthy (s : jsstring) : bool :=
  match s with [] => false | _ :: _ => true end.

(** [s.split(sep)] for a separator of one code unit: never empty. *)
Fixpoint split (sep : N) (s : jsstring) : list jsstring :=
  match s with
  | [] => [[]]
  | c :: s' =>
      if (c =? sep)%N then [] :: split sep s'
      else match split sep s' with
           | [] => [[c]]
           | p :: ps => (c :: p) :: ps
           end
  end.

(** The replacement of every double quote and apostrophe by nothing, as
    suggestCaption and enhancePrompt apply it to the response text. *)
Definition stripQuotes (s : jsstring) : jsstring :=
  filter (fun c => negb ((c =? cu_quote) || (c =? cu_apostrophe))%N) s.

(** [s.toLowerCase()] on the ASCII letters (the source applies it to the
    literals 'Thai' and 'English' only). *)
Definition toLowerCase (s : jsstring) : jsstring :=
  map (fun c => if ((65 <=? c) && (c <=? 90))%N then (c + 32)%N else c) s.

(** [String(n)] for a non-negative integer: its decimal digits. *)
Fixpoint digitsOfUint (d : Decimal.uint) : jsstring :=
  match d with
  | Decimal.Nil => []
  | Decimal.D0 d' => 48%N :: digitsOfUint d'
  | Decimal.D1 d' => 49%N :: digitsOfUint d'
  | Decimal.D2 d' => 50%N :: digitsOfUint d'
  | Decimal.D3 d' => 51%N :: digitsOfUint d'
  | Decimal.D4 d' => 52%N :: digitsOfUint d'
  | Decimal.D5 d' => 53%N :: digitsOfUint d'
  | Decimal.D6 d' => 54%N :: digitsOfUint d'
  | Decimal.D7 d' => 55%N :: digitsOfUint d'
  | Decimal.D8 d' => 56%N :: digitsOfUint d'
  | Decimal.D9 d' => 57%N :: digitsOfUint d'
  end.

Definition numberToString (n : N) : jsstring := digitsOfUint (N.to_uint n).

Definition isDigit (c : N) : bool := ((48 <=? c) && (c <=? 57))%N.

(* ===================================================================== *)
(** ** JavaScript numbers *)
(* ===================================================================== *)

(** The exponent [e] of a positive rational: [2^e <= x < 2^(e+1)]. *)
Definition binade (x : Q) : Z :=
  let e0 := Z.log2 (Qnum x) - Z.log2 (Zpos (Qden x)) in
  if Qle_bool (2 ^ e0) x then e0 else e0 - 1.

(** The nearest integer, ties to the even one. *)
Definition roundHalfEven (x : Q) : Z :=
  let f := Qfloor x in
  match (x - inject_Z f ?= 1 # 2)%Q with
  | Lt => f
  | Gt => f + 1
  | Eq => if Z.even f then f else f + 1
  end.

(** A positive rational rounded to 53 significant bits (to a multiple of
    [2^-1074] below the normal range). *)
Definition roundPositive (x : Q) : Q :=
  let u := (2 ^ Z.max (binade x - 52) (-1074))%Q in
  (inject_Z (roundHalfEven (x / u)) * u)%Q.

(** The double nearest to a rational, ties to even; [None] when the result
    overflows to an infinity. *)
Definition roundToDouble (x : Q) : option Q :=
  let r := match (Qred x ?= 0)%Q with
           | Eq => 0%Q
           | Gt => roundPositive (Qred x)
           | Lt => (- roundPositive (Qred (- x)))%Q
           end in
  if Qle_bool (2 ^ 1024) (Qabs r) then None else Some (Qred r).

(** [a / b], [a * b] and [a - b] on finite doubles; a division by zero
    gives an infinity or NaN. *)
Definition fdiv (a b : Q) : option Q :=
  if Qeq_bool b 0 then None else roundToDouble (a / b).
Definition fmul (a b : Q) : option Q := roundToDouble (a * b).
Definition fsub (a b : Q) : option Q := roundToDouble (a - b).

Definition cu_dot : N := 46%N.
Definition cu_plus : N := 43%N.
Definition cu_minus : N := 45%N.

(** The value of a digit of a radix up to 16, if the code unit is one. *)
Definition digitIn (radix : Z) (c : N) : option Z :=
  let v := if ((48 <=? c) && (c <=? 57))%N then Z.of_N c - 48
           else if ((97 <=? c) && (c <=? 102))%N then Z.of_N c - 87
           else if ((65 <=? c) && (c <=? 70))%N then Z.of_N c - 55
           else 16 in
  if v <? radix then Some v else None.

Definition digitsValueIn (radix : Z) (s : jsstring) : Z :=
  fold_left (fun acc c => radix * acc + match digitIn radix c with
                                        | Some v => v
                                        | None => 0
                                        end) s 0.

Definition digitsValue (s : jsstring) : Z := digitsValueIn 10 s.

(** The longest prefix of decimal digits, and the rest. *)
Fixpoint takeDigits (s : jsstring) : jsstring * jsstring :=
  match s with
  | c :: s' =>
      if isDigit c then let (d, r) := takeDigits s' in (c :: d, r) else ([], s)
  | [] => ([], [])
  end.

(** An optional exponent part that ends the literal: [e] or [E], an
    optional sign, digits. *)
Definition exponentPart (s : jsstring) : option Z :=
  match s with
  | [] => Some 0
  | c :: r =>
      if ((c =? 101) || (c =? 69))%N then
        let (negative, digits) :=
          match r with
          | c2 :: r2 =>
              if (c2 =? cu_minus)%N then (true, r2)
              else if (c2 =? cu_plus)%N then (false, r2)
              else (false, r)
          | [] => (false, [])
          end in
        if truthy digits && forallb isDigit digits
        then Some (if negative then - digitsValue digits else digitsValue digits)
        else None
      else None
  end.

(** The exact value of an unsigned decimal literal: digits with an optional
    fraction and exponent, at least one digit before or after the dot. *)
Definition unsignedDecimal (s : jsstring) : option Q :=
  let (intPart, r1) := takeDigits s in
  let (fracPart, r2) :=
    match r1 with
    | c :: r => if (c =? cu_dot)%N then takeDigits r else ([], r1)
    | [] => ([], [])
    end in
  if truthy intPart || truthy fracPart then
    match exponentPart r2 with
    | Some e =>
        Some (inject_Z (digitsValue (intPart ++ fracPart))
              * 10 ^ (e - Z.of_nat (List.length fracPart)))%Q
    | None => None
    end
  else None.

(** The value of a hexadecimal, octal or binary integer literal. *)
Definition nonDecimalLiteral (s : jsstring) : option Q :=
  match s with
  | c0 :: p :: digits =>
      let radix :=
        if ((p =? 120) || (p =? 88))%N then Some 16
        else if ((p =? 111) || (p =? 79))%N then Some 8
        else if ((p =? 98) || (p =? 66))%N then Some 2
        else None in
      match radix with
      | Some radix =>
          if (c0 =? 48)%N && truthy digits
             && forallb (fun c => match digitIn radix c with
                                  | Some _ => true
                                  | None => false
                                  end) digits
          then Some (inject_Z (digitsValueIn radix digits))
          else None
      | None => None
      end
  | _ => None
  end.

(** [Number(s)]: white space is trimmed; the empty string is 0; a decimal
    literal may carry a sign, a fraction and an exponent; the value is
    rounded to the nearest double.  [None] when the result is not a finite
    number: NaN for a string that is no numeric literal, an infinity for
    the literal Infinity or an overflow. *)
Definition Number (s : jsstring) : option Q :=
  match trim s with
  | [] => Some 0%Q
  | c :: rest =>
      match nonDecimalLiteral (c :: rest) with
      | Some v => roundToDouble v
      | None =>
          let (negative, unsigned) :=
            if (c =? cu_minus)%N then (true, rest)
            else if (c =? cu_plus)%N then (false, rest)
            else (false, c :: rest) in
          match unsignedDecimal unsigned with
          | Some v => roundToDouble (if negative then - v else v)%Q
          | None => None
          end
      end
  end.

(* ===================================================================== *)
(** ** Data URL codec ([parseDataUrl]) *)
(* ===================================================================== *)

(** The characters the regular-expression dot does not match. *)
Definition isLineTerminator (c : N) : bool :=
  ((c =? 10) || (c =? 13) || (c =? 8232) || (c =? 8233))%N.

(** The lazy group [(.*?)] followed by [;], tried right after a colon: the
    text up to the first semicolon, unless a line terminator comes first. *)
Fixpoint lazyUntilSemicolon (s : jsstring) : option jsstring :=
  match s with
  | [] => None
  | c :: s' =>
      if (c =? cu_semicolon)%N then Some []
      else if isLineTerminator c then None
      else match lazyUntilSemicolon s' with
           | Some g => Some (c :: g)
           | None => None
           end
  end.

(** [header.match(/:(.*?);/)?.[1]]: the group of the leftmost match. *)
Fixpoint matchMimeType (s : jsstring) : option jsstring :=
  match s with
  | [] => None
  | c :: s' =>
      if (c =? cu_colon)%N then
        match lazyUntilSemicolon s' with
        | Some g => Some g
        | None => matchMimeType s'
        end
      else matchMimeType s'
  end.

Record ParsedDataUrl := mkParsed {
  mimeType : jsstring;
  data : option jsstring   (* [None] is [undefined]: no comma in the input *)
}.

Definition headerOf (dataUrl : jsstring) : jsstring :=
  hd [] (split cu_comma dataUrl).

Definition parseDataUrl (dataUrl : jsstring) : ParsedDataUrl :=
  let pieces := split cu_comma dataUrl in
  let header := hd [] pieces in
  let data := nth_error pieces 1 in
  let mimeType :=
    match matchMimeType header with
    | Some g => g
    | None => js "image/png"
    end in
  mkParsed mimeType data.

(* ===================================================================== *)
(** ** Image compositor (the geometry of [expandImage]) *)
(* ===================================================================== *)

(** [Math.round]: the nearest integer, halves rounded up. *)
Definition Math_round (x : Q) : Z := Qfloor (x + (1 # 2))%Q.

Definition Qgtb (a b : Q) : bool := negb (Qle_bool a b).

(** The canvas and the offsets handed to [ctx.drawImage]. *)
Record Composite := mkComposite {
  canvas_width : Z;
  canvas_height : Z;
  xOffset : Q;
  yOffset : Q
}.

(** [targetAspectRatio.split(':').map(Number)], destructured into its first
    two entries; [None] when one of them is not a finite number (a missing
    second entry is undefined, which makes the ratio NaN). *)
Definition parseAspectRatio (targetAspectRatio : jsstring) : option (Q * Q) :=
  match split cu_colon targetAspectRatio with
  | w :: h :: _ =>
      match Number w, Number h with
      | Some targetW, Some targetH => Some (targetW, targetH)
      | _, _ => None
      end
  | _ => None
  end.

(** A dimension assigned to [canvas.width] or [canvas.height] and read
    back: the attribute is an unsigned long that keeps an integer from 0
    to 2147483647; [None] for any other value, which the attribute does not
    keep as assigned. *)
Definition canvasSize (v : Z) : option Z :=
  if (0 <=? v) && (v <=? 2147483647) then Some v else None.

(** [(size - original) / 2] *)
Definition halfMargin (size original : Z) : option Q :=
  match fsub (inject_Z size) (inject_Z original) with
  | Some d => fdiv d 2
  | None => None
  end.

(** The body of [img.onload] up to [drawImage], on finite numbers.  The
    width and height of the image are unsigned long values, hence doubles.
    [None] when a ratio, the product or the quotient is not a finite number
    or a rounded dimension is not one the canvas keeps: the code then goes
    on with NaN, an infinity or the default size of the canvas, which the
    embedding does not follow. *)
Definition compose (originalWidth originalHeight : Z) (targetW targetH : Q)
    : option Composite :=
  match fdiv (inject_Z originalWidth) (inject_Z originalHeight),
        fdiv targetW targetH with
  | Some originalRatio, Some targetRatio =>
      if Qgtb targetRatio originalRatio then
        match fmul (inject_Z originalHeight) targetRatio with
        | Some product =>
            match canvasSize originalHeight, canvasSize (Math_round product) with
            | Some h, Some w =>
                match halfMargin w originalWidth with
                | Some x => Some (mkComposite w h x 0)
                | None => None
                end
            | _, _ => None
            end
        | None => None
        end
      else
        match fdiv (inject_Z originalWidth) targetRatio with
        | Some quotient =>
            match canvasSize originalWidth, canvasSize (Math_round quotient) with
            | Some w, Some h =>
                match halfMargin h originalHeight with
                | Some y => Some (mkComposite w h 0 y)
                | None => None
                end
            | _, _ => None
            end
        | None => None
        end
  | _, _ => None
  end.

(** The canvas [expandImage] draws on and the offsets of the image; [None]
    when a number of the computation is not finite or a canvas dimension is
    out of range. *)
Definition expandGeometry (originalWidth originalHeight : Z)
    (targetAspectRatio : jsstring) : option Composite :=
  match parseAspectRatio targetAspectRatio with
  | Some (targetW, targetH) => compose originalWidth originalHeight targetW targetH
  | None => None
  end.

(* ===================================================================== *)
(** ** Backend service contract *)
(* ===================================================================== *)

(** A content part of a request. *)
Inductive Part :=
| InlineData (mime : jsstring) (payload : option jsstring)
| Text (text : jsstring).

Inductive Contents :=
| Parts (parts : list Part)
| Plain (text : jsstring).

(** The two SDK entry points the gateway uses, with their arguments. *)
Inductive Call :=
| GenerateImages (model prompt : jsstring) (numberOfImages : Z)
                 (aspectRatio outputMimeType : jsstring)
| GenerateContent (model : jsstring) (contents : Contents)
                  (imageConfigAspectRatio : option jsstring).

(** A content part of a response: an inline image or something else. *)
Inductive ResponsePart :=
| RInline (mime payload : jsstring)
| ROther.

Record Response := mkResponse {
  generatedImages : list jsstring;     (* imageBytes of each generated image *)
  candidateParts : list ResponsePart;  (* candidates?.[0]?.content?.parts ?? [] *)
  responseText : option jsstring       (* response.text, [None] when undefined *)
}.

(** A thrown value or rejection reason. *)
Inductive Thrown :=
| ErrorObject (message : jsstring)          (* an instance of Error *)
| NonError (message : option jsstring)      (* any other non-nullish value *)
| Nullish.                                  (* null or undefined *)

Inductive Settled (A : Type) :=
| Resolved (a : A)
| Rejected (t : Thrown).
Arguments Resolved {A} a.
Arguments Rejected {A} t.

(* ===================================================================== *)
(** ** Session state *)
(* ===================================================================== *)

(** The state of [App]. *)
Record Session := mkSession {
  apiKeyInput : jsstring;
  statusMessage : jsstring;
  prompt : jsstring;
  aspectRatio : jsstring;
  style : jsstring;
  imageModel : jsstring;
  reasoningModel : jsstring;
  maxCaptionLength : Z;
  images : list jsstring;
  referenceImages : list jsstring;
  loading : bool;
  error : option jsstring;           (* [None] is null (or undefined) *)
  loadingCount : Z;
  processingAction : option jsstring;
  promptActionLoading : option jsstring
}.

(** The state of [StoryWriter]. *)
Record Story := mkStory {
  story : jsstring;
  fileName : jsstring;
  language : jsstring;
  storyStyle : jsstring;
  loadingAction : option jsstring;
  storyError : option jsstring
}.

(** Everything the handlers can change: both components, the credential
    holder of the gateway and the durable key storage. *)
Record World := mkWorld {
  session : Session;
  writer : Story;
  currentActiveApiKey : jsstring;
  storedKey : option jsstring        (* localStorage item user_api_key *)
}.

Inductive Broker :=
| BrokerAbsent                       (* window.aistudio is missing: the call throws *)
| BrokerKeySelected                  (* hasSelectedApiKey resolves to true *)
| BrokerNoKey (selectRejects : bool). (* resolves to false; openSelectKey may reject *)

Record File := mkFile {
  file_type : jsstring;
  file_read : Settled jsstring       (* what blobToBase64 settles with *)
}.

(** The collaborators of one run and the constants of [constants.ts]. *)
Record Env := mkEnv {
  backend : Call -> Settled Response;
  secondSettlesFirst : bool;         (* which of two parallel calls settles first *)
  STYLE_PROMPT_PREFIXES : jsstring -> jsstring;
  IMAGE_STYLES_name : jsstring -> option jsstring;
  env_API_KEY : option jsstring;     (* process.env.API_KEY *)
  broker : Broker;
  scrollFailure : option Thrown;     (* what scrollIntoView throws, if it does *)
  controlsElement : bool;            (* document.getElementById('controls') is not null *)
  loadImage : jsstring -> option (Z * Z);   (* intrinsic width and height, or onerror *)
  canvasContext : bool;              (* getContext('2d') is not null *)
  toDataURL : jsstring -> option Composite -> jsstring
}.

(** What a run does, in order: state setters with the value they store and
    calls to the collaborators. *)
Inductive Event :=
| SetApiKeyInput (v : jsstring)
| SetStatusMessage (v : jsstring)
| SetPrompt (v : jsstring)
| SetAspectRatio (v : jsstring)
| SetStyle (v : jsstring)
| SetImageModel (v : jsstring)
| SetReasoningModel (v : jsstring)
| SetMaxCaptionLength (v : Z)
| SetImages (v : list jsstring)
| SetReferenceImages (v : list jsstring)
| SetLoading (v : bool)
| SetError (v : option jsstring)
| SetLoadingCount (v : Z)
| SetProcessingAction (v : option jsstring)
| SetPromptActionLoading (v : option jsstring)
| SetStory (v : jsstring)
| SetLoadingAction (v : option jsstring)
| SetStoryError (v : option jsstring)
| BackendCall (apiKey : jsstring) (call : Call)
| BrokerHasSelectedApiKey
| BrokerOpenSelectKey
| ScrollIntoView
| ReadFile (file : File)
| StorageSetItem (v : jsstring)
| StorageRemoveItem
| UpdateActiveApiKey (v : jsstring)
| ClipboardWriteText (v : jsstring)
| SetTimeout (ms : Z)
| Download (name content : jsstring).

Definition withSession (f : Session -> Session) (w : World) : World :=
  mkWorld (f (session w)) (writer w) (currentActiveApiKey w) (storedKey w).

Definition withWriter (f : Story -> Story) (w : World) : World :=
  mkWorld (session w) (f (writer w)) (currentActiveApiKey w) (storedKey w).

(** The effect of an event on the state. *)
Definition apply (e : Event) (w : World) : World :=
  match e with
  | SetApiKeyInput v => withSession (fun s =>
      mkSession v (statusMessage s) (prompt s) (aspectRatio s) (style s)
        (imageModel s) (reasoningModel s) (maxCaptionLength s) (images s)
        (referenceImages s) (loading s) (error s) (loadingCount s)
        (processingAction s) (promptActionLoading s)) w
  | SetStatusMessage v => withSession (fun s =>
      mkSession (apiKeyInput s) v (prompt s) (aspectRatio s) (style s)
        (imageModel s) (reasoningModel s) (maxCaptionLength s) (images s)
        (referenceImages s) (loading s) (error s) (loadingCount s)
        (processingAction s) (promptActionLoading s)) w
  | SetPrompt v => withSession (fun s =>
      mkSession (apiKeyInput s) (statusMessage s) v (aspectRatio s) (style s)
        (imageModel s) (reasoningModel s) (maxCaptionLength s) (images s)
        (referenceImages s) (loading s) (error s) (loadingCount s)
        (processingAction s) (promptActionLoading s)) w
  | SetAspectRatio v => withSession (fun s =>
      mkSession (apiKeyInput s) (statusMessage s) (prompt s) v (style s)
        (imageModel s) (reasoningModel s) (maxCaptionLength s) (images s)
        (referenceImages s) (loading s) (error s) (loadingCount s)
        (processingAction s) (promptActionLoading s)) w
  | SetStyle v => withSession (fun s =>
      mkSession (apiKeyInput s) (statusMessage s) (prompt s) (aspectRatio s) v
        (imageModel s) (reasoningModel s) (maxCaptionLength s) (images s)
        (referenceImages s) (loading s) (error s) (loadingCount s)
        (processingAction s) (promptActionLoading s)) w
  | SetImageModel v => withSession (fun s =>
      mkSession (apiKeyInput s) (statusMessage s) (prompt s) (aspectRatio s)
        (style s) v (reasoningModel s) (maxCaptionLength s) (images s)
        (referenceImages s) (loading s) (error s) (loadingCount s)
        (processingAction s) (promptActionLoading s)) w
  | SetReasoningModel v => withSession (fun s =>
      mkSession (apiKeyInput s) (statusMessage s) (prompt s) (aspectRatio s)
        (style s) (imageModel s) v (maxCaptionLength s) (images s)
        (referenceImages s) (loading s) (error s) (loadingCount s)
        (processingAction s) (promptActionLoading s)) w
  | SetMaxCaptionLength v => withSession (fun s =>
      mkSession (apiKeyInput s) (statusMessage s) (prompt s) (aspectRatio s)
        (style s) (imageModel s) (reasoningModel s) v (images s)
        (referenceImages s) (loading s) (error s) (loadingCount s)
        (processingAction s) (promptActionLoading s)) w
  | SetImages v => withSession (fun s =>
      mkSession (apiKeyInput s) (statusMessage s) (prompt s) (aspectRatio s)
        (style s) (imageModel s) (reasoningModel s) (maxCaptionLength s) v
        (referenceImages s) (loading s) (error s) (loadingCount s)
        (processingAction s) (promptActionLoading s)) w
  | SetReferenceImages v => withSession (fun s =>
      mkSession (apiKeyInput s) (statusMessage s) (prompt s) (aspectRatio s)
        (style s) (imageModel s) (reasoningModel s) (maxCaptionLength s)
        (images s) v (loading s) (error s) (loadingCount s)
        (processingAction s) (promptActionLoading s)) w
  | SetLoading v => withSession (fun s =>
      mkSession (apiKeyInput s) (statusMessage s) (prompt s) (aspectRatio s)
        (style s) (imageModel s) (reasoningModel s) (maxCaptionLength s)
        (images s) (referenceImages s) v (error s) (loadingCount s)
        (processingAction s) (promptActionLoading s)) w
  | SetError v => withSession (fun s =>
      mkSession (apiKeyInput s) (statusMessage s) (prompt s) (aspectRatio s)
        (style s) (imageModel s) (reasoningModel s) (maxCaptionLength s)
        (images s) (referenceImages s) (loading s) v (loadingCount s)
        (processingAction s) (promptActionLoading s)) w
  | SetLoadingCount v => withSession (fun s =>
      mkSession (apiKeyInput s) (statusMessage s) (prompt s) (aspectRatio s)
        (style s) (imageModel s) (reasoningModel s) (maxCaptionLength s)
        (images s) (referenceImages s) (loading s) (error s) v
        (processingAction s) (promptActionLoading s)) w
  | SetProcessingAction v => withSession (fun s =>
      mkSession (apiKeyInput s) (statusMessage s) (prompt s) (aspectRatio s)
        (style s) (imageModel s) (reasoningModel s) (maxCaptionLength s)
        (images s) (referenceImages s) (loading s) (error s) (loadingCount s)
        v (promptActionLoading s)) w
  | SetPromptActionLoading v => withSession (fun s =>
      mkSession (apiKeyInput s) (statusMessage s) (prompt s) (aspectRatio s)
        (style s) (imageModel s) (reasoningModel s) (maxCaptionLength s)
        (images s) (referenceImages s) (loading s) (error s) (loadingCount s)
        (processingAction s) v) w
  | SetStory v => withWriter (fun t =>
      mkStory v (fileName t) (language t) (storyStyle t) (loadingAction t)
        (storyError t)) w
  | SetLoadingAction v => withWriter (fun t =>
      mkStory (story t) (fileName t) (language t) (storyStyle t) v
        (storyError t)) w
  | SetStoryError v => withWriter (fun t =>
      mkStory (story t) (fileName t) (language t) (storyStyle t)
        (loadingAction t) v) w
  | StorageSetItem v =>
      mkWorld (session w) (writer w) (currentActiveApiKey w) (Some v)
  | StorageRemoveItem =>
      mkWorld (session w) (writer w) (currentActiveApiKey w) None
  | UpdateActiveApiKey v =>
      mkWorld (session w) (writer w) v (storedKey w)
  | BackendCall _ _ | BrokerHasSelectedApiKey | BrokerOpenSelectKey
  | ScrollIntoView | ReadFile _ | ClipboardWriteText _ | SetTimeout _
  | Download _ _ => w
  end.

(* ===================================================================== *)
(** ** The handler monad *)
(* ===================================================================== *)

Inductive Res (A : Type) :=
| Val (a : A)
| Exc (t : Thrown).
Arguments Val {A} a.
Arguments Exc {A} t.

Record St := mkSt {
  world : World;
  log : list Event      (* oldest first *)
}.

Definition M (A : Type) : Type := Env -> St -> Res A * St.

Definition ret {A} (a : A) : M A := fun _ st => (Val a, st).

Definition bind {A B} (m : M A) (k : A -> M B) : M B :=
  fun env st =>
    match m env st with
    | (Val a, st') => k a env st'
    | (Exc t, st') => (Exc t, st')
    end.

Definition throw {A} (t : Thrown) : M A := fun _ st => (Exc t, st).

Declare Scope handler_scope.
Delimit Scope handler_scope with handler.
Notation "x <- m ;; k" := (bind m (fun x => k))
  (at level 61, m at next level, right associativity) : handler_scope.
Notation "m ;; k" := (bind m (fun _ => k))
  (at level 61, right associativity) : handler_scope.
Local Open Scope handler_scope.

Definition getWorld : M World := fun _ st => (Val (world st), st).
Definition getEnv : M Env := fun env st => (Val env, st).

(** Perform an event: log it and apply it to the state. *)
Definition emit (e : Event) : M unit :=
  fun _ st => (Val tt, mkSt (apply e (world st)) (log st ++ [e])).

(** [try { body } catch (err) { handler }] *)
Definition tryCatch {A} (body : M A) (handler : Thrown -> M A) : M A :=
  fun env st =>
    match body env st with
    | (Val a, st') => (Val a, st')
    | (Exc t, st') => handler t env st'
    end.

(** [try { body } finally { fin }]: [fin] runs on every exit of [body]; an
    exception of [body] is thrown again after it. *)
Definition tryFinally {A} (body : M A) (fin : M unit) : M A :=
  fun env st =>
    match body env st with
    | (Val a, st') =>
        match fin env st' with
        | (Val _, st'') => (Val a, st'')
        | (Exc t, st'') => (Exc t, st'')
        end
    | (Exc t, st') =>
        match fin env st' with
        | (Val _, st'') => (Exc t, st'')
        | (Exc t', st'') => (Exc t', st'')
        end
    end.

(** [try { body } catch (err) { handler } finally { fin }] *)
Definition tryCatchFinally (body : M unit) (handler : Thrown -> M unit)
    (fin : M unit) : M unit :=
  tryFinally (tryCatch body handler) fin.

(** What reading [.message] of a null or undefined value throws (the text
    depends on the engine). *)
Definition messageOfNullish : Thrown :=
  ErrorObject (js "Cannot read properties of undefined (reading 'message')").

(** [(err as Error).message] *)
Definition messageOf (err : Thrown) : M (option jsstring) :=
  match err with
  | ErrorObject m => ret (Some m)
  | NonError m => ret m
  | Nullish => throw messageOfNullish
  end.

Definition setPrompt v := emit (SetPrompt v).
Definition setAspectRatio v := emit (SetAspectRatio v).
Definition setImages v := emit (SetImages v).
Definition setLoading v := emit (SetLoading v).
Definition setError v := emit (SetError v).
Definition setLoadingCount v := emit (SetLoadingCount v).
Definition setProcessingAction v := emit (SetProcessingAction v).
Definition setPromptActionLoading v := emit (SetPromptActionLoading v).
Definition setStatusMessage v := emit (SetStatusMessage v).
Definition setApiKeyInput v := emit (SetApiKeyInput v).
Definition setLoadingAction v := emit (SetLoadingAction v).
Definition setStoryError v := emit (SetStoryError v).

(** [setReferenceImages(value)] and [setReferenceImages(prev => ...)]: the
    updater receives the current list. *)
Definition setReferenceImages v := emit (SetReferenceImages v).
Definition updateReferenceImages (f : list jsstring -> list jsstring) : M unit :=
  w <- getWorld ;; emit (SetReferenceImages (f (referenceImages (session w)))).
Definition updateStory (f : jsstring -> jsstring) : M unit :=
  w <- getWorld ;; emit (SetStory (f (story (writer w)))).

(** [element.scrollIntoView(...)] *)
Definition scrollIntoView : M unit :=
  emit ScrollIntoView ;;
  env <- getEnv ;;
  match scrollFailure env with
  | Some t => throw t
  | None => ret tt
  end.

(* ===================================================================== *)
(** ** Credential holder and backend gateway ([geminiService.ts]) *)
(* ===================================================================== *)

Definition orEmpty (o : option jsstring) : jsstring :=
  match o with Some s => s | None => [] end.

(** [updateActiveApiKey(key)] *)
Definition updateActiveApiKey (key : jsstring) : M unit :=
  env <- getEnv ;;
  if truthy key && negb (jseqb key (js "no API key"))
     && (0 <? Z.of_nat (List.length (trim key)))
  then emit (UpdateActiveApiKey (trim key))
  else emit (UpdateActiveApiKey (orEmpty (env_API_KEY env))).

(** One SDK call through [getAi()]: the active key is read at the call. *)
Definition callBackend (c : Call) : M Response :=
  fun env st =>
    let st' := mkSt (world st)
                 (log st ++ [BackendCall (currentActiveApiKey (world st)) c]) in
    match backend env c with
    | Resolved r => (Val r, st')
    | Rejected t => (Exc t, st')
    end.

(** The loop over the response parts that keeps the inline images. *)
Fixpoint inlineImages (parts : list ResponsePart) : list jsstring :=
  match parts with
  | [] => []
  | RInline mime payload :: rest =>
      (js "data:" ++ mime ++ js ";base64," ++ payload) :: inlineImages rest
  | ROther :: rest => inlineImages rest
  end.

Definition isEmpty {A} (l : list A) : bool :=
  match l with [] => true | _ :: _ => false end.

Definition generateFromText (prompt : jsstring) (count : Z)
    (aspectRatio style model : jsstring) : M (list jsstring) :=
  env <- getEnv ;;
  let fullPrompt := STYLE_PROMPT_PREFIXES env style ++ js " " ++ prompt in
  if jseqb model (js "imagen-4.0-generate-001") then
    response <- callBackend
      (GenerateImages model fullPrompt count aspectRatio (js "image/png")) ;;
    ret (map (fun bytes => js "data:image/png;base64," ++ bytes)
             (generatedImages response))
  else if includes (js "gemini") model || includes (js "flash") model
          || includes (js "pro") model then
    response <- callBackend
      (GenerateContent model (Parts [Text fullPrompt]) (Some aspectRatio)) ;;
    let images := inlineImages (candidateParts response) in
    if isEmpty images then
      throw (ErrorObject (js "Generation failed. Ensure your API Key is valid and the model supports image generation."))
    else ret images
  else throw (ErrorObject (js "Unsupported model: " ++ model)).

Definition generateFromImageAndText (prompt : jsstring)
    (referenceImages : list jsstring) : M (list jsstring) :=
  let parts :=
    map (fun refImage =>
           let p := parseDataUrl refImage in InlineData (mimeType p) (data p))
        referenceImages ++ [Text prompt] in
  response <- callBackend
    (GenerateContent (js "gemini-2.5-flash-image") (Parts parts) None) ;;
  let images := inlineImages (candidateParts response) in
  if isEmpty images then
    throw (ErrorObject (js "Generation failed. No image returned."))
  else ret images.

Definition describeImage (imageSrc model : jsstring) : M jsstring :=
  let p := parseDataUrl imageSrc in
  response <- callBackend
    (GenerateContent model
       (Parts [InlineData (mimeType p) (data p);
               Text (js "Describe this image in detail. Focus on creating a descriptive prompt that could be used for a text-to-image AI.")])
       None) ;;
  ret (orEmpty (responseText response)).

(** [suggestCaption] declares two parameters. *)
Definition suggestCaption (imageSrc model : jsstring) : M jsstring :=
  let p := parseDataUrl imageSrc in
  response <- callBackend
    (GenerateContent model
       (Parts [InlineData (mimeType p) (data p);
               Text (js "Suggest a short, witty, and engaging caption for this image suitable for social media. Respond with only the caption text.")])
       None) ;;
  ret (stripQuotes (orEmpty (responseText response))).

Definition enhancePrompt (prompt model : jsstring) : M jsstring :=
  response <- callBackend
    (GenerateContent model
       (Plain (js "Enhance the following text-to-image prompt to make it more vivid, detailed, and imaginative. Original: "
               ++ [cu_quote] ++ prompt ++ [cu_quote]))
       None) ;;
  ret (stripQuotes (orEmpty (responseText response))).

Definition generateConcept (story model : jsstring) : M jsstring :=
  response <- callBackend
    (GenerateContent model
       (Plain (js "Convert this story into a concise text-to-image prompt: "
               ++ [cu_quote] ++ story ++ [cu_quote]))
       None) ;;
  ret (orEmpty (responseText response)).

Definition expandPrompt (targetAspectRatio : jsstring) : jsstring :=
  js "Expand the scene seamlessly to " ++ targetAspectRatio
  ++ js ". Match original style.".

(** [expandImage]: the promise settles with the images or with an error. *)
Definition expandImage (imageSrc targetAspectRatio : jsstring) : M (list jsstring) :=
  env <- getEnv ;;
  match loadImage env imageSrc with
  | None => throw (ErrorObject (js "Failed to load image."))
  | Some (originalWidth, originalHeight) =>
      let composite := expandGeometry originalWidth originalHeight targetAspectRatio in
      if negb (canvasContext env) then
        throw (ErrorObject (js "Could not get canvas context"))
      else
        let compositeImageBase64 := toDataURL env imageSrc composite in
        let p := parseDataUrl compositeImageBase64 in
        response <- callBackend
          (GenerateContent (js "gemini-2.5-flash-image")
             (Parts [InlineData (mimeType p) (data p);
                     Text (expandPrompt targetAspectRatio)])
             None) ;;
        let images := inlineImages (candidateParts response) in
        if negb (isEmpty images) then ret images
        else throw (ErrorObject (js "Expansion failed."))
  end.

Definition langMap (language : jsstring) : jsstring :=
  if jseqb language (js "thai") then js "Thai"
  else if jseqb language (js "english") then js "English"
  else if jseqb language (js "contextual") then js "contextual"
  else js "undefined".

Definition generateNextSentence (story language style model : jsstring) : M jsstring :=
  let prompt := js "Continue this story with ONE sentence. Lang: " ++ langMap language
                ++ js ". Style: " ++ style ++ js "." ++ [cu_newline]
                ++ js "Story: " ++ story in
  response <- callBackend (GenerateContent model (Plain prompt) None) ;;
  ret (trim (orEmpty (responseText response))).

(** [generateStoryCaption] declares three parameters. *)
Definition generateStoryCaption (story model language : jsstring) : M jsstring :=
  let lang := if jseqb language (js "Thai") then js "Thai" else js "English" in
  let prompt := js "Summarize this story in ONE short sentence in " ++ lang
                ++ js ". Max 60 chars." ++ [cu_newline]
                ++ js "Story: " ++ story in
  response <- callBackend (GenerateContent model (Plain prompt) None) ;;
  ret (trim (orEmpty (responseText response))).

Definition polishStory (story model : jsstring) : M jsstring :=
  let prompt := js "Rewrite this story elegantly. Do not change plot." ++ [cu_newline]
                ++ js "Story: " ++ story in
  response <- callBackend (GenerateContent model (Plain prompt) None) ;;
  ret (trim (orEmpty (responseText response))).

Definition translateStory (story targetLanguage model : jsstring) : M jsstring :=
  let prompt := js "Translate this into " ++ targetLanguage ++ js ":" ++ [cu_newline]
                ++ story in
  response <- callBackend (GenerateContent model (Plain prompt) None) ;;
  ret (trim (orEmpty (responseText response))).

Definition generateDesignFromStory (story styleName model : jsstring) : M jsstring :=
  let prompt := js "Create an image prompt based on this story in " ++ styleName
                ++ js " style." ++ [cu_newline] ++ js "Story: " ++ story in
  response <- callBackend (GenerateContent model (Plain prompt) None) ;;
  ret (trim (orEmpty (responseText response))).

(* ===================================================================== *)
(** ** Orchestration core: the handlers of [App.tsx] *)
(* ===================================================================== *)

(** A call that passes one argument more than the callee declares: the
    extra argument is evaluated and dropped. *)
Definition withExtraArgument {A B : Type} (callee : A) (extra : B) : A := callee.

Definition someTruthy (o : option jsstring) : bool :=
  match o with Some s => truthy s | None => false end.

Inductive Count := One | Four.

Definition countValue (c : Count) : Z :=
  match c with One => 1 | Four => 4 end.

(** [referenceImages.length > 0 || isGeminiModel ? 1 : count] *)
Definition effectiveCount (r : Session) (count : Z) : Z :=
  let isGeminiModel :=
    jseqb (imageModel r) (js "gemini-2.5-flash-image")
    || jseqb (imageModel r) (js "gemini-3-pro-image-preview") in
  if (0 <? Z.of_nat (List.length (referenceImages r))) || isGeminiModel
  then 1 else count.

(** [window.aistudio.hasSelectedApiKey()] *)
Definition hasSelectedApiKey : M bool :=
  env <- getEnv ;;
  match broker env with
  | BrokerAbsent => throw messageOfNullish
  | BrokerKeySelected => emit BrokerHasSelectedApiKey ;; ret true
  | BrokerNoKey _ => emit BrokerHasSelectedApiKey ;; ret false
  end.

(** [window.aistudio.openSelectKey()] *)
Definition openSelectKey : M unit :=
  env <- getEnv ;;
  emit BrokerOpenSelectKey ;;
  match broker env with
  | BrokerNoKey true => throw (ErrorObject (js "openSelectKey rejected"))
  | _ => ret tt
  end.

Definition handleSendKey (r : Session) : M unit :=
  if negb (truthy (apiKeyInput r)) || jseqb (apiKeyInput r) (js "no API key")
     || jseqb (trim (apiKeyInput r)) []
  then setError (Some (js "Please enter a valid API key."))
  else
    emit (StorageSetItem (trim (apiKeyInput r))) ;;
    updateActiveApiKey (trim (apiKeyInput r)) ;;
    setStatusMessage (js "Applied & Saved!") ;;
    emit (SetTimeout 3000).

Definition handleCopyKey (r : Session) : M unit :=
  if truthy (apiKeyInput r) && negb (jseqb (apiKeyInput r) (js "no API key"))
  then
    emit (ClipboardWriteText (apiKeyInput r)) ;;
    setStatusMessage (js "Copied!") ;;
    emit (SetTimeout 2000)
  else ret tt.

Definition handleClearKey (r : Session) : M unit :=
  env <- getEnv ;;
  setApiKeyInput [] ;;
  emit StorageRemoveItem ;;
  updateActiveApiKey (orEmpty (env_API_KEY env)) ;;
  setStatusMessage (js "Cleared.") ;;
  emit (SetTimeout 2000).

Definition handleGenerate (r : Session) (count : Z) : M unit :=
  if negb (truthy (trim (prompt r))) then
    setError (Some (js "Please enter a prompt."))
  else
    env <- getEnv ;;
    w <- getWorld ;;
    let hasKey :=
      someTruthy (storedKey w)
      || (someTruthy (env_API_KEY env)
          && negb (jseqb (orEmpty (env_API_KEY env)) (js "PLACEHOLDER_API_KEY"))) in
    proceed <-
      (if negb hasKey && jseqb (imageModel r) (js "gemini-3-pro-image-preview")
       then
         tryCatch
           (nativeKey <- hasSelectedApiKey ;;
            (if negb nativeKey then openSelectKey else ret tt) ;;
            ret true)
           (fun _ =>
              setError (Some (js "API Key is required. Please set it in the field above.")) ;;
              ret false)
       else ret true) ;;
    if negb proceed then ret tt
    else
      setLoading true ;;
      setError None ;;
      setImages [] ;;
      setLoadingCount (effectiveCount r count) ;;
      tryCatchFinally
        (generatedImages <-
           (if 0 <? Z.of_nat (List.length (referenceImages r))
            then generateFromImageAndText (prompt r) (referenceImages r)
            else generateFromText (prompt r) (effectiveCount r count)
                   (aspectRatio r) (style r) (imageModel r)) ;;
         setImages generatedImages)
        (fun err =>
           match err with
           | ErrorObject message =>
               if includes (js "Requested entity was not found") message
                  || includes (js "API_KEY_INVALID") message
               then
                 tryCatch
                   (setError (Some (js "Invalid API Key. Please update the key in the field above.")) ;;
                    scrollIntoView)
                   (fun _ => setError (Some (js "API Error: " ++ message)))
               else setError (Some message)
           | _ => setError (Some (js "An unknown error occurred."))
           end)
        (setLoading false ;; setLoadingCount 0).

Definition handleSetReference (r : Session) (imageSrc : jsstring) : M unit :=
  if Z.of_nat (List.length (referenceImages r)) <? 4
  then updateReferenceImages (fun prev => prev ++ [imageSrc])
  else setError (Some (js "You can only have a maximum of 4 reference images.")).

(** [prev.filter((_, index) => index !== indexToRemove)] *)
Fixpoint removeAt {A} (indexToRemove : nat) (l : list A) : list A :=
  match l, indexToRemove with
  | [], _ => []
  | _ :: l', O => l'
  | x :: l', S i => x :: removeAt i l'
  end.

Definition handleRemoveReference (indexToRemove : nat) : M unit :=
  updateReferenceImages (removeAt indexToRemove).

Definition handleUploadReference (r : Session) (file : File) : M unit :=
  if negb (startsWith (js "image/") (file_type file)) then
    setError (Some (js "Please upload a valid image file."))
  else
    tryCatch
      (emit (ReadFile file) ;;
       base64 <- (match file_read file with
                  | Resolved b => ret b
                  | Rejected t => throw t
                  end) ;;
       handleSetReference r base64)
      (fun _ => setError (Some (js "Failed to read the image file."))).

(** [catch (err) { setError((err as Error).message); }] *)
Definition reportError (err : Thrown) : M unit :=
  m <- messageOf err ;; setError m.

Definition handleDescribe (r : Session) (imageSrc : jsstring) (index : N) : M unit :=
  setProcessingAction (Some (js "describe-" ++ numberToString index)) ;;
  setError None ;;
  tryCatchFinally
    (description <- describeImage imageSrc (reasoningModel r) ;;
     setPrompt description)
    reportError
    (setProcessingAction None).

(** The character class of the test on the caption: ko kai to ho nokhuk. *)
Definition isThaiLetter (c : N) : bool := ((3585 <=? c) && (c <=? 3630))%N.

Definition captionPrompt (caption : jsstring) : jsstring :=
  let isThai := existsb isThaiLetter caption in
  let textType := if isThai then js "Thai text" else js "text" in
  js "Recreate the image in [ref-1], but add the following " ++ textType
  ++ js " as a caption: " ++ [cu_quote] ++ caption ++ [cu_quote]
  ++ js ". The " ++ textType
  ++ js " should be elegantly placed in a suitable position, using a beautiful font with a color that is easily readable against the background. Do not obscure important details like faces or key subjects. The "
  ++ textType
  ++ js " MUST be clear and readable, using the exact characters provided without translation.".

Definition handleCaption (r : Session) (imageSrc : jsstring) (index : N) : M unit :=
  setProcessingAction (Some (js "caption-" ++ numberToString index)) ;;
  setError None ;;
  tryCatchFinally
    (caption <- withExtraArgument (suggestCaption imageSrc (reasoningModel r))
                  (maxCaptionLength r) ;;
     setReferenceImages [imageSrc] ;;
     setPrompt (captionPrompt caption))
    reportError
    (setProcessingAction None).

Definition removeTextPrompt : jsstring :=
  js "Analyze the image provided in [ref-1] and remove all text, words, characters and logos. Reconstruct the areas where the text was removed to look natural and seamless with the rest of the image.".

Definition handleRemoveText (r : Session) (imageSrc : jsstring) (index : N) : M unit :=
  setProcessingAction (Some (js "remove-text-" ++ numberToString index)) ;;
  setError None ;;
  let newPrompt := removeTextPrompt in
  let newReferenceImages := [imageSrc] in
  setPrompt newPrompt ;;
  setReferenceImages newReferenceImages ;;
  setLoading true ;;
  setImages [] ;;
  setLoadingCount 1 ;;
  tryCatchFinally
    (generatedImages <- generateFromImageAndText newPrompt newReferenceImages ;;
     setImages generatedImages)
    reportError
    (setLoading false ;; setLoadingCount 0 ;; setProcessingAction None).

Definition handleExpandImage (r : Session) (imageSrc : jsstring) (index : N)
    (targetAspectRatio : jsstring) : M unit :=
  setProcessingAction (Some (js "expand-" ++ numberToString index)) ;;
  setLoading true ;;
  setError None ;;
  setImages [] ;;
  setLoadingCount 1 ;;
  setAspectRatio targetAspectRatio ;;
  tryCatchFinally
    (expandedImages <- expandImage imageSrc targetAspectRatio ;;
     setImages expandedImages)
    reportError
    (setLoading false ;; setLoadingCount 0 ;; setProcessingAction None ;;
     setAspectRatio (js "16:9")).

Definition handleCopyPrompt (r : Session) : M unit :=
  if negb (truthy (trim (prompt r))) then ret tt
  else emit (ClipboardWriteText (prompt r)).

Definition handleClearPrompt : M unit := setPrompt [].

(** [referenceImages[0]] behind the guard on the length. *)
Definition firstReference (r : Session) : jsstring := hd [] (referenceImages r).

Definition handleDescribeRef1 (r : Session) : M unit :=
  if isEmpty (referenceImages r) then
    setError (Some (js "No reference image available to describe."))
  else
    setPromptActionLoading (Some (js "describe-ref-1")) ;;
    setError None ;;
    tryCatchFinally
      (description <- describeImage (firstReference r) (reasoningModel r) ;;
       setPrompt description)
      reportError
      (setPromptActionLoading None).

Definition handleCaptionRef1 (r : Session) : M unit :=
  if isEmpty (referenceImages r) then
    setError (Some (js "No reference image available to caption."))
  else
    setPromptActionLoading (Some (js "caption-ref-1")) ;;
    setError None ;;
    tryCatchFinally
      (caption <- withExtraArgument
                    (suggestCaption (firstReference r) (reasoningModel r))
                    (maxCaptionLength r) ;;
       setReferenceImages [firstReference r] ;;
       setPrompt (captionPrompt caption))
      reportError
      (setPromptActionLoading None).

Definition handleRemoveTextRef1 (r : Session) : M unit :=
  if isEmpty (referenceImages r) then
    setError (Some (js "No reference image available to process."))
  else
    setPromptActionLoading (Some (js "remove-text-ref-1")) ;;
    setError None ;;
    let newPrompt := removeTextPrompt in
    let newReferenceImages := [firstReference r] in
    setPrompt newPrompt ;;
    setReferenceImages newReferenceImages ;;
    setLoading true ;;
    setImages [] ;;
    setLoadingCount 1 ;;
    tryCatchFinally
      (generatedImages <- generateFromImageAndText newPrompt newReferenceImages ;;
       setImages generatedImages)
      reportError
      (setLoading false ;; setLoadingCount 0 ;; setPromptActionLoading None).

Definition handleExpandRef1 (r : Session) (targetAspectRatio : jsstring) : M unit :=
  if isEmpty (referenceImages r) then
    setError (Some (js "No reference image available to expand."))
  else
    setPromptActionLoading (Some (js "expand-ref-1")) ;;
    setLoading true ;;
    setError None ;;
    setImages [] ;;
    setLoadingCount 1 ;;
    setAspectRatio targetAspectRatio ;;
    tryCatchFinally
      (expandedImages <- expandImage (firstReference r) targetAspectRatio ;;
       setImages expandedImages)
      reportError
      (setLoading false ;; setLoadingCount 0 ;; setPromptActionLoading None ;;
       setAspectRatio (js "16:9")).

Definition handleEnhancePrompt (r : Session) : M unit :=
  if negb (truthy (trim (prompt r))) then
    setError (Some (js "Prompt is empty, nothing to enhance."))
  else
    setPromptActionLoading (Some (js "enhance")) ;;
    setError None ;;
    tryCatchFinally
      (enhanced <- enhancePrompt (prompt r) (reasoningModel r) ;;
       setPrompt enhanced)
      reportError
      (setPromptActionLoading None).

Definition handleConcept (r : Session) : M unit :=
  if negb (truthy (trim (prompt r))) then
    setError (Some (js "Prompt is empty, cannot generate concept."))
  else
    setPromptActionLoading (Some (js "concept")) ;;
    setError None ;;
    tryCatchFinally
      (concept <- generateConcept (prompt r) (reasoningModel r) ;;
       setPrompt concept)
      reportError
      (setPromptActionLoading None).

Definition handlePostStoryToPrompt (storyText : jsstring) : M unit :=
  setPrompt storyText ;;
  env <- getEnv ;;
  if controlsElement env then scrollIntoView else ret tt.

(* ===================================================================== *)
(** ** The handlers of [StoryWriter.tsx] *)
(* ===================================================================== *)

(** [s.endsWith(p)] *)
Definition endsWith (p s : jsstring) : bool := startsWith (rev p) (rev s).

(** [Promise.all([a, b])]: both calls are started; the result is rejected
    with the reason of the promise that rejects first. *)
Definition promiseAll2 {A B} (a : M A) (b : M B) : M (A * B) :=
  fun env st =>
    match a env st with
    | (ra, st1) =>
        match b env st1 with
        | (rb, st2) =>
            match ra, rb with
            | Val x, Val y => (Val (x, y), st2)
            | Exc t, Val _ => (Exc t, st2)
            | Val _, Exc t => (Exc t, st2)
            | Exc t1, Exc t2 =>
                (Exc (if secondSettlesFirst env then t2 else t1), st2)
            end
        end
    end.

(** [catch (err) { setError((err as Error).message); }] of the story writer. *)
Definition reportStoryError (err : Thrown) : M unit :=
  m <- messageOf err ;; setStoryError m.

Inductive TargetLanguage := Thai | English.

Definition languageName (l : TargetLanguage) : jsstring :=
  match l with Thai => js "Thai" | English => js "English" end.

Definition handleSaveFile (rs : Story) : M unit :=
  if negb (truthy (story rs)) then
    setStoryError (Some (js "There is no story to save."))
  else
    setStoryError None ;;
    emit (Download (if endsWith (js ".txt") (fileName rs) then fileName rs
                    else fileName rs ++ js ".txt")
                   (story rs)).

Definition handleClear : M unit := emit (SetStory []).
Definition handleCopy (rs : Story) : M unit := emit (ClipboardWriteText (story rs)).
Definition handlePost (rs : Story) : M unit := handlePostStoryToPrompt (story rs).

Definition handleIdea (r : Session) (rs : Story) : M unit :=
  setLoadingAction (Some (js "idea")) ;;
  setStoryError None ;;
  tryCatchFinally
    (nextSentence <- generateNextSentence (story rs) (language rs)
                       (storyStyle rs) (reasoningModel r) ;;
     if jseqb (storyStyle rs) (js "thai_poem") then
       updateStory (fun prev =>
         if truthy (trim prev) then trim prev ++ [cu_newline] ++ nextSentence
         else nextSentence)
     else
       updateStory (fun prev =>
         if truthy (trim prev) then trim prev ++ js " " ++ nextSentence
         else nextSentence))
    reportStoryError
    (setLoadingAction None).

Definition handleCustomCaption (r : Session) (rs : Story) : M unit :=
  if negb (truthy (trim (story rs))) then
    setStoryError (Some (js "Story is empty. Cannot create a caption."))
  else
    setLoadingAction (Some (js "caption")) ;;
    setStoryError None ;;
    tryCatchFinally
      (caption <- withExtraArgument
                    (generateStoryCaption (story rs) (reasoningModel r) (js "English"))
                    (maxCaptionLength r) ;;
       let fullPrompt :=
         js "Recreate the image in [ref-1], but add the following text as a caption: "
         ++ [cu_quote] ++ caption ++ [cu_quote]
         ++ js ". The text should be elegantly placed in a suitable position, using a beautiful font with a color that is easily readable against the background. Do not obscure important details like faces or key subjects. The text should be clear and readable on a mobile screen. Use the exact text provided without translation." in
       handlePostStoryToPrompt fullPrompt)
      reportStoryError
      (setLoadingAction None).

Definition thaiCaptionSuffix : jsstring :=
  js ". The Thai text should be elegantly placed in a suitable position, using a beautiful font with a color that is easily readable against the background. Do not obscure important details like faces or key subjects. The Thai text MUST be rendered exactly as written in Thai characters, without any translation to English.".

Definition handleThaiCaption (r : Session) (rs : Story) : M unit :=
  if negb (truthy (trim (story rs))) then
    setStoryError (Some (js "Story is empty. Cannot create a caption."))
  else
    setLoadingAction (Some (js "caption-thai")) ;;
    setStoryError None ;;
    tryCatchFinally
      (caption <- withExtraArgument
                    (generateStoryCaption (story rs) (reasoningModel r) (js "Thai"))
                    (maxCaptionLength r) ;;
       let fullPrompt :=
         js "Recreate the image in [ref-1], but add the following Thai text as a caption: "
         ++ [cu_quote] ++ caption ++ [cu_quote] ++ thaiCaptionSuffix in
       handlePostStoryToPrompt fullPrompt)
      reportStoryError
      (setLoadingAction None).

Definition handleNewThaiCaption (r : Session) (rs : Story) : M unit :=
  if negb (truthy (trim (story rs))) then
    setStoryError (Some (js "Story is empty. Cannot create a caption."))
  else
    setLoadingAction (Some (js "new-caption-thai")) ;;
    setStoryError None ;;
    tryCatchFinally
      (env <- getEnv ;;
       let styleName :=
         match IMAGE_STYLES_name env (style r) with
         | Some name => if truthy name then name else js "Photorealistic"
         | None => js "Photorealistic"
         end in
       both <- promiseAll2
                 (withExtraArgument
                    (generateStoryCaption (story rs) (reasoningModel r) (js "Thai"))
                    (maxCaptionLength r))
                 (generateDesignFromStory (story rs) styleName (reasoningModel r)) ;;
       let caption := fst both in
       let designPrompt := snd both in
       let fullPrompt :=
         designPrompt ++ js " Thai text in the image: "
         ++ [cu_quote] ++ caption ++ [cu_quote] ++ thaiCaptionSuffix in
       handlePostStoryToPrompt fullPrompt)
      reportStoryError
      (setLoadingAction None).

Definition handlePolish (r : Session) (rs : Story) : M unit :=
  if negb (truthy (trim (story rs))) then
    setStoryError (Some (js "Story is empty. Nothing to polish."))
  else
    setLoadingAction (Some (js "polish")) ;;
    setStoryError None ;;
    tryCatchFinally
      (polishedStory <- polishStory (story rs) (reasoningModel r) ;;
       handlePostStoryToPrompt polishedStory)
      reportStoryError
      (setLoadingAction None).

Definition handleTranslate (r : Session) (rs : Story)
    (targetLanguage : TargetLanguage) : M unit :=
  if negb (truthy (trim (story rs))) then
    setStoryError (Some (js "Story is empty. Nothing to translate to "
                         ++ languageName targetLanguage ++ js "."))
  else
    let actionKey := js "translate-" ++ toLowerCase (languageName targetLanguage) in
    setLoadingAction (Some actionKey) ;;
    setStoryError None ;;
    tryCatchFinally
      (translatedStory <- translateStory (story rs) (languageName targetLanguage)
                            (reasoningModel r) ;;
       handlePostStoryToPrompt translatedStory)
      reportStoryError
      (setLoadingAction None).

(* ===================================================================== *)
(** ** Operations and runs *)
(* ===================================================================== *)

(** The user-facing actions, with the arguments the controls pass. *)
Inductive Op :=
| SendKey | CopyKey | ClearKey
| Generate (count : Count)
| SetReference (imageSrc : jsstring)
| RemoveReference (indexToRemove : nat)
| UploadReference (file : File)
| Describe (imageSrc : jsstring) (index : N)
| Caption (imageSrc : jsstring) (index : N)
| RemoveText (imageSrc : jsstring) (index : N)
| ExpandImage (imageSrc : jsstring) (index : N) (targetAspectRatio : jsstring)
| CopyPrompt | ClearPrompt
| DescribeRef1 | CaptionRef1 | RemoveTextRef1
| ExpandRef1 (targetAspectRatio : jsstring)
| EnhancePrompt | Concept
| SaveFile | ClearStory | CopyStory | PostStory
| Idea | CustomCaption | ThaiCaption | NewThaiCaption | Polish
| Translate (targetLanguage : TargetLanguage).

(** The handler bound to an operation in the render with state [r], [rs]. *)
Definition handler (r : Session) (rs : Story) (op : Op) : M unit :=
  match op with
  | SendKey => handleSendKey r
  | CopyKey => handleCopyKey r
  | ClearKey => handleClearKey r
  | Generate count => handleGenerate r (countValue count)
  | SetReference imageSrc => handleSetReference r imageSrc
  | RemoveReference i => handleRemoveReference i
  | UploadReference file => handleUploadReference r file
  | Describe imageSrc index => handleDescribe r imageSrc index
  | Caption imageSrc index => handleCaption r imageSrc index
  | RemoveText imageSrc index => handleRemoveText r imageSrc index
  | ExpandImage imageSrc index ratio => handleExpandImage r imageSrc index ratio
  | CopyPrompt => handleCopyPrompt r
  | ClearPrompt => handleClearPrompt
  | DescribeRef1 => handleDescribeRef1 r
  | CaptionRef1 => handleCaptionRef1 r
  | RemoveTextRef1 => handleRemoveTextRef1 r
  | ExpandRef1 ratio => handleExpandRef1 r ratio
  | EnhancePrompt => handleEnhancePrompt r
  | Concept => handleConcept r
  | SaveFile => handleSaveFile rs
  | ClearStory => handleClear
  | CopyStory => handleCopy rs
  | PostStory => handlePost rs
  | Idea => handleIdea r rs
  | CustomCaption => handleCustomCaption r rs
  | ThaiCaption => handleThaiCaption r rs
  | NewThaiCaption => handleNewThaiCaption r rs
  | Polish => handlePolish r rs
  | Translate l => handleTranslate r rs l
  end.

(** One operation triggered in the state [w] and run to its settlement. *)
Definition run (env : Env) (w : World) (op : Op) : Res unit * St :=
  handler (session w) (writer w) op env (mkSt w []).

(** An operation whose handler was created by the render of [render] and
    that reaches its setters when the state is [current]: the closure reads
    [render], the updaters act on [current].  [run] is the case where the
    two are the same state.  Two uploads started from one render, the
    second read settling after the first, are [runFromRender env render
    render] followed by [runFromRender env render w1] on the state [w1] the
    first one left: before the awaited read an upload only tests the type
    of its file. *)
Definition runFromRender (env : Env) (render current : World) (op : Op)
    : Res unit * St :=
  handler (session render) (writer render) op env (mkSt current []).

Definition finalWorld (env : Env) (w : World) (op : Op) : World :=
  world (snd (run env w op)).

Definition events (env : Env) (w : World) (op : Op) : list Event :=
  log (snd (run env w op)).

(** The backend calls of a run, in order. *)
Fixpoint backendCalls (l : list Event) : list Call :=
  match l with
  | [] => []
  | BackendCall _ c :: l' => c :: backendCalls l'
  | _ :: l' => backendCalls l'
  end.

(** The number of images a call asks the backend for in one batch. *)
Definition requestedImages (c : Call) : option Z :=
  match c with
  | GenerateImages _ _ numberOfImages _ _ => Some numberOfImages
  | GenerateContent _ _ _ => None
  end.

(** The instruction texts a call carries. *)
Definition instructionTexts (c : Call) : list jsstring :=
  match c with
  | GenerateImages _ prompt _ _ _ => [prompt]
  | GenerateContent _ (Plain text) _ => [text]
  | GenerateContent _ (Parts parts) _ =>
      flat_map (fun p => match p with Text t => [t] | InlineData _ _ => [] end) parts
  end.

(** The in-flight markers of a state: the two tag slots of [App], the tag
    slot of the story writer, and the bulk-generation flag. *)
Definition inFlightTags (w : World) : list jsstring :=
  match processingAction (session w) with Some t => [t] | None => [] end
  ++ match promptActionLoading (session w) with Some t => [t] | None => [] end
  ++ match loadingAction (writer w) with Some t => [t] | None => [] end.

(* ===================================================================== *)
(** ** Further handlers and the controls that trigger the operations *)
(* ===================================================================== *)

(** The effect of [App] that initialises the key field when the component
    mounts. *)
Definition initializeApiKey : M unit :=
  env <- getEnv ;;
  w <- getWorld ;;
  let savedKey := storedKey w in
  let defaultKey := env_API_KEY env in
  if someTruthy savedKey then
    setApiKeyInput (orEmpty savedKey) ;;
    updateActiveApiKey (orEmpty savedKey)
  else if someTruthy defaultKey
          && negb (jseqb (orEmpty defaultKey) (js "PLACEHOLDER_API_KEY"))
          && (5 <? Z.of_nat (List.length (orEmpty defaultKey)))
  then
    setApiKeyInput (orEmpty defaultKey) ;;
    updateActiveApiKey (orEmpty defaultKey)
  else setApiKeyInput (js "no API key").

(** What the handlers read from a text area of the page. *)
Record Textarea := mkTextarea {
  selectionStart : nat;
  selectionEnd : nat;
  value : jsstring
}.

(** [handleInsertRefTag]: the new prompt, and the position assigned to both
    ends of the selection; nothing when the text area is not mounted. *)
Definition handleInsertRefTag (textarea : option Textarea) (tag : jsstring)
    : M (option nat) :=
  match textarea with
  | Some t =>
      let start := selectionStart t in
      let stop := selectionEnd t in
      let text := value t in
      let newText :=
        firstn start text ++ js " " ++ tag ++ js " " ++ skipn stop text in
      setPrompt newText ;;
      ret (Some (start + List.length tag + 2)%nat)
  | None => ret None
  end.

(** The part of the state of [StoryWriter] that the file dialog works on. *)
Record Pad := mkPad {
  pad_story : jsstring;
  pad_fileName : jsstring;
  pad_fileContent : option jsstring;   (* [None] is null *)
  pad_showFileOptions : bool
}.

Inductive OpenMode := Overwrite | Insert | Append.

(** The [onload] callback of the reader in [handleFileChange]. *)
Definition handleFileChange (text : jsstring) (p : Pad) : Pad :=
  mkPad (pad_story p) (pad_fileName p) (Some text) true.

(** [handleFileOpen]: [selected] is the name of the first file still held by
    the file input, [textarea] the story text area if it is mounted. *)
Definition handleFileOpen (mode : OpenMode) (selected : option jsstring)
    (textarea : option Textarea) (p : Pad) : Pad :=
  match pad_fileContent p with
  | None => p
  | Some fileContent =>
      if negb (truthy fileContent) then p
      else
        let opened :=
          match mode with
          | Overwrite =>
              mkPad fileContent
                (match selected with Some name => name | None => pad_fileName p end)
                (pad_fileContent p) (pad_showFileOptions p)
          | Append =>
              mkPad ((if truthy (pad_story p)
                      then pad_story p ++ [cu_newline] else [])
                     ++ fileContent)
                (pad_fileName p) (pad_fileContent p) (pad_showFileOptions p)
          | Insert =>
              match textarea with
              | Some t =>
                  mkPad (firstn (selectionStart t) (value t) ++ fileContent
                         ++ skipn (selectionStart t) (value t))
                    (pad_fileName p) (pad_fileContent p) (pad_showFileOptions p)
              | None => p
              end
          end in
        mkPad (pad_story opened) (pad_fileName opened) None false
  end.

(** The Cancel button of the file dialog. *)
Definition cancelFileOptions (p : Pad) : Pad :=
  mkPad (pad_story p) (pad_fileName p) (pad_fileContent p) false.

(** [isGeminiImageModel] of the render. *)
Definition isGeminiImageModel (r : Session) : bool :=
  jseqb (imageModel r) (js "gemini-2.5-flash-image")
  || jseqb (imageModel r) (js "gemini-3-pro-image-preview").

(** The second generate button is rendered only for a batch model without
    reference images. *)
Definition generateFourRendered (r : Session) : bool :=
  negb (isGeminiImageModel r
        || (0 <? Z.of_nat (List.length (referenceImages r)))).

Definition tagIs (slot : option jsstring) (tag : string) : bool :=
  match slot with Some t => jseqb t (js tag) | None => false end.

(** Whether the control of an operation can be used in a render: the
    [disabled] attribute of its button ([disabled || isLoading] for an
    [ActionButton]).  [None] for an operation whose control is not in these
    components (the image cards and the reference strip) or is an entry of
    the expand menu. *)
Definition controlEnabled (w : World) (op : Op) : option bool :=
  let r := session w in
  let rs := writer w in
  let hasReferenceImage := 0 <? Z.of_nat (List.length (referenceImages r)) in
  match op with
  | SendKey | CopyKey | ClearKey | SaveFile => Some true
  | Generate One => Some (negb (loading r || negb (truthy (trim (prompt r)))))
  | Generate Four =>
      Some (generateFourRendered r
            && negb (loading r || negb (truthy (trim (prompt r)))))
  | CopyPrompt | ClearPrompt => Some (negb (negb (truthy (prompt r))))
  | DescribeRef1 =>
      Some (negb (negb hasReferenceImage
                  || tagIs (promptActionLoading r) "describe-ref-1"))
  | CaptionRef1 =>
      Some (negb (negb hasReferenceImage
                  || tagIs (promptActionLoading r) "caption-ref-1"))
  | RemoveTextRef1 =>
      Some (negb (negb hasReferenceImage
                  || tagIs (promptActionLoading r) "remove-text-ref-1"))
  | EnhancePrompt =>
      Some (negb (negb (truthy (prompt r))
                  || tagIs (promptActionLoading r) "enhance"))
  | Concept =>
      Some (negb (negb (truthy (prompt r))
                  || tagIs (promptActionLoading r) "concept"))
  | Idea => Some (negb (tagIs (loadingAction rs) "idea"))
  | CustomCaption =>
      Some (negb (negb (truthy (story rs)) || tagIs (loadingAction rs) "caption"))
  | ThaiCaption =>
      Some (negb (negb (truthy (story rs))
                  || tagIs (loadingAction rs) "caption-thai"))
  | NewThaiCaption =>
      Some (negb (negb (truthy (story rs))
                  || tagIs (loadingAction rs) "new-caption-thai"))
  | Polish =>
      Some (negb (negb (truthy (story rs)) || tagIs (loadingAction rs) "polish"))
  | Translate Thai =>
      Some (negb (negb (truthy (story rs))
                  || tagIs (loadingAction rs) "translate-thai"))
  | Translate English =>
      Some (negb (negb (truthy (story rs))
                  || tagIs (loadingAction rs) "translate-english"))
  | PostStory | CopyStory | ClearStory => Some (negb (negb (truthy (story rs))))
  | _ => None
  end.

(** A program run from a state with an empty log. *)
Definition exec {A} (m : M A) (env : Env) (w : World) : Res A * St :=
  m env (mkSt w []).

(* ===================================================================== *)
(** ** Specification-side predicates *)

(* ===================================================================== *)

(** [h] is the header of [s]: the text before the first comma, or all of
    [s] when it has no comma. *)
Definition isHeaderOf (h s : jsstring) : Prop :=
  ~ In cu_comma h /\ (s = h \/ exists rest, s = h ++ cu_comma :: rest).

Definition noLineTerminator (g : jsstring) : Prop :=
  Forall (fun c => isLineTerminator c = false) g.

(** The header holds a token: a colon, then text on one line, then a
    semicolon. *)
Definition hasMimeToken (h : jsstring) : Prop :=
  exists a g b, h = a ++ cu_colon :: g ++ cu_semicolon :: b /\ noLineTerminator g.

(** [g] is the type of the leftmost token of [h], cut at its first
    semicolon. *)
Definition mimeTokenOf (h g : jsstring) : Prop :=
  exists a b,
    h = a ++ cu_colon :: g ++ cu_semicolon :: b
    /\ noLineTerminator g /\ ~ In cu_semicolon g
    /\ forall a' g' b',
         h = a' ++ cu_colon :: g' ++ cu_semicolon :: b' ->
         noLineTerminator g' -> (List.length a <= List.length a')%nat.



(** The message the generate handler shows for a credential error. *)
Definition credentialMessage : jsstring :=
  js "Invalid API Key. Please update the key in the field above.".

(** The guard in front of an operation: [true] when the handler goes on. *)
Definition precondition (w : World) (op : Op) : bool :=
  let r := session w in
  let rs := writer w in
  match op with
  | SendKey =>
      truthy (apiKeyInput r) && negb (jseqb (apiKeyInput r) (js "no API key"))
      && negb (jseqb (trim (apiKeyInput r)) [])
  | CopyKey =>
      truthy (apiKeyInput r) && negb (jseqb (apiKeyInput r) (js "no API key"))
  | Generate _ | EnhancePrompt | Concept | CopyPrompt => truthy (trim (prompt r))
  | SetReference _ => Z.of_nat (List.length (referenceImages r)) <? 4
  | UploadReference file => startsWith (js "image/") (file_type file)
  | DescribeRef1 | CaptionRef1 | RemoveTextRef1 | ExpandRef1 _ =>
      negb (isEmpty (referenceImages r))
  | SaveFile => truthy (story rs)
  | CustomCaption | ThaiCaption | NewThaiCaption | Polish | Translate _ =>
      truthy (trim (story rs))
  | _ => true
  end.

(** What a handler does when its guard fails: at most one error message. *)
Definition preconditionFailure (op : Op) : list Event :=
  match op with
  | SendKey => [SetError (Some (js "Please enter a valid API key."))]
  | Generate _ => [SetError (Some (js "Please enter a prompt."))]
  | SetReference _ =>
      [SetError (Some (js "You can only have a maximum of 4 reference images."))]
  | UploadReference _ => [SetError (Some (js "Please upload a valid image file."))]
  | DescribeRef1 => [SetError (Some (js "No reference image available to describe."))]
  | CaptionRef1 => [SetError (Some (js "No reference image available to caption."))]
  | RemoveTextRef1 => [SetError (Some (js "No reference image available to process."))]
  | ExpandRef1 _ => [SetError (Some (js "No reference image available to expand."))]
  | EnhancePrompt => [SetError (Some (js "Prompt is empty, nothing to enhance."))]
  | Concept => [SetError (Some (js "Prompt is empty, cannot generate concept."))]
  | SaveFile => [SetStoryError (Some (js "There is no story to save."))]
  | CustomCaption | ThaiCaption | NewThaiCaption =>
      [SetStoryError (Some (js "Story is empty. Cannot create a caption."))]
  | Polish => [SetStoryError (Some (js "Story is empty. Nothing to polish."))]
  | Translate l =>
      [SetStoryError (Some (js "Story is empty. Nothing to translate to "
                            ++ languageName l ++ js "."))]
  | _ => []
  end.

Definition isErrorMessage (e : Event) : Prop :=
  exists m, e = SetError (Some m) \/ e = SetStoryError (Some m).

(** The operations of [App] whose catch block is the plain one. *)
Definition plainCatch (op : Op) : bool :=
  match op with
  | Describe _ _ | Caption _ _ | RemoveText _ _ | ExpandImage _ _ _
  | DescribeRef1 | CaptionRef1 | RemoveTextRef1 | ExpandRef1 _
  | EnhancePrompt | Concept => true
  | _ => false
  end.

Definition applyAll (l : list Event) (w : World) : World :=
  fold_left (fun acc e => apply e acc) l w.

(** A sequence of operations, each with the behaviour of the collaborators
    during it, run one after the other. *)
Fixpoint runMany (steps : list (Env * Op)) (w : World) : World :=
  match steps with
  | [] => w
  | (env, op) :: rest => runMany rest (finalWorld env w op)
  end.

(** The state of a fresh session: the initial values of the state hooks. *)
Definition initialSession : Session :=
  mkSession [] [] [] (js "16:9") (js "photorealistic")
    (js "gemini-2.5-flash-image") (js "gemini-3-flash-preview") 60
    [] [] false None 0 None None.

Definition initialStory : Story :=
  mkStory [] (js "story.txt") (js "thai") (js "unspecified") None None.

Definition initialWorld : World := mkWorld initialSession initialStory [] None.

(** A sample environment in which every backend call settles the same way. *)
Definition sampleEnv (outcome : Settled Response) : Env :=
  mkEnv (fun _ => outcome) false
    (fun _ => js "A photorealistic image of")
    (fun _ => Some (js "Photorealistic"))
    None BrokerKeySelected None true
    (fun _ => Some (1024, 1024)) true
    (fun _ _ => js "data:image/png;base64,AAAA").

Definition sampleImage : jsstring := js "data:image/jpeg;base64,QUJD".

(** The scenario of the specification: a prompt, the batch model, no
    reference image. *)
Definition foxWorld : World :=
  applyAll [SetPrompt (js "a red fox in snow");
            SetImageModel (js "imagen-4.0-generate-001")] initialWorld.

(** A session with four reference images. *)
Definition fullWorld : World :=
  applyAll [SetReferenceImages [sampleImage; sampleImage; sampleImage; sampleImage]]
    initialWorld.

(** A session with three reference images. *)
Definition threeWorld : World :=
  applyAll [SetReferenceImages [sampleImage; sampleImage; sampleImage]] initialWorld.

(** An image file whose read settles with a data URL. *)
Definition pngFile : File :=
  mkFile (js "image/png") (Resolved (js "data:image/png;base64,AAAA")).

(** A session with ratio 1:1 and one reference image. *)
Definition squareWorld : World :=
  applyAll [SetAspectRatio (js "1:1"); SetReferenceImages [sampleImage]] initialWorld.

Definition helloResponse : Response :=
  mkResponse [] [] (Some (js "Hello world")).

(** The word sawatdi: so suea, wo waen, mai han-akat, so suea, do dek,
    sara i. *)
Definition sawatdi : jsstring := [3626; 3623; 3633; 3626; 3604; 3637]%N.

Definition sawatdiResponse : Response := mkResponse [] [] (Some sawatdi).

(** The Thai block of Unicode, U+0E00 to U+0E7F: the Thai-range characters
    of the specification. *)
Definition inThaiBlock (c : N) : bool := ((3584 <=? c) && (c <=? 3711))%N.

(** The year 2567 in Thai digits: thai digit two, five, six, seven. *)
Definition thaiYear : jsstring := [3666; 3669; 3670; 3671]%N.

Definition thaiYearResponse : Response := mkResponse [] [] (Some thaiYear).

(** The phases of [handleGenerate] after the guard on the prompt: the
    credential bootstrap, then the dispatch with its catch block. *)
Definition credentialBootstrap (r : Session) : M bool :=
  env <- getEnv ;;
  w <- getWorld ;;
  let hasKey :=
    someTruthy (storedKey w)
    || (someTruthy (env_API_KEY env)
        && negb (jseqb (orEmpty (env_API_KEY env)) (js "PLACEHOLDER_API_KEY"))) in
  if negb hasKey && jseqb (imageModel r) (js "gemini-3-pro-image-preview")
  then
    tryCatch
      (nativeKey <- hasSelectedApiKey ;;
       (if negb nativeKey then openSelectKey else ret tt) ;;
       ret true)
      (fun _ =>
         setError (Some (js "API Key is required. Please set it in the field above.")) ;;
         ret false)
  else ret true.

Definition generateCatch (err : Thrown) : M unit :=
  match err with
  | ErrorObject message =>
      if includes (js "Requested entity was not found") message
         || includes (js "API_KEY_INVALID") message
      then
        tryCatch
          (setError (Some (js "Invalid API Key. Please update the key in the field above.")) ;;
           scrollIntoView)
          (fun _ => setError (Some (js "API Error: " ++ message)))
      else setError (Some message)
  | _ => setError (Some (js "An unknown error occurred."))
  end.

Definition generateRequest (r : Session) (count : Z) : M (list jsstring) :=
  if 0 <? Z.of_nat (List.length (referenceImages r))
  then generateFromImageAndText (prompt r) (referenceImages r)
  else generateFromText (prompt r) (effectiveCount r count)
         (aspectRatio r) (style r) (imageModel r).

Definition generateDispatch (r : Session) (count : Z) : M unit :=
  setLoading true ;;
  setError None ;;
  setImages [] ;;
  setLoadingCount (effectiveCount r count) ;;
  tryCatchFinally
    (generatedImages <- generateRequest r count ;;
     setImages generatedImages)
    generateCatch
    (setLoading false ;; setLoadingCount 0).

Definition isBrokerEvent (e : Event) : Prop :=
  e = BrokerHasSelectedApiKey \/ e = BrokerOpenSelectKey.

(** The events the bootstrap phase of generate can log. *)
Definition bootstrapEvent (e : Event) : Prop :=
  isBrokerEvent e
  \/ e = SetError (Some (js "API Key is required. Please set it in the field above.")).

(** The events the dispatch phase of generate can log. *)
Definition dispatchEvent (e : Event) : Prop :=
  match e with
  | SetLoading _ | SetError _ | SetImages _ | SetLoadingCount _
  | BackendCall _ _ | ScrollIntoView => True
  | _ => False
  end.

(** A session holding a story, with the maximum caption length set to [n]. *)
Definition captionWorld (n : Z) : World :=
  applyAll [SetStory (js "Once upon a time"); SetMaxCaptionLength n] initialWorld.

(** The two wordings of the caption prompt, as the specification names
    them: for Thai text and for any other text. *)
Definition thaiWording (caption : jsstring) : jsstring :=
  js "Recreate the image in [ref-1], but add the following Thai text as a caption: "
  ++ [cu_quote] ++ caption ++ [cu_quote]
  ++ js ". The Thai text should be elegantly placed in a suitable position, using a beautiful font with a color that is easily readable against the background. Do not obscure important details like faces or key subjects. The Thai text MUST be clear and readable, using the exact characters provided without translation.".

Definition genericWording (caption : jsstring) : jsstring :=
  js "Recreate the image in [ref-1], but add the following text as a caption: "
  ++ [cu_quote] ++ caption ++ [cu_quote]
  ++ js ". The text should be elegantly placed in a suitable position, using a beautiful font with a color that is easily readable against the background. Do not obscure important details like faces or key subjects. The text MUST be clear and readable, using the exact characters provided without translation.".


(** Whether the generate handler finds a key: the stored one, or the
    configured one unless it is the placeholder. *)
Definition keyAvailable (env : Env) (w : World) : bool :=
  someTruthy (storedKey w)
  || (someTruthy (env_API_KEY env)
      && negb (jseqb (orEmpty (env_API_KEY env)) (js "PLACEHOLDER_API_KEY"))).

(** An environment without a configured key and without a broker. *)
Definition keylessEnv : Env :=
  mkEnv (fun _ => Resolved helloResponse) false
    (fun _ => js "A photorealistic image of")
    (fun _ => Some (js "Photorealistic"))
    None BrokerAbsent None true
    (fun _ => Some (1024, 1024)) true
    (fun _ _ => js "data:image/png;base64,AAAA").

(** A prompt and the preview model that needs a brokered key. *)
Definition previewWorld : World :=
  applyAll [SetPrompt (js "a red fox in snow");
            SetImageModel (js "gemini-3-pro-image-preview")] initialWorld.

(** The inline images of a response, as pairs of media type and payload. *)
Fixpoint inlinePairs (parts : list ResponsePart) : list (jsstring * jsstring) :=
  match parts with
  | [] => []
  | RInline mime payload :: rest => (mime, payload) :: inlinePairs rest
  | ROther :: rest => inlinePairs rest
  end.

(** A media type and a payload that a data URL carries unchanged. *)
Definition cleanPair (p : jsstring * jsstring) : Prop :=
  noLineTerminator (fst p) /\ ~ In cu_semicolon (fst p)
  /\ ~ In cu_comma (fst p) /\ ~ In cu_comma (snd p).

(** The number of occurrences of a code unit in a string. *)
Definition countOf (x : N) (s : jsstring) : nat :=
  List.length (filter (N.eqb x) s).

(** The operations of the story writer. *)
Definition storyOp (op : Op) : bool :=
  match op with
  | SaveFile | ClearStory | CopyStory | PostStory | Idea | CustomCaption
  | ThaiCaption | NewThaiCaption | Polish | Translate _ => true
  | _ => false
  end.

(** The operations that start with clearing the result images. *)
Definition bulkOp (op : Op) : bool :=
  match op with
  | Generate _ | RemoveText _ _ | ExpandImage _ _ _ | RemoveTextRef1
  | ExpandRef1 _ => true
  | _ => false
  end.

(** A string that does not begin with white space. *)
Definition noLeadingWhiteSpace (s : jsstring) : Prop :=
  match s with
  | [] => True
  | c :: _ => isWhiteSpace c = false
  end.


(** The operations that write a text answer of the backend into the
    prompt. *)
Definition textOp (op : Op) : bool :=
  match op with
  | Describe _ _ | DescribeRef1 | EnhancePrompt | Concept => true
  | _ => false
  end.

(** What a text operation makes of the answer: only the enhancement strips
    the quote characters. *)
Definition answerOf (op : Op) (response : Response) : jsstring :=
  match op with
  | EnhancePrompt => stripQuotes (orEmpty (responseText response))
  | _ => orEmpty (responseText response)
  end.

(** A response that carries no image at all. *)
Definition noImage (response : Response) : Prop :=
  generatedImages response = [] /\ inlineImages (candidateParts response) = [].

Definition emptyResponse : Response := mkResponse [] [] None.

(** The text between two positions of a string has been replaced by
    [middle]: what precedes the first position and what follows the second
    are kept. *)
Definition spliced (old new middle : jsstring) (start stop : nat) : Prop :=
  firstn start new = firstn start old
  /\ firstn (List.length middle) (skipn start new) = middle
  /\ skipn (start + List.length middle) new = skipn stop old.

(** An empty file dialog state. *)
Definition initialPad : Pad := mkPad [] (js "story.txt") None false.

(* ===================================================================== *)
(** * Properties *)

(* ===================================================================== *)

(** ** Strings *)

Lemma startsWith_app (p s : jsstring) : startsWith p (p ++ s) = true.
Proof.
  induction p as [|c p IH]; simpl; [reflexivity|].
  rewrite N.eqb_refl. exact IH.
Qed.

Lemma includes_startsWith (needle s : jsstring) :
  startsWith needle s = true -> includes needle s = true.
Proof.
  intros H. destruct s; simpl; rewrite H; reflexivity.
Qed.

Lemma includes_app (needle a b : jsstring) :
  includes needle (a ++ needle ++ b) = true.
Proof.
  induction a as [|c a IH].
  - change ([] ++ needle ++ b) with (needle ++ b).
    apply includes_startsWith, startsWith_app.
  - simpl. rewrite IH. apply orb_true_r.
Qed.

Lemma split_nonempty (sep : N) (s : jsstring) : split sep s <> [].
Proof.
  destruct s as [|c s]; simpl; [discriminate|].
  destruct (c =? sep)%N; [discriminate|].
  destruct (split sep s); discriminate.
Qed.

Lemma split_header (sep : N) (s : jsstring) :
  let h := hd [] (split sep s) in
  ~ In sep h
  /\ ((s = h /\ tl (split sep s) = [])
      \/ exists rest, s = h ++ sep :: rest /\ tl (split sep s) = split sep rest).
Proof.
  induction s as [|c s IH]; simpl.
  - split; [tauto|]. left; split; reflexivity.
  - destruct (N.eqb_spec c sep) as [->|Hne]; simpl.
    + split; [tauto|]. right. exists s. split; reflexivity.
    + destruct (split sep s) as [|p ps] eqn:E.
      * exfalso. exact (split_nonempty sep s E).
      * simpl in *. destruct IH as [Hnot Hshape]. split.
        -- intros [Heq|Hin]; [congruence|tauto].
        -- destruct Hshape as [[Hs Ht]|[rest [Hs Ht]]].
           ++ left. split; [congruence|exact Ht].
           ++ right. exists rest. split; [rewrite Hs; reflexivity|exact Ht].
Qed.

Lemma jseqb_eq (a b : jsstring) : jseqb a b = true -> a = b.
Proof.
  revert b. induction a as [|x a IH]; intros [|y b] H; simpl in H;
    try discriminate; [reflexivity|].
  apply andb_true_iff in H. destruct H as [Hx Hab].
  apply N.eqb_eq in Hx. rewrite Hx, (IH b Hab). reflexivity.
Qed.

Lemma jseqb_refl (a : jsstring) : jseqb a a = true.
Proof.
  induction a as [|x a IH]; simpl; [reflexivity|].
  rewrite N.eqb_refl. exact IH.
Qed.

Lemma removeAt_length {A} (i : nat) (l : list A) :
  (List.length (removeAt i l) <= List.length l)%nat.
Proof.
  revert i. induction l as [|x l IH]; intros [|i]; simpl; try lia.
  specialize (IH i). lia.
Qed.

Example trim_spaces : trim (js "  a b ") = js "a b".
Proof. reflexivity. Qed.

Example trim_blank : truthy (trim [32; 9; 10; 160]%N) = false.
Proof. reflexivity. Qed.

Example split_commas : split cu_comma (js "a,b,,c") = [js "a"; js "b"; []; js "c"].
Proof. reflexivity. Qed.

Example split_empty : split cu_comma [] = [[]].
Proof. reflexivity. Qed.

Example includes_marker :
  includes (js "API_KEY_INVALID") (js "400 API_KEY_INVALID: bad key") = true.
Proof. reflexivity. Qed.

Example numberToString_12 : numberToString 12 = js "12".
Proof. reflexivity. Qed.

Example numberToString_0 : numberToString 0 = js "0".
Proof. reflexivity. Qed.

Example Number_16 : Number (js "16") = Some 16%Q.
Proof. reflexivity. Qed.

Example Number_exponent : Number (js "1e3") = Some 1000%Q.
Proof. reflexivity. Qed.

Example Number_fraction :
  Number (js " 2.35 ") = Some (5291729562160333 # 2251799813685248)%Q.
Proof. reflexivity. Qed.

Example Number_hexadecimal : Number (js "0x10") = Some 16%Q.
Proof. reflexivity. Qed.

Example Number_not_a_number : Number (js "16/9") = None.
Proof. reflexivity. Qed.

Example parseAspectRatio_16_9 : parseAspectRatio (js "16:9") = Some (16, 9)%Q.
Proof. reflexivity. Qed.

Example toLowerCase_Thai : toLowerCase (js "Thai") = js "thai".
Proof. reflexivity. Qed.

(** ** Data URL codec *)

Lemma headerOf_isHeaderOf (s : jsstring) : isHeaderOf (headerOf s) s.
Proof.
  unfold isHeaderOf, headerOf.
  destruct (split_header cu_comma s) as [Hnot [[Hs _]|[rest [Hs _]]]].
  - split; [exact Hnot|left; exact Hs].
  - split; [exact Hnot|right; exists rest; exact Hs].
Qed.

Lemma data_absent_iff (s : jsstring) :
  data (parseDataUrl s) = None <-> ~ In cu_comma s.
Proof.
  unfold parseDataUrl; simpl.
  destruct (split_header cu_comma s) as [Hnot [[Hs Ht]|[rest [Hs Ht]]]].
  - destruct (split cu_comma s) as [|p ps] eqn:E; simpl in *.
    + split; [intros _|reflexivity]. rewrite Hs. exact Hnot.
    + subst ps. simpl. split; [intros _|reflexivity]. rewrite Hs. exact Hnot.
  - destruct (split cu_comma s) as [|p ps] eqn:E; simpl in *.
    + exfalso. exact (split_nonempty _ _ E).
    + subst ps. destruct (split cu_comma rest) as [|q qs] eqn:E'.
      * exfalso. exact (split_nonempty _ _ E').
      * simpl. split; [discriminate|].
        intros Hn. exfalso. apply Hn. rewrite Hs. apply in_or_app. right. left. reflexivity.
Qed.

Lemma lazyUntilSemicolon_sound (s g : jsstring) :
  lazyUntilSemicolon s = Some g ->
  exists b, s = g ++ cu_semicolon :: b /\ noLineTerminator g /\ ~ In cu_semicolon g.
Proof.
  revert g. induction s as [|c s IH]; simpl; intros g H; [discriminate|].
  destruct (N.eqb_spec c cu_semicolon) as [->|Hne].
  - inversion H; subst. exists s. repeat split; [constructor|simpl; tauto].
  - destruct (isLineTerminator c) eqn:Hlt; [discriminate|].
    destruct (lazyUntilSemicolon s) as [g0|] eqn:E; [|discriminate].
    inversion H; subst. destruct (IH g0 eq_refl) as [b [Hs [Hnl Hns]]].
    exists b. repeat split.
    + simpl. rewrite Hs. reflexivity.
    + constructor; assumption.
    + intros [Heq|Hin]; [congruence|tauto].
Qed.

Lemma lazyUntilSemicolon_complete (g b : jsstring) :
  noLineTerminator g ->
  exists g0, lazyUntilSemicolon (g ++ cu_semicolon :: b) = Some g0.
Proof.
  induction 1 as [|c g Hc Hg IH]; simpl.
  - exists []. reflexivity.
  - destruct (c =? cu_semicolon)%N; [exists []; reflexivity|].
    rewrite Hc. destruct IH as [g0 ->]. exists (c :: g0). reflexivity.
Qed.

Lemma matchMimeType_none (h : jsstring) :
  matchMimeType h = None <-> ~ hasMimeToken h.
Proof.
  induction h as [|c h IH]; simpl.
  - split; [|reflexivity]. intros _ [a [g [b [H _]]]].
    destruct a; discriminate.
  - assert (Hshift : hasMimeToken h -> hasMimeToken (c :: h)).
    { intros [a [g [b [H Hg]]]]. exists (c :: a), g, b. split; [simpl; congruence|exact Hg]. }
    destruct (N.eqb_spec c cu_colon) as [->|Hne].
    + destruct (lazyUntilSemicolon h) as [g0|] eqn:E.
      * split; [discriminate|]. intros Hn. exfalso. apply Hn.
        destruct (lazyUntilSemicolon_sound _ _ E) as [b [Hs [Hnl _]]].
        exists [], g0, b. split; [simpl; congruence|exact Hnl].
      * rewrite IH. split.
        -- intros Hn [a [g [b [H Hg]]]]. destruct a as [|x a]; simpl in H.
           ++ inversion H; subst.
              destruct (lazyUntilSemicolon_complete g b Hg) as [g0 Hg0]. congruence.
           ++ inversion H; subst. apply Hn. exists a, g, b. split; [reflexivity|exact Hg].
        -- intros Hn Hh. exact (Hn (Hshift Hh)).
    + rewrite IH. split.
      * intros Hn [a [g [b [H Hg]]]]. destruct a as [|x a]; simpl in H.
        -- inversion H; congruence.
        -- inversion H; subst. apply Hn. exists a, g, b. split; [reflexivity|exact Hg].
      * intros Hn Hh. exact (Hn (Hshift Hh)).
Qed.

Lemma matchMimeType_some (h g : jsstring) :
  matchMimeType h = Some g -> mimeTokenOf h g.
Proof.
  revert g. induction h as [|c h IH]; simpl; intros g H; [discriminate|].
  destruct (N.eqb_spec c cu_colon) as [->|Hne].
  - destruct (lazyUntilSemicolon h) as [g0|] eqn:E.
    + inversion H; subst.
      destruct (lazyUntilSemicolon_sound _ _ E) as [b [Hs [Hnl Hns]]].
      exists [], b. repeat split; [simpl; congruence|exact Hnl|exact Hns|].
      intros; simpl; lia.
    + destruct (IH g H) as [a [b [Hs [Hnl [Hns Hmin]]]]].
      exists (cu_colon :: a), b. repeat split; [simpl; congruence|exact Hnl|exact Hns|].
      intros a' g' b' H' Hg'. destruct a' as [|x a']; simpl in H'.
      * inversion H'; subst.
        destruct (lazyUntilSemicolon_complete g' b' Hg') as [g1 Hg1]. congruence.
      * inversion H'; subst. simpl. apply le_n_S. eapply Hmin; eauto.
  - destruct (IH g H) as [a [b [Hs [Hnl [Hns Hmin]]]]].
    exists (c :: a), b. repeat split; [simpl; congruence|exact Hnl|exact Hns|].
    intros a' g' b' H' Hg'. destruct a' as [|x a']; simpl in H'.
    + inversion H'; congruence.
    + inversion H'; subst. simpl. apply le_n_S. eapply Hmin; eauto.
Qed.

Lemma cut_at_first (x : N) (g g' b b' : jsstring) :
  ~ In x g -> ~ In x g' -> g ++ x :: b = g' ++ x :: b' -> g = g'.
Proof.
  revert g'. induction g as [|c g IH]; intros [|c' g'] Hg Hg' E; simpl in *.
  - reflexivity.
  - inversion E; subst. exfalso. apply Hg'. left. reflexivity.
  - inversion E; subst. exfalso. apply Hg. left. reflexivity.
  - inversion E; subst. f_equal. apply (IH g'); tauto.
Qed.

Lemma prefix_same_length (a a' t t' : jsstring) :
  a ++ t = a' ++ t' -> List.length a = List.length a' -> a = a' /\ t = t'.
Proof.
  revert a'. induction a as [|c a IH]; intros [|c' a'] E Hlen; simpl in *;
    try discriminate.
  - split; [reflexivity|exact E].
  - inversion E; subst. destruct (IH a' H1) as [-> ->]; [lia|]. split; reflexivity.
Qed.

Lemma mimeTokenOf_unique (h g g' : jsstring) :
  mimeTokenOf h g -> mimeTokenOf h g' -> g = g'.
Proof.
  intros [a [b [E [Hnl [Hns Hmin]]]]] [a' [b' [E' [Hnl' [Hns' Hmin']]]]].
  assert (Hlen : List.length a = List.length a').
  { apply Nat.le_antisymm.
    - apply (Hmin a' g' b' E' Hnl').
    - apply (Hmin' a g b E Hnl). }
  rewrite E in E'. destruct (prefix_same_length _ _ _ _ E' Hlen) as [_ Et].
  inversion Et as [Eg]. exact (cut_at_first cu_semicolon g g' b b' Hns Hns' Eg).
Qed.

Lemma not_In_forallb (x : N) (s : jsstring) :
  forallb (fun c => negb (c =? x)%N) s = true -> ~ In x s.
Proof.
  intros H Hin. rewrite forallb_forall in H. specialize (H x Hin).
  rewrite N.eqb_refl in H. discriminate.
Qed.

(** C9, as the code has it: [parseDataUrl] returns for every string.  Its
    header is the text before the first comma, or the whole string when
    there is no comma.  When the header holds a token (a colon, text on one
    line, a semicolon) the media type is the text of the leftmost token up
    to its first semicolon; when the header holds no token the media type
    is image/png.  The payload is absent exactly when the string has no
    comma; a missing comma alone does not bring the default type. *)
Theorem C9_parseDataUrl_lenient (s : jsstring) :
  isHeaderOf (headerOf s) s
  /\ ((exists g, mimeTokenOf (headerOf s) g /\ mimeType (parseDataUrl s) = g)
      \/ (~ hasMimeToken (headerOf s)
          /\ mimeType (parseDataUrl s) = js "image/png"))
  /\ (forall g, mimeTokenOf (headerOf s) g -> mimeType (parseDataUrl s) = g)
  /\ (data (parseDataUrl s) = None <-> ~ In cu_comma s).
Proof.
  split; [apply headerOf_isHeaderOf|].
  assert (Hcases :
            (exists g, mimeTokenOf (headerOf s) g /\ mimeType (parseDataUrl s) = g)
            \/ (~ hasMimeToken (headerOf s)
                /\ mimeType (parseDataUrl s) = js "image/png")).
  { unfold parseDataUrl; simpl. fold (headerOf s).
    destruct (matchMimeType (headerOf s)) as [g|] eqn:E.
    - left. exists g. split; [apply matchMimeType_some; exact E|reflexivity].
    - right. split; [apply matchMimeType_none; exact E|reflexivity]. }
  split; [exact Hcases|]. split; [|apply data_absent_iff].
  intros g Hg. destruct Hcases as [[g0 [Hg0 Hm]]|[Hno _]].
  - rewrite Hm. exact (mimeTokenOf_unique _ _ _ Hg0 Hg).
  - exfalso. apply Hno. destruct Hg as [a [b [E [Hnl _]]]].
    exists a, g, b. split; assumption.
Qed.

(** C9, as stated, fails: a string without a comma is not of the shape
    header-comma-payload, yet its media type is taken from its token and is
    not the default. *)
Lemma C9_missing_comma_keeps_type :
  ~ (forall s : jsstring,
       ~ hasMimeToken (headerOf s) \/ ~ In cu_comma s ->
       mimeType (parseDataUrl s) = js "image/png").
Proof.
  intros H. specialize (H (js "data:image/jpeg;base64")).
  assert (Hc : ~ In cu_comma (js "data:image/jpeg;base64"))
    by (apply not_In_forallb; reflexivity).
  specialize (H (or_intror Hc)). vm_compute in H. discriminate H.
Qed.

Example parseDataUrl_png :
  parseDataUrl (js "data:image/png;base64,iVBORw0KGgo=")
  = mkParsed (js "image/png") (Some (js "iVBORw0KGgo=")).
Proof. reflexivity. Qed.

Example parseDataUrl_jpeg_no_comma :
  parseDataUrl (js "data:image/jpeg;base64") = mkParsed (js "image/jpeg") None.
Proof. reflexivity. Qed.

Example parseDataUrl_no_token :
  parseDataUrl (js "hello,world") = mkParsed (js "image/png") (Some (js "world")).
Proof. reflexivity. Qed.


(** ** More on strings and lists *)

Lemma trimStart_noLeading (s : jsstring) : noLeadingWhiteSpace (trimStart s).
Proof.
  induction s as [|c s IH]; simpl; [exact I|].
  destruct (isWhiteSpace c) eqn:E; [exact IH|exact E].
Qed.

Lemma trimStart_fixed (s : jsstring) : noLeadingWhiteSpace s -> trimStart s = s.
Proof.
  destruct s as [|c s]; simpl; [reflexivity|]. intros ->. reflexivity.
Qed.

Lemma trimStart_snoc (a : jsstring) (c : N) :
  isWhiteSpace c = false -> trimStart (a ++ [c]) = trimStart a ++ [c].
Proof.
  intros Hc. induction a as [|x a IH]; simpl.
  - rewrite Hc. reflexivity.
  - destruct (isWhiteSpace x); [exact IH|reflexivity].
Qed.

Lemma trimEnd_noLeading (s : jsstring) :
  noLeadingWhiteSpace s -> noLeadingWhiteSpace (trimEnd s).
Proof.
  destruct s as [|c s]; intros H; [exact I|].
  unfold trimEnd. simpl rev. simpl in H.
  rewrite (trimStart_snoc (rev s) c H), rev_app_distr. simpl. exact H.
Qed.

Lemma trimEnd_idempotent (s : jsstring) : trimEnd (trimEnd s) = trimEnd s.
Proof.
  unfold trimEnd. rewrite rev_involutive.
  rewrite (trimStart_fixed _ (trimStart_noLeading (rev s))). reflexivity.
Qed.

Lemma trim_idempotent (s : jsstring) : trim (trim s) = trim s.
Proof.
  unfold trim.
  rewrite (trimStart_fixed (trimEnd (trimStart s))).
  - apply trimEnd_idempotent.
  - apply trimEnd_noLeading, trimStart_noLeading.
Qed.

Lemma trim_noLeading (s : jsstring) : noLeadingWhiteSpace (trim s).
Proof. apply trimEnd_noLeading, trimStart_noLeading. Qed.

Lemma trim_noTrailing (s : jsstring) : noLeadingWhiteSpace (rev (trim s)).
Proof.
  unfold trim, trimEnd. rewrite rev_involutive. apply trimStart_noLeading.
Qed.

Lemma endsWith_app (p s : jsstring) : endsWith p (s ++ p) = true.
Proof.
  unfold endsWith. rewrite rev_app_distr. apply startsWith_app.
Qed.

Lemma stripQuotes_clean (s : jsstring) :
  ~ In cu_quote (stripQuotes s) /\ ~ In cu_apostrophe (stripQuotes s).
Proof.
  unfold stripQuotes. split; intros H; apply filter_In in H; destruct H as [_ H].
  - rewrite N.eqb_refl in H. discriminate H.
  - rewrite N.eqb_refl, orb_true_r in H. discriminate H.
Qed.

Lemma removeAt_firstn_skipn {A} (i : nat) (l : list A) :
  removeAt i l = firstn i l ++ skipn (S i) l.
Proof.
  revert i. induction l as [|x l IH]; intros [|i]; simpl; try reflexivity.
  rewrite IH. reflexivity.
Qed.

Lemma removeAt_out_of_range {A} (i : nat) (l : list A) :
  (List.length l <= i)%nat -> removeAt i l = l.
Proof.
  revert i. induction l as [|x l IH]; intros [|i] H; simpl in *;
    try reflexivity; try lia.
  rewrite IH by lia. reflexivity.
Qed.

Lemma removeAt_snoc {A} (l : list A) (x : A) :
  removeAt (List.length l) (l ++ [x]) = l.
Proof.
  induction l as [|y l IH]; simpl; [reflexivity|]. rewrite IH. reflexivity.
Qed.

(** ** More on the data URL codec *)

Lemma split_no_separator (sep : N) (s : jsstring) :
  ~ In sep s -> split sep s = [s].
Proof.
  induction s as [|c s IH]; simpl; intros H; [reflexivity|].
  destruct (N.eqb_spec c sep) as [->|Hne]; [exfalso; apply H; left; reflexivity|].
  rewrite IH by tauto. reflexivity.
Qed.

Lemma split_at_separator (sep : N) (a b : jsstring) :
  ~ In sep a -> split sep (a ++ sep :: b) = a :: split sep b.
Proof.
  induction a as [|c a IH]; simpl; intros H.
  - rewrite N.eqb_refl. reflexivity.
  - destruct (N.eqb_spec c sep) as [->|Hne]; [exfalso; apply H; left; reflexivity|].
    rewrite IH by tauto. reflexivity.
Qed.

Lemma lazyUntilSemicolon_exact (g b : jsstring) :
  noLineTerminator g -> ~ In cu_semicolon g ->
  lazyUntilSemicolon (g ++ cu_semicolon :: b) = Some g.
Proof.
  induction 1 as [|c g Hc Hg IH]; simpl; intros Hns.
  - reflexivity.
  - destruct (N.eqb_spec c cu_semicolon) as [->|Hne];
      [exfalso; apply Hns; left; reflexivity|].
    rewrite Hc, IH by tauto. reflexivity.
Qed.

Lemma matchMimeType_first_colon (a rest g : jsstring) :
  ~ In cu_colon a -> lazyUntilSemicolon rest = Some g ->
  matchMimeType (a ++ cu_colon :: rest) = Some g.
Proof.
  intros Ha Hg. induction a as [|c a IH]; simpl.
  - rewrite ?N.eqb_refl, Hg. reflexivity.
  - destruct (N.eqb_spec c cu_colon) as [->|Hne];
      [exfalso; apply Ha; left; reflexivity|].
    apply IH. intros Hin. apply Ha. right. exact Hin.
Qed.

Lemma parseDataUrl_of_data_url (mime payload : jsstring) :
  noLineTerminator mime -> ~ In cu_semicolon mime -> ~ In cu_comma mime ->
  ~ In cu_comma payload ->
  parseDataUrl (js "data:" ++ mime ++ js ";base64," ++ payload)
  = mkParsed mime (Some payload).
Proof.
  intros Hnl Hns Hnc Hpc. unfold parseDataUrl.
  replace (js "data:" ++ mime ++ js ";base64," ++ payload)
    with ((js "data:" ++ mime ++ js ";base64") ++ cu_comma :: payload)
    by (rewrite <- !app_assoc; reflexivity).
  rewrite split_at_separator.
  - rewrite (split_no_separator cu_comma payload Hpc). simpl hd. simpl nth_error.
    change (matchMimeType (100 :: 97 :: 116 :: 97 :: 58 :: mime ++ js ";base64")%N)
      with (matchMimeType
              (js "data" ++ cu_colon :: (mime ++ cu_semicolon :: js "base64"))).
    rewrite (matchMimeType_first_colon (js "data") _ mime).
    + reflexivity.
    + apply not_In_forallb. reflexivity.
    + apply lazyUntilSemicolon_exact; assumption.
  - intros Hin. apply in_app_or in Hin. destruct Hin as [Hin|Hin].
    + revert Hin. apply not_In_forallb. reflexivity.
    + apply in_app_or in Hin. destruct Hin as [Hin|Hin]; [contradiction|].
      revert Hin. apply not_In_forallb. reflexivity.
Qed.

(** ** JavaScript numbers *)





Lemma pow2_Z (a : Z) : 0 <= a -> (2 ^ a == inject_Z (2 ^ a))%Q.
Proof. intros H. rewrite Zpower_Qpower by exact H. reflexivity. Qed.











Lemma pow2_neg_Z (j : Z) : 0 <= j -> (2 ^ (- j) == / inject_Z (2 ^ j))%Q.
Proof. intros H. rewrite Qpower_opp, pow2_Z by exact H. reflexivity. Qed.


Lemma roundToDouble_zero : roundToDouble 0 = Some 0%Q.
Proof. reflexivity. Qed.




(** *** Decimal digits *)















(** ** Image compositor *)



Lemma Qgtb_false (a b : Q) : Qgtb a b = false <-> (a <= b)%Q.
Proof.
  unfold Qgtb. rewrite negb_false_iff. apply Qle_bool_iff.
Qed.

Lemma half_nonneg (a b : Z) :
  b <= a -> (0 <= (inject_Z a - inject_Z b) / 2)%Q.
Proof.
  intros H. apply Qle_shift_div_l; [reflexivity|].
  rewrite Qmult_0_l. unfold Qminus. rewrite <- inject_Z_opp, <- inject_Z_plus.
  unfold Qle; simpl; lia.
Qed.

Lemma half_twice (a b : Z) :
  ((inject_Z a - inject_Z b) / 2 + inject_Z b + (inject_Z a - inject_Z b) / 2
   == inject_Z a)%Q.
Proof. field. Qed.

Lemma half_fits (a b : Z) :
  b <= a -> ((inject_Z a - inject_Z b) / 2 + inject_Z b <= inject_Z a)%Q.
Proof.
  intros H. rewrite <- (half_twice a b) at 2.
  rewrite <- (Qplus_0_r ((inject_Z a - inject_Z b) / 2 + inject_Z b)) at 1.
  apply Qplus_le_r. apply half_nonneg. exact H.
Qed.



















Example expandGeometry_landscape :
  expandGeometry 1024 1024 (js "16:9") = Some (mkComposite 1820 1024 398 0).
Proof. vm_compute. reflexivity. Qed.

Example expandGeometry_portrait :
  expandGeometry 1920 1080 (js "9:16") = Some (mkComposite 1920 3413 0 (2333 # 2)).
Proof. vm_compute. reflexivity. Qed.

(** A ratio with a fraction is read as a number too. *)
Example expandGeometry_fraction :
  expandGeometry 1024 1024 (js "2.35:1") = Some (mkComposite 2406 1024 691 0).
Proof. vm_compute. reflexivity. Qed.

(** The double product 45 * 0.7 lies below 31.5. *)
Example expandGeometry_tie :
  expandGeometry 10 45 (js "7:10") = Some (mkComposite 31 45 (21 # 2) 0).
Proof. vm_compute. reflexivity. Qed.

(** A ratio whose height is zero, or with no colon, gives no composite the
    canvas keeps as computed. *)
Example expandGeometry_degenerate :
  expandGeometry 1024 1024 (js "1:0") = None
  /\ expandGeometry 1024 1024 (js "16") = None.
Proof. vm_compute. split; reflexivity. Qed.




(** ** Runs of the handlers *)

Arguments js : simpl never.
Arguments numberToString : simpl never.
Arguments trim : simpl never.
Arguments includes : simpl never.
Arguments jseqb : simpl never.
Arguments parseDataUrl : simpl never.
Arguments expandGeometry : simpl never.
Arguments captionPrompt : simpl never.
Arguments stripQuotes : simpl never.
Arguments startsWith : simpl never.
Arguments endsWith : simpl never.
Arguments toLowerCase : simpl never.
Arguments effectiveCount : simpl never.
Arguments Z.of_nat : simpl never.
Arguments Z.ltb : simpl never.

Ltac unfold_run :=
  unfold events, finalWorld, run, handler.

Ltac unfold_handlers :=
  unfold handleSendKey, handleCopyKey, handleClearKey, handleGenerate,
    handleUploadReference, handleSetReference, handleRemoveReference,
    handleDescribe, handleCaption, handleRemoveText, handleExpandImage,
    handleCopyPrompt, handleClearPrompt, handleDescribeRef1, handleCaptionRef1,
    handleRemoveTextRef1, handleExpandRef1, handleEnhancePrompt, handleConcept,
    handleSaveFile, handleClear, handleCopy, handlePost, handleIdea,
    handleCustomCaption, handleThaiCaption, handleNewThaiCaption, handlePolish,
    handleTranslate, handlePostStoryToPrompt.

Ltac unfold_monad :=
  unfold tryCatchFinally, tryFinally, tryCatch, promiseAll2, reportError,
    reportStoryError, messageOf, withExtraArgument,
    generateFromText, generateFromImageAndText, describeImage, suggestCaption,
    enhancePrompt, generateConcept, expandImage, generateNextSentence,
    generateStoryCaption, polishStory, translateStory, generateDesignFromStory,
    hasSelectedApiKey, openSelectKey, updateActiveApiKey, scrollIntoView,
    callBackend, updateReferenceImages, updateStory,
    setPrompt, setAspectRatio, setImages, setLoading, setError, setLoadingCount,
    setProcessingAction, setPromptActionLoading, setStatusMessage,
    setApiKeyInput, setLoadingAction, setStoryError, setReferenceImages,
    bind, ret, throw, emit, getWorld, getEnv.

(** Split on whatever a run branches on. *)
Ltac split_step :=
  match goal with
  | |- context [match backend ?e ?c with _ => _ end] =>
      destruct (backend e c) as [?r|?t] eqn:?
  | |- context [match loadImage ?e ?i with _ => _ end] =>
      destruct (loadImage e i) as [[? ?]|] eqn:?
  | |- context [match scrollFailure ?e with _ => _ end] =>
      destruct (scrollFailure e) eqn:?
  | |- context [match broker ?e with _ => _ end] =>
      destruct (broker e) as [| |[|]] eqn:?
  | |- context [match file_read ?f with _ => _ end] =>
      destruct (file_read f) eqn:?
  | |- context [match IMAGE_STYLES_name ?e ?s with _ => _ end] =>
      destruct (IMAGE_STYLES_name e s) eqn:?
  | |- context [match ?t with ErrorObject _ => _ | NonError _ => _ | Nullish => _ end] =>
      destruct t
  | |- context [if ?b then _ else _] => destruct b eqn:?
  end.

Ltac split_run := repeat (simpl; split_step).

Ltac run_cases := unfold_run; unfold_handlers; unfold_monad; split_run; simpl.


(** ** The phases of generate *)

Lemma handleGenerate_phases (r : Session) (count : Z) (env : Env) (st : St) :
  handleGenerate r count env st =
  if negb (truthy (trim (prompt r))) then
    setError (Some (js "Please enter a prompt.")) env st
  else
    match credentialBootstrap r env st with
    | (Val true, st1) => generateDispatch r count env st1
    | (Val false, st1) => (Val tt, st1)
    | (Exc t, st1) => (Exc t, st1)
    end.
Proof.
  unfold handleGenerate. destruct (negb (truthy (trim (prompt r)))); [reflexivity|].
  unfold credentialBootstrap, bind, getEnv, getWorld.
  destruct (negb _ && _).
  - match goal with |- context [tryCatch ?b ?h env st] => destruct (tryCatch b h env st) as [[[|]|] ?] end; reflexivity.
  - reflexivity.
Qed.

Lemma credentialBootstrap_run (r : Session) (env : Env) (st : St) :
  exists (b : bool) (l : list Event),
    Forall bootstrapEvent l
    /\ credentialBootstrap r env st =
       (Val b,
        mkSt (if b then world st
              else apply (SetError (Some (js "API Key is required. Please set it in the field above."))) (world st))
             (log st ++ l)).
Proof.
  destruct st as [w l0].
  unfold credentialBootstrap. unfold_monad. split_run; simpl.
  all: rewrite <- ?app_assoc; simpl.
  all: try (exists true, []; split; [apply Forall_nil|rewrite app_nil_r; reflexivity]).
  all: match goal with |- exists b l, _ /\ (Val ?v, _) = _ => exists v end.
  all: eexists; split; cycle 1.
  all: try reflexivity.
  all: solve [repeat (apply Forall_cons; [unfold bootstrapEvent, isBrokerEvent; auto|]);
              apply Forall_nil].
Qed.

Lemma generate_run_cases (env : Env) (w : World) (count : Count) :
  let r := session w in
  let blank := SetError (Some (js "Please enter a prompt.")) in
  let noKey := SetError (Some (js "API Key is required. Please set it in the field above.")) in
  (truthy (trim (prompt r)) = false
   /\ run env w (Generate count) = (Val tt, mkSt (apply blank w) [blank]))
  \/ (truthy (trim (prompt r)) = true
      /\ exists l, Forall bootstrapEvent l
         /\ run env w (Generate count) = (Val tt, mkSt (apply noKey w) l))
  \/ (truthy (trim (prompt r)) = true
      /\ exists l, Forall bootstrapEvent l
         /\ run env w (Generate count)
            = generateDispatch r (countValue count) env (mkSt w l)).
Proof.
  intros r blank noKey. unfold run, handler. rewrite handleGenerate_phases.
  fold r. destruct (truthy (trim (prompt r))) eqn:E; simpl negb; cbv iota.
  - right.
    destruct (credentialBootstrap_run r env (mkSt w [])) as [b [l [Hl Hrun]]].
    rewrite Hrun. simpl. destruct b.
    + right. split; [reflexivity|]. exists l. split; [exact Hl|reflexivity].
    + left. split; [reflexivity|]. exists l. split; [exact Hl|reflexivity].
  - left. split; reflexivity.
Qed.

Ltac unfold_dispatch :=
  unfold generateDispatch, generateRequest, generateCatch; unfold_monad.

Ltac normalise_log := rewrite <- ?app_assoc; simpl.

Lemma backendCalls_app (a b : list Event) :
  backendCalls (a ++ b) = backendCalls a ++ backendCalls b.
Proof.
  induction a as [|e a IH]; simpl; [reflexivity|].
  destruct e; simpl; rewrite ?IH; reflexivity.
Qed.

Lemma backendCalls_bootstrap (l : list Event) :
  Forall bootstrapEvent l -> backendCalls l = [].
Proof.
  induction 1 as [|e l He _ IH]; simpl; [reflexivity|].
  destruct He as [[->| ->]| ->]; simpl; exact IH.
Qed.

Lemma generateDispatch_world (r : Session) (c : Z) (env : Env) (w : World) (l : list Event) :
  let w' := world (snd (generateDispatch r c env (mkSt w l))) in
  loading (session w') = false
  /\ loadingCount (session w') = 0
  /\ referenceImages (session w') = referenceImages (session w)
  /\ processingAction (session w') = processingAction (session w)
  /\ promptActionLoading (session w') = promptActionLoading (session w)
  /\ aspectRatio (session w') = aspectRatio (session w)
  /\ writer w' = writer w.
Proof.
  unfold_dispatch. split_run; simpl; repeat split; reflexivity.
Qed.

Lemma generateDispatch_log (r : Session) (c : Z) (env : Env) (w : World) (l : list Event) :
  exists l', log (snd (generateDispatch r c env (mkSt w l))) = l ++ l'
    /\ Forall dispatchEvent l'
    /\ In (SetLoading true) l'
    /\ forall call n,
         In call (backendCalls l') -> requestedImages call = Some n ->
         n = c /\ referenceImages r = []
         /\ imageModel r = js "imagen-4.0-generate-001".
Proof.
  unfold_dispatch. split_run; simpl; normalise_log.
  all: eexists; split; [reflexivity|].
  all: split; [repeat (apply Forall_cons; [exact I|]); apply Forall_nil|].
  all: split; [simpl; auto|].
  all: simpl; intros call n Hin Hn.
  all: repeat (destruct Hin as [<-|Hin]; [|]); try contradiction; try discriminate Hn.
  all: simpl in Hn; inversion Hn; subst n.
  all: match goal with H : jseqb (imageModel _) _ = true |- _ => apply jseqb_eq in H end.
  all: match goal with H : (0 <? Z.of_nat (List.length ?x)) = false |- _ =>
         apply Z.ltb_ge in H; destruct x eqn:?; [|simpl in H; lia] end.
  all: unfold effectiveCount.
  all: match goal with H : imageModel _ = _ |- _ => rewrite H end.
  all: match goal with H : referenceImages _ = _ |- _ => rewrite H end.
  all: repeat split; reflexivity.
Qed.


(** ** In-flight markers *)

Ltac absurd_log :=
  intros; exfalso;
  repeat match goal with
         | H : In _ (_ ++ _) |- _ => apply in_app_or in H; destruct H
         | H : In _ (_ :: _) |- _ => destruct H
         | H : In _ [] |- _ => destruct H
         | H : _ \/ _ |- _ => destruct H
         | H : False |- _ => destruct H
         end;
  discriminate.

Lemma bootstrap_not_marker (l : list Event) (e : Event) :
  Forall bootstrapEvent l -> In e l ->
  (forall tag, e <> SetProcessingAction (Some tag))
  /\ (forall tag, e <> SetPromptActionLoading (Some tag))
  /\ (forall tag, e <> SetLoadingAction (Some tag))
  /\ e <> SetLoading true
  /\ (forall v, e <> SetReferenceImages v).
Proof.
  intros Hl Hin. rewrite Forall_forall in Hl.
  destruct (Hl e Hin) as [[->| ->]| ->]; repeat split; intros; discriminate.
Qed.

Lemma dispatch_not_marker (l : list Event) (e : Event) :
  Forall dispatchEvent l -> In e l ->
  (forall tag, e <> SetProcessingAction (Some tag))
  /\ (forall tag, e <> SetPromptActionLoading (Some tag))
  /\ (forall tag, e <> SetLoadingAction (Some tag)).
Proof.
  intros Hl Hin. rewrite Forall_forall in Hl. specialize (Hl e Hin).
  destruct e; simpl in Hl; try contradiction; repeat split; intros; discriminate.
Qed.

Ltac not_marker Hl Hl' :=
  intros; exfalso;
  repeat match goal with
         | H : In _ (_ ++ _) |- _ => apply in_app_or in H; destruct H
         end;
  match goal with
  | H : In ?e ?l |- _ =>
      first
        [ let H1 := fresh in let H2 := fresh in let H3 := fresh in
          let H4 := fresh in
          destruct (bootstrap_not_marker l e Hl H) as [H1 [H2 [H3 [H4 _]]]];
          first [eapply H1; reflexivity|eapply H2; reflexivity
                |eapply H3; reflexivity|apply H4; reflexivity]
        | let H1 := fresh in let H2 := fresh in let H3 := fresh in
          destruct (dispatch_not_marker l e Hl' H) as [H1 [H2 H3]];
          first [eapply H1; reflexivity|eapply H2; reflexivity
                |eapply H3; reflexivity] ]
  end.

Lemma generate_markers_cleared (env : Env) (w : World) (count : Count) :
  let op := Generate count in
  (forall tag, In (SetProcessingAction (Some tag)) (events env w op) ->
     processingAction (session (finalWorld env w op)) = None)
  /\ (forall tag, In (SetPromptActionLoading (Some tag)) (events env w op) ->
     promptActionLoading (session (finalWorld env w op)) = None)
  /\ (forall tag, In (SetLoadingAction (Some tag)) (events env w op) ->
     loadingAction (writer (finalWorld env w op)) = None)
  /\ (In (SetLoading true) (events env w op) ->
     loading (session (finalWorld env w op)) = false
     /\ loadingCount (session (finalWorld env w op)) = 0).
Proof.
  intros op. unfold events, finalWorld, op.
  destruct (generate_run_cases env w count) as [[_ ->]|[[_ [l [Hl ->]]]|[_ [l [Hl ->]]]]].
  - simpl. repeat split; absurd_log.
  - simpl. repeat split; not_marker Hl Hl.
  - destruct (generateDispatch_log (session w) (countValue count) env w l)
      as [l' [Hlog [Hl' _]]].
    destruct (generateDispatch_world (session w) (countValue count) env w l)
      as [Hload [Hcount _]].
    rewrite Hlog.
    split; [|split; [|split]]; [not_marker Hl Hl'..|].
    intros _. split; assumption.
Qed.

(** C7: whenever a run puts a tag into one of the in-flight slots (the
    per-image slot, the prompt-action slot or the slot of the story writer)
    or raises the bulk loading flag, that slot is empty, and the flag is
    down with a count of zero, in the state the run ends in.  This holds
    for every operation and every behaviour of the collaborators: when the
    call resolves, when it is rejected, and when the catch block itself
    throws. *)
Theorem C7_in_flight_cleared_on_settlement (env : Env) (w : World) (op : Op) :
  (forall tag, In (SetProcessingAction (Some tag)) (events env w op) ->
     processingAction (session (finalWorld env w op)) = None)
  /\ (forall tag, In (SetPromptActionLoading (Some tag)) (events env w op) ->
     promptActionLoading (session (finalWorld env w op)) = None)
  /\ (forall tag, In (SetLoadingAction (Some tag)) (events env w op) ->
     loadingAction (writer (finalWorld env w op)) = None)
  /\ (In (SetLoading true) (events env w op) ->
     loading (session (finalWorld env w op)) = false
     /\ loadingCount (session (finalWorld env w op)) = 0).
Proof.
  destruct op; try apply generate_markers_cleared.
  all: unfold events, finalWorld;
    match goal with |- context [run ?e ?w0 ?o] =>
      remember (run e w0 o) as R eqn:E; revert E end;
    unfold run, handler; unfold_handlers; unfold_monad; split_run; simpl;
    intros ->; simpl; normalise_log;
    (split; [|split; [|split]]);
    first [ intros; reflexivity
          | intros; split; reflexivity
          | absurd_log ].
Qed.

Lemma C7_in_flight_cleared_on_settlement_witness :
  let env := sampleEnv (Rejected Nullish) in
  let op := Describe sampleImage 0%N in
  In (SetProcessingAction (Some (js "describe-0"))) (events env squareWorld op)
  /\ fst (run env squareWorld op) = Exc messageOfNullish
  /\ processingAction (session (finalWorld env squareWorld op)) = None.
Proof.
  intros env op.
  assert (Hin : In (SetProcessingAction (Some (js "describe-0")))
                  (events env squareWorld op))
    by (vm_compute; left; reflexivity).
  split; [exact Hin|]. split; [reflexivity|].
  exact (proj1 (C7_in_flight_cleared_on_settlement env squareWorld op) _ Hin).
Defined.

(** ** The reference list *)

Lemma generate_keeps_references (env : Env) (w : World) (count : Count) :
  referenceImages (session (finalWorld env w (Generate count)))
  = referenceImages (session w).
Proof.
  unfold finalWorld.
  destruct (generate_run_cases env w count) as [[_ ->]|[[_ [l [Hl ->]]]|[_ [l [Hl ->]]]]].
  - reflexivity.
  - reflexivity.
  - destruct (generateDispatch_world (session w) (countValue count) env w l)
      as [_ [_ [Hrefs _]]]. exact Hrefs.
Qed.

Lemma reference_step (env : Env) (w : World) (op : Op) :
  (List.length (referenceImages (session w)) <= 4)%nat ->
  (List.length (referenceImages (session (finalWorld env w op))) <= 4)%nat.
Proof.
  intros Hle.
  destruct op; try (rewrite generate_keeps_references; exact Hle).
  all: run_cases;
    repeat match goal with
           | H : (Z.of_nat _ <? 4) = true |- _ => apply Z.ltb_lt in H
           end;
    rewrite ?length_app; simpl;
    try (pose proof (removeAt_length indexToRemove (referenceImages (session w))));
    lia.
Qed.

(** C5: the guard of handleSetReference reads the length of the list of
    the render that created the handler, while the updater appends to the
    list of the current state.  So a handler created with fewer than four
    images appends whatever the list holds by the time it runs: two uploads
    started from the render with three images, the second read settling
    after the first, end with five reference images and no error message.
    Only when every handler runs from the render of the current state does
    an operation started with at most four images end with at most four,
    and is an add with four images attached refused with the capacity
    message. *)
Theorem C5_stale_guard_exceeds_four :
  (forall env render current imageSrc,
     (List.length (referenceImages (session render)) < 4)%nat ->
     referenceImages
       (session (world (snd (runFromRender env render current (SetReference imageSrc)))))
     = referenceImages (session current) ++ [imageSrc]
     /\ log (snd (runFromRender env render current (SetReference imageSrc)))
        = [SetReferenceImages (referenceImages (session current) ++ [imageSrc])])
  /\ (let env := sampleEnv (Resolved helloResponse) in
      let first := snd (runFromRender env threeWorld threeWorld (UploadReference pngFile)) in
      let second := snd (runFromRender env threeWorld (world first)
                           (UploadReference pngFile)) in
      List.length (referenceImages (session threeWorld)) = 3%nat
      /\ List.length (referenceImages (session (world first))) = 4%nat
      /\ List.length (referenceImages (session (world second))) = 5%nat
      /\ error (session (world second)) = None
      /\ log second
         = [ReadFile pngFile;
            SetReferenceImages
              [sampleImage; sampleImage; sampleImage;
               js "data:image/png;base64,AAAA"; js "data:image/png;base64,AAAA"]])
  /\ (forall env w op,
        (List.length (referenceImages (session w)) <= 4)%nat ->
        (List.length (referenceImages (session (finalWorld env w op))) <= 4)%nat)
  /\ (forall env w imageSrc,
        List.length (referenceImages (session w)) = 4%nat ->
        referenceImages (session (finalWorld env w (SetReference imageSrc)))
        = referenceImages (session w)
        /\ events env w (SetReference imageSrc)
           = [SetError (Some (js "You can only have a maximum of 4 reference images."))]).
Proof.
  split; [|split; [|split]].
  - intros env render current imageSrc Hlt.
    unfold runFromRender, handler, handleSetReference.
    assert (Hguard : (Z.of_nat (List.length (referenceImages (session render))) <? 4)
                     = true) by (apply Z.ltb_lt; lia).
    rewrite Hguard. unfold_monad. simpl. split; reflexivity.
  - vm_compute. repeat split; reflexivity.
  - exact reference_step.
  - intros env w imageSrc H4. run_cases.
    + apply Z.ltb_lt in Heqb. lia.
    + split; reflexivity.
Qed.

(** ** Failed guards and the expand handlers *)

Ltac case_guard H :=
  repeat match type of H with
         | context [truthy ?x] => destruct (truthy x) eqn:?
         | context [jseqb ?a ?b] => destruct (jseqb a b) eqn:?
         | context [isEmpty ?x] => destruct (isEmpty x) eqn:?
         | context [Z.ltb ?a ?b] => destruct (Z.ltb a b) eqn:?
         | context [startsWith ?a ?b] => destruct (startsWith a b) eqn:?
         end;
  simpl in H; try discriminate H.

(** C6: when the guard of an operation fails, the run consists of at most
    one event, the error message of that guard (nothing at all for the two
    copy actions); hence no backend call is made, no in-flight tag is set,
    the loading flag is untouched, and the state differs from the initial
    one by that message only. *)
Theorem C6_failed_precondition_only_reports (env : Env) (w : World) (op : Op) :
  precondition w op = false ->
  run env w op = (Val tt, mkSt (applyAll (preconditionFailure op) w)
                               (preconditionFailure op))
  /\ Forall isErrorMessage (preconditionFailure op)
  /\ backendCalls (events env w op) = []
  /\ inFlightTags (finalWorld env w op) = inFlightTags w
  /\ loading (session (finalWorld env w op)) = loading (session w)
  /\ referenceImages (session (finalWorld env w op)) = referenceImages (session w)
  /\ prompt (session (finalWorld env w op)) = prompt (session w).
Proof.
  intros H.
  assert (Hrun : run env w op
                 = (Val tt, mkSt (applyAll (preconditionFailure op) w)
                                 (preconditionFailure op))).
  { destruct op; simpl in H; try discriminate H;
      unfold run, handler; unfold_handlers; case_guard H; reflexivity. }
  unfold events, finalWorld. rewrite Hrun. simpl.
  split; [reflexivity|].
  split.
  { destruct op; simpl; repeat constructor;
      eexists; first [left; reflexivity|right; reflexivity]. }
  destruct op; simpl in H; try discriminate H; repeat split; reflexivity.
Qed.

Lemma C6_failed_precondition_only_reports_witness :
  run (sampleEnv (Resolved helloResponse)) initialWorld EnhancePrompt
  = (Val tt,
     mkSt (apply (SetError (Some (js "Prompt is empty, nothing to enhance."))) initialWorld)
          [SetError (Some (js "Prompt is empty, nothing to enhance."))]).
Proof.
  exact (proj1 (C6_failed_precondition_only_reports
                  (sampleEnv (Resolved helloResponse)) initialWorld EnhancePrompt
                  eq_refl)).
Defined.

(** C10: when an expand operation has run (always for the per-image
    handler, and with a reference image attached for the ref-1 handler),
    the aspect ratio of the session is 16:9 in the end, whatever it was
    before, whatever ratio was asked for, and however the call settled. *)
Theorem C10_expand_leaves_16_9 (env : Env) (w : World)
    (imageSrc : jsstring) (index : N) (targetAspectRatio : jsstring) :
  aspectRatio (session (finalWorld env w (ExpandImage imageSrc index targetAspectRatio)))
  = js "16:9"
  /\ (referenceImages (session w) <> [] ->
      aspectRatio (session (finalWorld env w (ExpandRef1 targetAspectRatio)))
      = js "16:9").
Proof.
  split.
  - run_cases; reflexivity.
  - intros Hne. run_cases; try reflexivity.
    destruct (referenceImages (session w)); [contradiction|discriminate].
Qed.

Lemma C10_expand_leaves_16_9_witness :
  aspectRatio (session squareWorld) = js "1:1"
  /\ aspectRatio (session (finalWorld (sampleEnv (Rejected Nullish)) squareWorld
                             (ExpandRef1 (js "4:3"))))
     = js "16:9".
Proof.
  split; [reflexivity|].
  apply (C10_expand_leaves_16_9 (sampleEnv (Rejected Nullish)) squareWorld
           sampleImage 0%N (js "4:3")).
  discriminate.
Defined.
(** ** The count of a generation *)

Lemma effectiveCount_one (r : Session) (count : Z) :
  referenceImages r <> []
  \/ imageModel r = js "gemini-2.5-flash-image"
  \/ imageModel r = js "gemini-3-pro-image-preview" ->
  effectiveCount r count = 1.
Proof.
  unfold effectiveCount. intros [H|[H|H]].
  - destruct (referenceImages r); [contradiction|reflexivity].
  - rewrite H. rewrite jseqb_refl. rewrite orb_true_r. reflexivity.
  - rewrite H. rewrite jseqb_refl. rewrite !orb_true_r. reflexivity.
Qed.

Lemma generate_batch_call (env : Env) (w : World) (l : list Event) (count : Z) :
  referenceImages (session w) = [] ->
  imageModel (session w) = js "imagen-4.0-generate-001" ->
  backendCalls (log (snd (generateDispatch (session w) count env (mkSt w l))))
  = backendCalls l
    ++ [GenerateImages (js "imagen-4.0-generate-001")
          (STYLE_PROMPT_PREFIXES env (style (session w)) ++ js " " ++ prompt (session w))
          count (aspectRatio (session w)) (js "image/png")].
Proof.
  intros Hrefs Hmodel.
  assert (Hec : effectiveCount (session w) count = count).
  { unfold effectiveCount. rewrite Hrefs, Hmodel. reflexivity. }
  unfold_dispatch. rewrite Hrefs, Hmodel, Hec.
  change (0 <? Z.of_nat (List.length (@nil jsstring))) with false.
  change (jseqb (js "imagen-4.0-generate-001") (js "imagen-4.0-generate-001")) with true.
  split_run; simpl; normalise_log; rewrite backendCalls_app; reflexivity.
Qed.

Lemma nonempty_length {A} (l : list A) :
  l <> [] -> (0 <? Z.of_nat (List.length l)) = true.
Proof.
  destruct l; [congruence|]. intros _. apply Z.ltb_lt. simpl List.length. lia.
Qed.

Lemma jseqb_false (a b : jsstring) : a <> b -> jseqb a b = false.
Proof.
  intros H. destruct (jseqb a b) eqn:E; [|reflexivity].
  exfalso. apply H. apply jseqb_eq. exact E.
Qed.

Lemma credentialBootstrap_skipped (r : Session) (env : Env) (st : St) :
  keyAvailable env (world st) = true
  \/ imageModel r <> js "gemini-3-pro-image-preview" ->
  credentialBootstrap r env st = (Val true, st).
Proof.
  intros H. unfold credentialBootstrap. unfold_monad.
  fold (keyAvailable env (world st)).
  destruct H as [H|H].
  - rewrite H. reflexivity.
  - rewrite (jseqb_false _ _ H), andb_false_r. reflexivity.
Qed.

(** The loading count a dispatch shows is the effective count, and 0 when
    it ends. *)
Lemma generateDispatch_loadingCount (r : Session) (c : Z) (env : Env) (w : World)
    (l : list Event) :
  exists l', log (snd (generateDispatch r c env (mkSt w l))) = l ++ l'
    /\ In (SetLoading true) l'
    /\ In (SetLoadingCount (effectiveCount r c)) l'
    /\ forall n, In (SetLoadingCount n) l' -> n = effectiveCount r c \/ n = 0.
Proof.
  unfold_dispatch. split_run; simpl; normalise_log.
  all: eexists; split; [reflexivity|].
  all: split; [simpl; auto|].
  all: split; [simpl; auto 10|].
  all: intros n H; simpl in H;
       repeat (destruct H as [H|H];
               [first [discriminate H | injection H as <-; auto]|]);
       contradiction.
Qed.

(** With a reference image attached the one request of a dispatch is the
    multimodal one with the images and the prompt. *)
Lemma generateDispatch_reference_call (r : Session) (c : Z) (env : Env) (w : World)
    (l : list Event) :
  referenceImages r <> [] ->
  backendCalls (log (snd (generateDispatch r c env (mkSt w l))))
  = backendCalls l
    ++ [GenerateContent (js "gemini-2.5-flash-image")
          (Parts (map (fun refImage =>
                         let p := parseDataUrl refImage in
                         InlineData (mimeType p) (data p))
                      (referenceImages r)
                  ++ [Text (prompt r)]))
          None].
Proof.
  intros Hr. unfold generateDispatch, generateRequest.
  rewrite (nonempty_length _ Hr). unfold generateCatch. unfold_monad.
  split_run; simpl; normalise_log; rewrite backendCalls_app; reflexivity.
Qed.

(** Without a reference image and with a multimodal model the one request
    of a dispatch is a content request for that model. *)
Lemma generateDispatch_multimodal_call (r : Session) (c : Z) (env : Env) (w : World)
    (l : list Event) :
  referenceImages r = [] ->
  imageModel r = js "gemini-2.5-flash-image"
  \/ imageModel r = js "gemini-3-pro-image-preview" ->
  backendCalls (log (snd (generateDispatch r c env (mkSt w l))))
  = backendCalls l
    ++ [GenerateContent (imageModel r)
          (Parts [Text (STYLE_PROMPT_PREFIXES env (style r) ++ js " " ++ prompt r)])
          (Some (aspectRatio r))].
Proof.
  intros Hrefs Hmodel.
  unfold generateDispatch, generateRequest. rewrite Hrefs.
  change (0 <? Z.of_nat (List.length (@nil jsstring))) with false.
  unfold generateCatch. unfold_monad.
  destruct Hmodel as [Hm|Hm]; rewrite Hm.
  - change (jseqb (js "gemini-2.5-flash-image") (js "imagen-4.0-generate-001"))
      with false.
    change (includes (js "gemini") (js "gemini-2.5-flash-image")) with true.
    split_run; simpl; normalise_log; rewrite backendCalls_app; reflexivity.
  - change (jseqb (js "gemini-3-pro-image-preview") (js "imagen-4.0-generate-001"))
      with false.
    change (includes (js "gemini") (js "gemini-3-pro-image-preview")) with true.
    split_run; simpl; normalise_log; rewrite backendCalls_app; reflexivity.
Qed.

(** A generate run that raises the loading flag is a dispatch after the
    bootstrap. *)
Lemma generate_loading_dispatch (env : Env) (w : World) (count : Count) :
  In (SetLoading true) (events env w (Generate count)) ->
  exists l, Forall bootstrapEvent l
    /\ run env w (Generate count)
       = generateDispatch (session w) (countValue count) env (mkSt w l).
Proof.
  unfold events.
  destruct (generate_run_cases env w count)
    as [[_ Hrun]|[[_ [l [Hl Hrun]]]|[_ [l [Hl Hrun]]]]].
  - rewrite Hrun. simpl. intros [H|[]]. discriminate H.
  - rewrite Hrun. simpl. intros Hin. exfalso.
    rewrite Forall_forall in Hl. specialize (Hl _ Hin).
    destruct Hl as [[Hl|Hl]|Hl]; discriminate Hl.
  - intros _. exists l. split; assumption.
Qed.

(** C2: the effective count of a generation is 1 as soon as a reference
    image is attached or the image model is one of the two multimodal
    models.  The run then shows a loading count of 1 and nothing else but
    the final 0, asks for no batch, and once it is past the guard on the
    prompt and the credential bootstrap (it raises the loading flag, as it
    does whenever the prompt is not blank and a key is at hand or the model
    is not the preview model) it makes exactly one request: with reference
    images the request to the multimodal model with the images and the
    prompt, without them the content request to the selected multimodal
    model.  A backend call of a generate run asks for a batch of images
    only in the call to the batch model made with no reference image, and
    the batch size is then the requested count; so four images are asked
    for only with count 4, the batch model and an empty reference list, and
    in that situation (with a prompt that is not blank) the run makes
    exactly one backend call, a batch request for four images. *)
Theorem C2_effective_generation_count (env : Env) (w : World) (count : Count) :
  let r := session w in
  (referenceImages r <> []
   \/ imageModel r = js "gemini-2.5-flash-image"
   \/ imageModel r = js "gemini-3-pro-image-preview" ->
   effectiveCount r (countValue count) = 1
   /\ (forall call, In call (backendCalls (events env w (Generate count))) ->
        requestedImages call = None)
   /\ (forall n, In (SetLoadingCount n) (events env w (Generate count)) ->
        n = 1 \/ n = 0)
   /\ (In (SetLoading true) (events env w (Generate count)) ->
       In (SetLoadingCount 1) (events env w (Generate count))
       /\ (referenceImages r <> [] ->
           backendCalls (events env w (Generate count))
           = [GenerateContent (js "gemini-2.5-flash-image")
                (Parts (map (fun refImage =>
                               let p := parseDataUrl refImage in
                               InlineData (mimeType p) (data p))
                            (referenceImages r)
                        ++ [Text (prompt r)]))
                None])
       /\ (referenceImages r = [] ->
           backendCalls (events env w (Generate count))
           = [GenerateContent (imageModel r)
                (Parts [Text (STYLE_PROMPT_PREFIXES env (style r) ++ js " "
                              ++ prompt r)])
                (Some (aspectRatio r))]))
   /\ (truthy (trim (prompt r)) = true ->
       keyAvailable env w = true
       \/ imageModel r <> js "gemini-3-pro-image-preview" ->
       In (SetLoading true) (events env w (Generate count))))
  /\ (forall call,
        In call (backendCalls (events env w (Generate count))) ->
        requestedImages call = Some 4 ->
        count = Four /\ imageModel r = js "imagen-4.0-generate-001"
        /\ referenceImages r = [])
  /\ (count = Four -> imageModel r = js "imagen-4.0-generate-001" ->
      referenceImages r = [] -> truthy (trim (prompt r)) = true ->
      backendCalls (events env w (Generate count))
      = [GenerateImages (js "imagen-4.0-generate-001")
           (STYLE_PROMPT_PREFIXES env (style r) ++ js " " ++ prompt r)
           4 (aspectRatio r) (js "image/png")]).
Proof.
  intros r.
  assert (Hcalls : forall call n,
            In call (backendCalls (events env w (Generate count))) ->
            requestedImages call = Some n ->
            n = countValue count /\ referenceImages r = []
            /\ imageModel r = js "imagen-4.0-generate-001").
  { intros call n. unfold events.
    destruct (generate_run_cases env w count)
      as [[_ ->]|[[_ [l [Hl ->]]]|[_ [l [Hl ->]]]]]; simpl.
    - contradiction.
    - rewrite (backendCalls_bootstrap l Hl). contradiction.
    - destruct (generateDispatch_log (session w) (countValue count) env w l)
        as [l' [Hlog [_ [_ Hreq]]]].
      rewrite Hlog, backendCalls_app, (backendCalls_bootstrap l Hl). simpl.
      apply Hreq. }
  split; [|split].
  - intros Hone.
    pose proof (effectiveCount_one r (countValue count) Hone) as Hec.
    split; [exact Hec|]. split; [|split; [|split]].
    + intros call Hin. destruct (requestedImages call) as [n|] eqn:En; [|reflexivity].
      exfalso. destruct (Hcalls call n Hin En) as [_ [Hrefs Hmodel]].
      destruct Hone as [H|[H|H]].
      * contradiction.
      * rewrite Hmodel in H. discriminate H.
      * rewrite Hmodel in H. discriminate H.
    + intros n. unfold events.
      destruct (generate_run_cases env w count)
        as [[_ ->]|[[_ [l [Hl ->]]]|[_ [l [Hl ->]]]]]; simpl.
      * intros [H|[]]. discriminate H.
      * intros Hin. exfalso. rewrite Forall_forall in Hl. specialize (Hl _ Hin).
        destruct Hl as [[Hl|Hl]|Hl]; discriminate Hl.
      * destruct (generateDispatch_loadingCount (session w) (countValue count) env w l)
          as [l' [Hlog [_ [_ Hn]]]].
        rewrite Hlog. intros Hin. apply in_app_or in Hin. destruct Hin as [Hin|Hin].
        -- exfalso. rewrite Forall_forall in Hl. specialize (Hl _ Hin).
           destruct Hl as [[Hl|Hl]|Hl]; discriminate Hl.
        -- fold r in Hn. rewrite Hec in Hn. exact (Hn n Hin).
    + intros Hload.
      destruct (generate_loading_dispatch env w count Hload) as [l [Hl Hrun]].
      unfold events. rewrite Hrun. fold r. split; [|split].
      * destruct (generateDispatch_loadingCount r (countValue count) env w l)
          as [l' [Hlog [_ [Hin _]]]].
        rewrite Hlog. apply in_or_app. right. rewrite Hec in Hin. exact Hin.
      * intros Hrefs. rewrite generateDispatch_reference_call by exact Hrefs.
        rewrite (backendCalls_bootstrap l Hl). reflexivity.
      * intros Hrefs.
        assert (Hmodel : imageModel r = js "gemini-2.5-flash-image"
                         \/ imageModel r = js "gemini-3-pro-image-preview")
          by (destruct Hone as [H|H]; [contradiction|exact H]).
        rewrite generateDispatch_multimodal_call by assumption.
        rewrite (backendCalls_bootstrap l Hl). reflexivity.
    + intros Hp Hk. unfold events, run, handler. rewrite handleGenerate_phases.
      fold r. rewrite Hp. simpl negb. cbv iota.
      rewrite (credentialBootstrap_skipped r env (mkSt w []) Hk).
      destruct (generateDispatch_log r (countValue count) env w [])
        as [l' [Hlog [_ [Hin _]]]].
      rewrite Hlog. exact Hin.
  - intros call Hin H4. destruct (Hcalls call 4 Hin H4) as [Hn [Hrefs Hmodel]].
    repeat split; try assumption.
    destruct count; [discriminate Hn|reflexivity].
  - intros -> Hmodel Hrefs Hprompt. unfold events.
    destruct (generate_run_cases env w Four)
      as [[Hb _]|[[_ [l [Hl Hrun]]]|[_ [l [Hl ->]]]]].
    + fold r in Hb. congruence.
    + exfalso. revert Hrun. unfold run, handler. rewrite handleGenerate_phases.
      fold r. rewrite Hprompt. simpl negb. cbv iota.
      unfold credentialBootstrap. unfold_monad. fold r. rewrite Hmodel.
      change (jseqb (js "imagen-4.0-generate-001") (js "gemini-3-pro-image-preview"))
        with false.
      rewrite andb_false_r. simpl.
      intros Hrun.
      assert (Hlog : log (snd (generateDispatch r 4 env (mkSt w [])))
                     = log (@snd (Res unit) St
                              (Val tt, mkSt (apply (SetError (Some (js "API Key is required. Please set it in the field above."))) w) l)))
        by (rewrite Hrun; reflexivity).
      destruct (generateDispatch_log r 4 env w []) as [l' [Hl' [_ [Hin _]]]].
      rewrite Hl' in Hlog. simpl in Hlog. subst l.
      rewrite Forall_forall in Hl. specialize (Hl _ Hin).
      destruct Hl as [[Hl|Hl]|Hl]; discriminate Hl.
    + fold r. unfold r. rewrite generate_batch_call by assumption.
      rewrite (backendCalls_bootstrap l Hl). reflexivity.
Qed.

Lemma C2_effective_generation_count_witness :
  backendCalls (events (sampleEnv (Resolved helloResponse)) foxWorld (Generate Four))
  = [GenerateImages (js "imagen-4.0-generate-001")
       (js "A photorealistic image of a red fox in snow") 4 (js "16:9")
       (js "image/png")]
  /\ (let w := applyAll [SetPrompt (js "make it night");
                         SetImageModel (js "imagen-4.0-generate-001");
                         SetReferenceImages [sampleImage]] initialWorld in
      effectiveCount (session w) 4 = 1
      /\ In (SetLoadingCount 1)
           (events (sampleEnv (Resolved helloResponse)) w (Generate Four))
      /\ backendCalls (events (sampleEnv (Resolved helloResponse)) w (Generate Four))
         = [GenerateContent (js "gemini-2.5-flash-image")
              (Parts [InlineData (js "image/jpeg") (Some (js "QUJD"));
                      Text (js "make it night")])
              None]).
Proof.
  split.
  - exact (proj2 (proj2 (C2_effective_generation_count
                           (sampleEnv (Resolved helloResponse)) foxWorld Four))
             eq_refl eq_refl eq_refl eq_refl).
  - intros w.
    assert (Hrefs : referenceImages (session w) <> []) by discriminate.
    destruct (proj1 (C2_effective_generation_count
                       (sampleEnv (Resolved helloResponse)) w Four)
                (or_introl Hrefs))
      as (Hec & _ & _ & Hrun & Hreach).
    assert (Hload : In (SetLoading true)
                      (events (sampleEnv (Resolved helloResponse)) w (Generate Four))).
    { apply Hreach; [reflexivity|]. right. intros H. vm_compute in H. discriminate H. }
    destruct (Hrun Hload) as (Hcount & Hcall & _).
    split; [exact Hec|]. split; [exact Hcount|]. exact (Hcall Hrefs).
Defined.

(** ** Caption length and error fold *)

(** C3, on the code: whatever maximum caption length [n] the user has set,
    the per-image caption request carries the fixed instruction of
    [suggestCaption] and the story caption requests carry the fixed hint of
    60 characters; with [n] = 100 none of these instructions contains
    100. *)
Theorem C3_caption_length_not_embedded (n : Z) :
  let env := sampleEnv (Resolved helloResponse) in
  let texts op := flat_map instructionTexts (backendCalls (events env (captionWorld n) op)) in
  texts (Caption sampleImage 0%N)
  = [js "Suggest a short, witty, and engaging caption for this image suitable for social media. Respond with only the caption text."]
  /\ texts CustomCaption
     = [js "Summarize this story in ONE short sentence in English. Max 60 chars."
        ++ [cu_newline] ++ js "Story: Once upon a time"]
  /\ texts ThaiCaption
     = [js "Summarize this story in ONE short sentence in Thai. Max 60 chars."
        ++ [cu_newline] ++ js "Story: Once upon a time"]
  /\ forallb (fun t => negb (includes (js "100") t))
       (flat_map (fun op => flat_map instructionTexts
                    (backendCalls (events env (captionWorld 100) op)))
          [Caption sampleImage 0%N; CustomCaption; ThaiCaption; NewThaiCaption])
     = true.
Proof.
  repeat split; vm_compute; reflexivity.
Qed.

Lemma generateDispatch_rejected (r : Session) (c : Z) (env : Env) (w : World)
    (l : list Event) (message : jsstring) :
  (forall call, backend env call = Rejected (ErrorObject message)) ->
  includes (js "Requested entity was not found") message
  || includes (js "API_KEY_INVALID") message = true ->
  let st' := snd (generateDispatch r c env (mkSt w l)) in
  backendCalls (log st') = backendCalls l
  \/ error (session (world st'))
     = Some (match scrollFailure env with
             | None => credentialMessage
             | Some _ => js "API Error: " ++ message
             end).
Proof.
  intros Hrej Hincl. unfold_dispatch. split_run; simpl.
  all: repeat match goal with
         | H : backend _ _ = _ |- _ =>
             rewrite Hrej in H; first [discriminate H|inversion H; subst; clear H]
         end.
  all: try (rewrite Hincl in *; discriminate).
  all: first [ right; reflexivity
             | left; normalise_log; rewrite backendCalls_app; simpl;
               rewrite ?app_nil_r; reflexivity ].
Qed.

(** C4, as the code has it: only the generate handler recognises a
    credential error.  When its backend call is rejected with an Error
    whose message contains one of the two markers, the session error
    becomes the credential message (or, should scrolling to the controls
    throw, the text API Error followed by the backend message).  The
    handlers with the plain catch block (describe, caption, remove text,
    expand, their ref-1 variants, enhance and concept) store the backend
    message itself. *)
Theorem C4_credential_error_fold (env : Env) (w : World) (message : jsstring) :
  (forall call, backend env call = Rejected (ErrorObject message)) ->
  includes (js "Requested entity was not found") message
  || includes (js "API_KEY_INVALID") message = true ->
  (forall count,
     backendCalls (events env w (Generate count)) <> [] ->
     error (session (finalWorld env w (Generate count)))
     = Some (match scrollFailure env with
             | None => credentialMessage
             | Some _ => js "API Error: " ++ message
             end))
  /\ (forall op,
        plainCatch op = true ->
        backendCalls (events env w op) <> [] ->
        error (session (finalWorld env w op)) = Some message).
Proof.
  intros Hrej Hincl. split.
  - intros count. unfold events, finalWorld.
    destruct (generate_run_cases env w count)
      as [[_ ->]|[[_ [l [Hl ->]]]|[_ [l [Hl ->]]]]]; simpl.
    + intros Hne. exfalso. apply Hne. reflexivity.
    + rewrite (backendCalls_bootstrap l Hl). intros Hne. exfalso. apply Hne. reflexivity.
    + destruct (generateDispatch_rejected (session w) (countValue count) env w l
                  message Hrej Hincl) as [Hcalls|Herr].
      * rewrite Hcalls, (backendCalls_bootstrap l Hl).
        intros Hne. exfalso. apply Hne. reflexivity.
      * intros _. exact Herr.
  - intros op Hplain.
    destruct op; try discriminate Hplain; clear Hplain.
    all: run_cases.
    all: repeat match goal with
           | H : backend _ _ = _ |- _ =>
               rewrite Hrej in H; first [discriminate H|inversion H; subst; clear H]
           end.
    all: intros Hne; first [reflexivity|exfalso; apply Hne; reflexivity].
Qed.

Lemma C4_credential_error_fold_witness :
  error (session (finalWorld (sampleEnv (Rejected (ErrorObject (js "400 API_KEY_INVALID"))))
                    foxWorld (Generate One)))
  = Some credentialMessage.
Proof.
  refine (proj1 (C4_credential_error_fold
                   (sampleEnv (Rejected (ErrorObject (js "400 API_KEY_INVALID"))))
                   foxWorld (js "400 API_KEY_INVALID") (fun _ => eq_refl) eq_refl)
            One _).
  vm_compute. discriminate.
Defined.

(** C4, as stated, fails: the describe handler, given a rejection whose
    message contains API_KEY_INVALID, stores that message and not the
    credential message. *)
Lemma C4_describe_keeps_backend_text :
  ~ (forall env w op message,
       (forall call, backend env call = Rejected (ErrorObject message)) ->
       backendCalls (events env w op) <> [] ->
       includes (js "API_KEY_INVALID") message = true ->
       error (session (finalWorld env w op)) = Some credentialMessage).
Proof.
  intros H.
  specialize (H (sampleEnv (Rejected (ErrorObject (js "400 API_KEY_INVALID"))))
                initialWorld (Describe sampleImage 0%N) (js "400 API_KEY_INVALID")
                (fun _ => eq_refl)).
  assert (Hcalls : backendCalls
            (events (sampleEnv (Rejected (ErrorObject (js "400 API_KEY_INVALID"))))
               initialWorld (Describe sampleImage 0%N)) <> [])
    by (vm_compute; discriminate).
  specialize (H Hcalls eq_refl). vm_compute in H. discriminate H.
Qed.

(** ** Caption wording *)

Lemma isThaiLetter_range (u : N) :
  isThaiLetter u = true <-> (3585 <= u <= 3630)%N.
Proof.
  unfold isThaiLetter. rewrite andb_true_iff, !N.leb_le. tauto.
Qed.

Lemma captionPrompt_thai (caption : jsstring) :
  (exists u, In u caption /\ (3585 <= u <= 3630)%N) ->
  captionPrompt caption = thaiWording caption.
Proof.
  intros [u [Hin Hu]].
  assert (H : existsb isThaiLetter caption = true).
  { apply existsb_exists. exists u. split; [exact Hin|apply isThaiLetter_range; exact Hu]. }
  unfold captionPrompt, thaiWording. rewrite H. reflexivity.
Qed.

Lemma captionPrompt_generic (caption : jsstring) :
  (forall u, In u caption -> (u < 3585 \/ 3630 < u)%N) ->
  captionPrompt caption = genericWording caption.
Proof.
  intros Hall.
  assert (H : existsb isThaiLetter caption = false).
  { destruct (existsb isThaiLetter caption) eqn:E; [|reflexivity].
    apply existsb_exists in E. destruct E as [u [Hin Hu]].
    apply isThaiLetter_range in Hu. specialize (Hall u Hin). lia. }
  unfold captionPrompt, genericWording. rewrite H. reflexivity.
Qed.

Lemma caption_run_prompt (env : Env) (w : World) (imageSrc : jsstring) (index : N)
    (response : Response) :
  (forall call, backend env call = Resolved response) ->
  let caption := stripQuotes (orEmpty (responseText response)) in
  prompt (session (finalWorld env w (Caption imageSrc index))) = captionPrompt caption
  /\ (referenceImages (session w) <> [] ->
      prompt (session (finalWorld env w CaptionRef1)) = captionPrompt caption).
Proof.
  intros Hres caption. split; [|intros Hne]; run_cases.
  all: repeat match goal with
         | H : backend _ _ = _ |- _ =>
             rewrite Hres in H; first [discriminate H|inversion H; subst; clear H]
         end.
  all: try reflexivity.
  destruct (referenceImages (session w)); [contradiction|discriminate].
Qed.

(** C8: when the caption call resolves, both caption handlers write a
    prompt built from the caption (the response text without quote
    characters).  If the caption holds a code unit in the range of the Thai
    letters ko kai to ho nokhuk (U+0E01 to U+0E2E), the prompt is the Thai
    wording, which names the Thai text and demands the exact characters
    without translation; if it holds none, the prompt is the same template
    with the generic word text. *)
Theorem C8_caption_prompt_wording (env : Env) (w : World) (imageSrc : jsstring)
    (index : N) (response : Response) :
  (forall call, backend env call = Resolved response) ->
  let caption := stripQuotes (orEmpty (responseText response)) in
  let viaImage := prompt (session (finalWorld env w (Caption imageSrc index))) in
  let viaRef1 := prompt (session (finalWorld env w CaptionRef1)) in
  ((exists u, In u caption /\ (3585 <= u <= 3630)%N) ->
   viaImage = thaiWording caption
   /\ (referenceImages (session w) <> [] -> viaRef1 = thaiWording caption))
  /\ ((forall u, In u caption -> (u < 3585 \/ 3630 < u)%N) ->
      viaImage = genericWording caption
      /\ (referenceImages (session w) <> [] -> viaRef1 = genericWording caption)).
Proof.
  intros Hres caption viaImage viaRef1.
  destruct (caption_run_prompt env w imageSrc index response Hres) as [H1 H2].
  fold caption in H1, H2. fold viaImage in H1. fold viaRef1 in H2.
  split; intros Hc.
  - rewrite <- (captionPrompt_thai caption Hc). split; assumption.
  - rewrite <- (captionPrompt_generic caption Hc). split; assumption.
Qed.

Lemma C8_caption_prompt_wording_witness :
  prompt (session (finalWorld (sampleEnv (Resolved sawatdiResponse)) squareWorld
                     (Caption sampleImage 0%N)))
  = thaiWording sawatdi
  /\ prompt (session (finalWorld (sampleEnv (Resolved helloResponse)) squareWorld
                        CaptionRef1))
     = genericWording (js "Hello world").
Proof.
  split.
  - refine (proj1 (proj1 (C8_caption_prompt_wording
                            (sampleEnv (Resolved sawatdiResponse)) squareWorld
                            sampleImage 0%N sawatdiResponse (fun _ => eq_refl)) _)).
    exists 3626%N. split; [left; reflexivity|lia].
  - refine (proj2 (proj2 (C8_caption_prompt_wording
                            (sampleEnv (Resolved helloResponse)) squareWorld
                            sampleImage 0%N helloResponse (fun _ => eq_refl)) _) _).
    + intros u Hu. vm_compute in Hu.
      repeat (destruct Hu as [<-|Hu]; [left; reflexivity|]). contradiction.
    + discriminate.
Defined.

(** A caption of Thai digits holds characters of the Thai block only, and
    none of the class of the test: the prompt gets the generic wording. *)
Lemma C8_thai_digits_get_generic_wording :
  ~ (forall env w imageSrc index response,
       (forall call, backend env call = Resolved response) ->
       let caption := stripQuotes (orEmpty (responseText response)) in
       existsb inThaiBlock caption = true ->
       prompt (session (finalWorld env w (Caption imageSrc index)))
       = thaiWording caption).
Proof.
  intros H.
  specialize (H (sampleEnv (Resolved thaiYearResponse)) squareWorld sampleImage 0%N
                thaiYearResponse (fun _ => eq_refl) eq_refl).
  assert (E : prompt (session (finalWorld (sampleEnv (Resolved thaiYearResponse))
                                 squareWorld (Caption sampleImage 0%N)))
              = genericWording thaiYear) by reflexivity.
  rewrite E in H. vm_compute in H. discriminate H.
Qed.

Example includes_thai_demand :
  includes (js "The Thai text MUST be clear and readable, using the exact characters provided without translation.")
    (thaiWording sawatdi) = true.
Proof. reflexivity. Qed.

(* ===================================================================== *)
(** * Further properties of the code *)
(* ===================================================================== *)

(** ** The credential holder and the key field *)

Lemma truthy_length (s : jsstring) :
  truthy s = true -> (0 <? Z.of_nat (List.length s)) = true.
Proof.
  destruct s; [discriminate|]. intros _. apply Z.ltb_lt. simpl List.length. lia.
Qed.

Lemma not_empty_truthy (s : jsstring) : jseqb s [] = false -> truthy s = true.
Proof. destruct s; [discriminate|reflexivity]. Qed.

(** X1: a key sent from the key field is stored trimmed.  It also becomes
    the active key, trimmed, unless the trimmed text is the placeholder
    text of the field, in which case the active key falls back to the
    configured default. *)
Theorem sendKey_stores_and_activates (env : Env) (w : World) :
  precondition w SendKey = true ->
  let k := trim (apiKeyInput (session w)) in
  let w' := finalWorld env w SendKey in
  storedKey w' = Some k
  /\ k <> [] /\ noLeadingWhiteSpace k /\ noLeadingWhiteSpace (rev k)
  /\ (k <> js "no API key" -> currentActiveApiKey w' = k)
  /\ (k = js "no API key" -> currentActiveApiKey w' = orEmpty (env_API_KEY env))
  /\ error (session w') = error (session w)
  /\ backendCalls (events env w SendKey) = [].
Proof.
  intros Hpre k w'. simpl in Hpre.
  apply andb_true_iff in Hpre. destruct Hpre as [Hpre Hne].
  apply andb_true_iff in Hpre. destruct Hpre as [Ht Hs].
  apply negb_true_iff in Hne, Hs.
  assert (Hk : truthy k = true) by (apply not_empty_truthy; exact Hne).
  assert (Hrun : run env w SendKey
                 = handleSendKey (session w) env (mkSt w [])) by reflexivity.
  unfold w', finalWorld, events. rewrite Hrun. unfold handleSendKey.
  rewrite Ht, Hs, Hne. simpl negb. simpl orb. cbv iota.
  unfold updateActiveApiKey. unfold_monad.
  rewrite (trim_idempotent (apiKeyInput (session w))). fold k. rewrite Hk.
  rewrite (truthy_length k Hk).
  split; [|split; [|split; [|split; [|split; [|split; [|split]]]]]].
  - destruct (jseqb k (js "no API key")); reflexivity.
  - intros E. rewrite E in Hk. discriminate Hk.
  - apply trim_noLeading.
  - apply trim_noTrailing.
  - intros Hn. rewrite (jseqb_false _ _ Hn). reflexivity.
  - intros ->. reflexivity.
  - destruct (jseqb k (js "no API key")); reflexivity.
  - destruct (jseqb k (js "no API key")); reflexivity.
Qed.

Lemma sendKey_stores_and_activates_witness :
  storedKey (finalWorld (sampleEnv (Resolved helloResponse))
               (apply (SetApiKeyInput (js "  AIzaSy-demo-key ")) initialWorld) SendKey)
  = Some (js "AIzaSy-demo-key").
Proof.
  exact (proj1 (sendKey_stores_and_activates (sampleEnv (Resolved helloResponse))
                  (apply (SetApiKeyInput (js "  AIzaSy-demo-key ")) initialWorld)
                  eq_refl)).
Defined.

Ltac run_once :=
  unfold events, finalWorld;
  match goal with |- context [run ?e ?w0 ?o] =>
    remember (run e w0 o) as R eqn:E; revert E end;
  unfold run, handler; unfold_handlers; unfold_monad; split_run; simpl;
  intros ->; simpl; normalise_log.

Ltac in_cases H :=
  repeat match type of H with
         | In _ (_ ++ _) => apply in_app_or in H; destruct H as [H|H]
         | In _ (_ :: _) => destruct H as [H|H]
         | In _ [] => destruct H
         | _ \/ _ => destruct H as [H|H]
         | False => destruct H
         end.

Lemma generateDispatch_calls (r : Session) (c : Z) (env : Env) (w : World)
    (l : list Event) :
  exists l', log (snd (generateDispatch r c env (mkSt w l))) = l ++ l'
    /\ (List.length (backendCalls l') <= 1)%nat
    /\ forall k call, In (BackendCall k call) l' -> k = currentActiveApiKey w.
Proof.
  unfold_dispatch. split_run; simpl; normalise_log.
  all: eexists; split; [reflexivity|].
  all: split; [simpl; lia|].
  all: intros k call H; simpl in H;
       repeat (destruct H as [H|H]; [try discriminate H; inversion H; reflexivity|]);
       contradiction.
Qed.

Lemma bootstrap_no_call (l : list Event) (k : jsstring) (call : Call) :
  Forall bootstrapEvent l -> ~ In (BackendCall k call) l.
Proof.
  intros Hl Hin. rewrite Forall_forall in Hl.
  destruct (Hl _ Hin) as [[H|H]|H]; discriminate H.
Qed.

Lemma backend_call_key (env : Env) (w : World) (op : Op)
    (k : jsstring) (call : Call) :
  In (BackendCall k call) (events env w op) -> k = currentActiveApiKey w.
Proof.
  destruct op.
  4: { unfold events.
       destruct (generate_run_cases env w count)
         as [[_ ->]|[[_ [l [Hl ->]]]|[_ [l [Hl ->]]]]]; simpl.
       - intros [H|[]]. discriminate H.
       - intros H. exfalso. exact (bootstrap_no_call l k call Hl H).
       - destruct (generateDispatch_calls (session w) (countValue count) env w l)
           as [l' [Hlog [_ Hkey]]].
         rewrite Hlog. intros H. apply in_app_or in H. destruct H as [H|H].
         + exfalso. exact (bootstrap_no_call l k call Hl H).
         + exact (Hkey k call H). }
  all: run_once; intros H; in_cases H; try discriminate H; inversion H; reflexivity.
Qed.

Lemma generateDispatch_keys (r : Session) (c : Z) (env : Env) (w : World)
    (l : list Event) :
  let w' := world (snd (generateDispatch r c env (mkSt w l))) in
  currentActiveApiKey w' = currentActiveApiKey w /\ storedKey w' = storedKey w.
Proof.
  unfold_dispatch. split_run; simpl; split; reflexivity.
Qed.

Lemma op_key_frame (env : Env) (w : World) (op : Op) :
  op <> SendKey -> op <> ClearKey ->
  currentActiveApiKey (finalWorld env w op) = currentActiveApiKey w
  /\ storedKey (finalWorld env w op) = storedKey w.
Proof.
  intros Hs Hc. destruct op; try congruence.
  2: { unfold finalWorld.
       destruct (generate_run_cases env w count)
         as [[_ ->]|[[_ [l [Hl ->]]]|[_ [l [Hl ->]]]]].
       - split; reflexivity.
       - split; reflexivity.
       - exact (generateDispatch_keys (session w) (countValue count) env w l). }
  all: run_once; split; reflexivity.
Qed.

(** X2: every backend call of a run carries the key that was active when
    the run started, and only the Send and Clear buttons of the key field
    change the active key or the stored key. *)
Theorem calls_carry_the_active_key (env : Env) (w : World) (op : Op) :
  (forall k call,
     In (BackendCall k call) (events env w op) -> k = currentActiveApiKey w)
  /\ (op <> SendKey -> op <> ClearKey ->
      currentActiveApiKey (finalWorld env w op) = currentActiveApiKey w
      /\ storedKey (finalWorld env w op) = storedKey w).
Proof.
  split.
  - intros k call. apply backend_call_key.
  - apply op_key_frame.
Qed.

Lemma calls_carry_the_active_key_witness :
  In (BackendCall [] (GenerateContent (js "gemini-3-flash-preview")
        (Plain (js "Enhance the following text-to-image prompt to make it more vivid, detailed, and imaginative. Original: "
                ++ [cu_quote] ++ js "a red fox in snow" ++ [cu_quote])) None))
     (events (sampleEnv (Resolved helloResponse)) foxWorld EnhancePrompt)
  /\ [] = currentActiveApiKey foxWorld.
Proof.
  assert (H : In (BackendCall [] (GenerateContent (js "gemini-3-flash-preview")
        (Plain (js "Enhance the following text-to-image prompt to make it more vivid, detailed, and imaginative. Original: "
                ++ [cu_quote] ++ js "a red fox in snow" ++ [cu_quote])) None))
     (events (sampleEnv (Resolved helloResponse)) foxWorld EnhancePrompt))
    by (vm_compute; right; right; left; reflexivity).
  split; [exact H|].
  exact (proj1 (calls_carry_the_active_key _ _ _) _ _ H).
Defined.

(** X3: no operation retries: a run makes at most one backend call, except
    the new Thai caption, which makes at most its two parallel calls. *)
Theorem at_most_one_backend_call (env : Env) (w : World) (op : Op) :
  (List.length (backendCalls (events env w op))
   <= match op with NewThaiCaption => 2 | _ => 1 end)%nat.
Proof.
  destruct op.
  4: { unfold events.
       destruct (generate_run_cases env w count)
         as [[_ ->]|[[_ [l [Hl ->]]]|[_ [l [Hl ->]]]]]; simpl.
       - lia.
       - rewrite (backendCalls_bootstrap l Hl). simpl. lia.
       - destruct (generateDispatch_calls (session w) (countValue count) env w l)
           as [l' [Hlog [Hlen _]]].
         rewrite Hlog, backendCalls_app, (backendCalls_bootstrap l Hl). exact Hlen. }
  all: run_once; lia.
Qed.

Lemma dispatch_not_broker (l : list Event) (e : Event) :
  Forall dispatchEvent l -> In e l -> ~ isBrokerEvent e.
Proof.
  intros Hl Hin [-> | ->]; rewrite Forall_forall in Hl;
    exact (Hl _ Hin).
Qed.

(** X4: the credential broker is consulted only by the generate operation,
    and only when no key is stored, the configured key is missing or is the
    placeholder, and the image model is the preview model that needs a
    brokered key.  In that situation, with a prompt that is not blank and a
    broker that is missing or whose key selection is rejected, the run
    makes no backend call, raises no loading flag and reports that a key is
    required. *)
Theorem broker_only_for_keyless_preview (env : Env) (w : World) :
  (forall op e, isBrokerEvent e -> In e (events env w op) ->
     (exists count, op = Generate count)
     /\ keyAvailable env w = false
     /\ imageModel (session w) = js "gemini-3-pro-image-preview")
  /\ (forall count,
        truthy (trim (prompt (session w))) = true ->
        keyAvailable env w = false ->
        imageModel (session w) = js "gemini-3-pro-image-preview" ->
        broker env = BrokerAbsent \/ broker env = BrokerNoKey true ->
        backendCalls (events env w (Generate count)) = []
        /\ ~ In (SetLoading true) (events env w (Generate count))
        /\ error (session (finalWorld env w (Generate count)))
           = Some (js "API Key is required. Please set it in the field above.")
        /\ images (session (finalWorld env w (Generate count)))
           = images (session w)).
Proof.
  split.
  - intros op e He Hin. destruct op.
    4: { split; [exists count; reflexivity|].
         destruct (keyAvailable env w) eqn:Hk.
         - exfalso. revert Hin. unfold events, run, handler.
           rewrite handleGenerate_phases.
           destruct (negb (truthy (trim (prompt (session w))))).
           + simpl. intros [H|[]]. destruct He as [-> | ->]; discriminate H.
           + rewrite (credentialBootstrap_skipped _ env (mkSt w []) (or_introl Hk)).
             destruct (generateDispatch_log (session w) (countValue count) env w [])
               as [l' [Hlog [Hl' _]]].
             rewrite Hlog. simpl. intros H.
             exact (dispatch_not_broker l' e Hl' H He).
         - split; [reflexivity|].
           destruct (jseqb (imageModel (session w)) (js "gemini-3-pro-image-preview"))
             eqn:Hm; [apply jseqb_eq; exact Hm|].
           exfalso. revert Hin. unfold events, run, handler.
           rewrite handleGenerate_phases.
           destruct (negb (truthy (trim (prompt (session w))))).
           + simpl. intros [H|[]]. destruct He as [-> | ->]; discriminate H.
           + assert (Hne : imageModel (session w) <> js "gemini-3-pro-image-preview").
             { intros E. rewrite E in Hm. discriminate Hm. }
             rewrite (credentialBootstrap_skipped _ env (mkSt w []) (or_intror Hne)).
             destruct (generateDispatch_log (session w) (countValue count) env w [])
               as [l' [Hlog [Hl' _]]].
             rewrite Hlog. simpl. intros H.
             exact (dispatch_not_broker l' e Hl' H He). }
    all: exfalso; revert Hin; run_once; intros H;
         destruct He as [-> | ->]; in_cases H; discriminate H.
  - intros count Hp Hk Hm Hb.
    unfold events, finalWorld, run, handler. rewrite handleGenerate_phases.
    rewrite Hp. simpl negb. cbv iota.
    unfold credentialBootstrap. unfold_monad. unfold keyAvailable in Hk.
    simpl. rewrite Hk, Hm, jseqb_refl. simpl.
    destruct Hb as [Hb|Hb]; repeat (rewrite Hb; simpl);
      (split; [reflexivity|]); (split; [|split; reflexivity]);
      intros H; in_cases H; discriminate H.
Qed.

Lemma broker_only_for_keyless_preview_witness :
  backendCalls (events keylessEnv previewWorld (Generate One)) = []
  /\ error (session (finalWorld keylessEnv previewWorld (Generate One)))
     = Some (js "API Key is required. Please set it in the field above.").
Proof.
  destruct (proj2 (broker_only_for_keyless_preview keylessEnv previewWorld) One
              eq_refl eq_refl eq_refl (or_introl eq_refl))
    as [Hcalls [_ [Herr _]]].
  split; assumption.
Defined.

Lemma sendKey_active (env : Env) (w : World) :
  precondition w SendKey = true ->
  trim (apiKeyInput (session w)) <> js "no API key" ->
  currentActiveApiKey (finalWorld env w SendKey) = trim (apiKeyInput (session w)).
Proof.
  intros Hpre Hn. simpl in Hpre.
  apply andb_true_iff in Hpre. destruct Hpre as [Hpre Hne].
  apply andb_true_iff in Hpre. destruct Hpre as [Ht Hs].
  apply negb_true_iff in Hne, Hs.
  assert (Hk : truthy (trim (apiKeyInput (session w))) = true)
    by (apply not_empty_truthy; exact Hne).
  assert (Hrun : run env w SendKey
                 = handleSendKey (session w) env (mkSt w [])) by reflexivity.
  unfold finalWorld. rewrite Hrun. unfold handleSendKey.
  rewrite Ht, Hs, Hne. simpl negb. simpl orb. cbv iota.
  unfold updateActiveApiKey. unfold_monad.
  rewrite (trim_idempotent (apiKeyInput (session w))).
  rewrite Hk, (truthy_length _ Hk), (jseqb_false _ _ Hn). reflexivity.
Qed.

Lemma runMany_key_frame (steps : list (Env * Op)) (w : World) :
  Forall (fun s => snd s <> SendKey /\ snd s <> ClearKey) steps ->
  currentActiveApiKey (runMany steps w) = currentActiveApiKey w
  /\ storedKey (runMany steps w) = storedKey w.
Proof.
  intros H. revert w. induction H as [|[env op] steps [Hs Hc] _ IH]; intros w.
  - split; reflexivity.
  - cbn [runMany]. cbn [snd] in Hs, Hc.
    destruct (IH (finalWorld env w op)) as [IH1 IH2].
    destruct (op_key_frame env w op Hs Hc) as [F1 F2].
    rewrite IH1, IH2. split; assumption.
Qed.

(** X8: once a key has been applied with Send, every backend call of every
    later operation carries that key, trimmed, until Send or Clear is used
    again; the key stays stored as well. *)
Theorem sent_key_is_used (env0 : Env) (w : World) (steps : list (Env * Op)) :
  precondition w SendKey = true ->
  trim (apiKeyInput (session w)) <> js "no API key" ->
  Forall (fun s => snd s <> SendKey /\ snd s <> ClearKey) steps ->
  let w' := runMany steps (finalWorld env0 w SendKey) in
  storedKey w' = Some (trim (apiKeyInput (session w)))
  /\ forall env op k call,
       In (BackendCall k call) (events env w' op) ->
       k = trim (apiKeyInput (session w)).
Proof.
  intros Hpre Hn Hsteps w'.
  destruct (runMany_key_frame steps (finalWorld env0 w SendKey) Hsteps) as [F1 F2].
  split.
  - unfold w'. rewrite F2. clear - Hpre.
    simpl in Hpre.
    apply andb_true_iff in Hpre. destruct Hpre as [Hpre Hne].
    apply andb_true_iff in Hpre. destruct Hpre as [Ht Hs].
    apply negb_true_iff in Hne, Hs.
    assert (Hrun : run env0 w SendKey
                   = handleSendKey (session w) env0 (mkSt w [])) by reflexivity.
    unfold finalWorld. rewrite Hrun. unfold handleSendKey.
    rewrite Ht, Hs, Hne. simpl negb. simpl orb. cbv iota.
    unfold updateActiveApiKey. unfold_monad.
    destruct (_ && _); reflexivity.
  - intros env op k call Hin.
    rewrite (backend_call_key env w' op k call Hin). unfold w'.
    rewrite F1. exact (sendKey_active env0 w Hpre Hn).
Qed.

Lemma sent_key_is_used_witness :
  storedKey
    (runMany [(sampleEnv (Resolved helloResponse), SetReference sampleImage)]
       (finalWorld (sampleEnv (Resolved helloResponse))
          (applyAll [SetApiKeyInput (js "  AIzaSy-demo-key ");
                     SetPrompt (js "a red fox in snow")] initialWorld)
          SendKey))
  = Some (js "AIzaSy-demo-key")
  /\ backendCalls
       (events (sampleEnv (Resolved helloResponse))
          (runMany [(sampleEnv (Resolved helloResponse), SetReference sampleImage)]
             (finalWorld (sampleEnv (Resolved helloResponse))
                (applyAll [SetApiKeyInput (js "  AIzaSy-demo-key ");
                           SetPrompt (js "a red fox in snow")] initialWorld)
                SendKey))
          (Generate One))
     <> [].
Proof.
  assert (Hsteps : Forall (fun s : Env * Op => snd s <> SendKey /\ snd s <> ClearKey)
                     [(sampleEnv (Resolved helloResponse), SetReference sampleImage)]).
  { apply Forall_cons; [split; discriminate|apply Forall_nil]. }
  assert (Hn : trim (apiKeyInput (session
                 (applyAll [SetApiKeyInput (js "  AIzaSy-demo-key ");
                            SetPrompt (js "a red fox in snow")] initialWorld)))
               <> js "no API key").
  { intros H. vm_compute in H. discriminate H. }
  split.
  - exact (proj1 (sent_key_is_used (sampleEnv (Resolved helloResponse))
                    (applyAll [SetApiKeyInput (js "  AIzaSy-demo-key ");
                               SetPrompt (js "a red fox in snow")] initialWorld)
                    [(sampleEnv (Resolved helloResponse), SetReference sampleImage)]
                    eq_refl Hn Hsteps)).
  - vm_compute. discriminate.
Defined.

(** X5: a session that starts without a usable key (nothing stored, and a
    configured key that is missing, the placeholder or at most five
    characters long) shows the placeholder text in the key field and leaves
    the active key as it was; from there, Send is refused with a message and
    stores nothing, and Copy copies nothing. *)
Theorem keyless_start_refuses_send (env : Env) (w : World) :
  someTruthy (storedKey w) = false ->
  someTruthy (env_API_KEY env)
  && negb (jseqb (orEmpty (env_API_KEY env)) (js "PLACEHOLDER_API_KEY"))
  && (5 <? Z.of_nat (List.length (orEmpty (env_API_KEY env)))) = false ->
  let w1 := world (snd (exec initializeApiKey env w)) in
  apiKeyInput (session w1) = js "no API key"
  /\ currentActiveApiKey w1 = currentActiveApiKey w
  /\ storedKey w1 = storedKey w
  /\ events env w1 SendKey = [SetError (Some (js "Please enter a valid API key."))]
  /\ storedKey (finalWorld env w1 SendKey) = storedKey w
  /\ currentActiveApiKey (finalWorld env w1 SendKey) = currentActiveApiKey w
  /\ events env w1 CopyKey = [].
Proof.
  intros Hs Hd. unfold exec, initializeApiKey. unfold_monad. simpl.
  rewrite Hs, Hd. simpl.
  repeat split.
Qed.

Lemma keyless_start_refuses_send_witness :
  apiKeyInput (session (world (snd (exec initializeApiKey keylessEnv initialWorld))))
  = js "no API key"
  /\ events keylessEnv (world (snd (exec initializeApiKey keylessEnv initialWorld)))
       SendKey
     = [SetError (Some (js "Please enter a valid API key."))].
Proof.
  destruct (keyless_start_refuses_send keylessEnv initialWorld eq_refl eq_refl)
    as [H1 [_ [_ [H4 _]]]].
  split; assumption.
Defined.

(** ** Images as data URLs *)

Lemma inline_images_round_trip_lemma (parts : list ResponsePart) :
  Forall cleanPair (inlinePairs parts) ->
  map parseDataUrl (inlineImages parts)
  = map (fun p => mkParsed (fst p) (Some (snd p))) (inlinePairs parts).
Proof.
  induction parts as [|[mime payload|] parts IH];
    cbn [inlineImages inlinePairs map]; intros H.
  - reflexivity.
  - inversion H as [|p ps [Hnl [Hns [Hnc Hpc]]] Hrest]; subst.
    cbn [fst snd] in *.
    rewrite (parseDataUrl_of_data_url mime payload Hnl Hns Hnc Hpc).
    rewrite (IH Hrest). reflexivity.
  - exact (IH H).
Qed.

(** X6: the data URLs that the gateway builds from the inline images of a
    response decode to the media types and payloads the backend sent, in
    order, as long as a media type holds no comma, semicolon or line
    terminator and a payload holds no comma. *)
Theorem inline_images_round_trip (parts : list ResponsePart) :
  Forall cleanPair (inlinePairs parts) ->
  map parseDataUrl (inlineImages parts)
  = map (fun p => mkParsed (fst p) (Some (snd p))) (inlinePairs parts)
  /\ List.length (inlineImages parts) = List.length (inlinePairs parts)
  /\ forall url, In url (inlineImages parts) ->
       startsWith (js "data:") url = true /\ includes (js ";base64,") url = true.
Proof.
  intros H. split; [exact (inline_images_round_trip_lemma parts H)|]. clear H.
  split.
  - induction parts as [|[mime payload|] parts IH];
      cbn [inlineImages inlinePairs List.length]; congruence.
  - intros url Hin.
    induction parts as [|[mime payload|] parts IH]; cbn [inlineImages In] in Hin.
    + contradiction.
    + destruct Hin as [<-|Hin]; [|exact (IH Hin)]. split.
      * apply startsWith_app.
      * rewrite app_assoc. apply includes_app.
    + exact (IH Hin).
Qed.

Lemma inline_images_round_trip_witness :
  map parseDataUrl
    (inlineImages [RInline (js "image/webp") (js "UklGRg=="); ROther;
                   RInline (js "image/png") (js "iVBORw0KGgo=")])
  = [mkParsed (js "image/webp") (Some (js "UklGRg=="));
     mkParsed (js "image/png") (Some (js "iVBORw0KGgo="))].
Proof.
  refine (proj1 (inline_images_round_trip
                   [RInline (js "image/webp") (js "UklGRg=="); ROther;
                    RInline (js "image/png") (js "iVBORw0KGgo=")] _)).
  cbn [inlinePairs].
  repeat (apply Forall_cons; [|]); try apply Forall_nil;
    (unfold cleanPair; cbn [fst snd]; repeat split;
     [ vm_compute; repeat constructor
     | apply not_In_forallb; reflexivity
     | apply not_In_forallb; reflexivity
     | apply not_In_forallb; reflexivity ]).
Defined.


Ltac clean_pairs :=
  cbn [inlinePairs];
  repeat (apply Forall_cons; [|]); try apply Forall_nil;
  (unfold cleanPair; cbn [fst snd]; repeat split;
   [ vm_compute; repeat constructor
   | apply not_In_forallb; reflexivity
   | apply not_In_forallb; reflexivity
   | apply not_In_forallb; reflexivity ]).

(** X7: with at least one reference image attached, generation ignores the
    selected image model, style, aspect ratio and count: the run makes one
    call, to the multimodal image model, with the reference images in the
    order of the list and then the prompt as typed, without a style prefix
    and without an aspect ratio.  Images that came out of an earlier
    response go back with the media type and payload the backend sent. *)
Theorem generate_with_references (env : Env) (w : World) (count : Count) :
  truthy (trim (prompt (session w))) = true ->
  referenceImages (session w) <> [] ->
  keyAvailable env w = true
  \/ imageModel (session w) <> js "gemini-3-pro-image-preview" ->
  backendCalls (events env w (Generate count))
  = [GenerateContent (js "gemini-2.5-flash-image")
       (Parts (map (fun refImage =>
                      InlineData (mimeType (parseDataUrl refImage))
                        (data (parseDataUrl refImage)))
                   (referenceImages (session w))
               ++ [Text (prompt (session w))]))
       None]
  /\ forall parts,
       referenceImages (session w) = inlineImages parts ->
       Forall cleanPair (inlinePairs parts) ->
       backendCalls (events env w (Generate count))
       = [GenerateContent (js "gemini-2.5-flash-image")
            (Parts (map (fun p => InlineData (fst p) (Some (snd p)))
                        (inlinePairs parts)
                    ++ [Text (prompt (session w))]))
            None].
Proof.
  intros Hp Hr Hk.
  assert (Hcalls :
    backendCalls (events env w (Generate count))
    = [GenerateContent (js "gemini-2.5-flash-image")
         (Parts (map (fun refImage =>
                        InlineData (mimeType (parseDataUrl refImage))
                          (data (parseDataUrl refImage)))
                     (referenceImages (session w))
                 ++ [Text (prompt (session w))]))
         None]).
  { unfold events, run, handler. rewrite handleGenerate_phases.
    rewrite Hp. simpl negb. cbv iota.
    rewrite (credentialBootstrap_skipped (session w) env (mkSt w []) Hk).
    unfold generateDispatch, generateRequest.
    rewrite (nonempty_length _ Hr). unfold generateCatch. unfold_monad.
    split_run; reflexivity. }
  split; [exact Hcalls|].
  intros parts Hparts Hclean. rewrite Hcalls, Hparts.
  rewrite <- (map_map parseDataUrl (fun p => InlineData (mimeType p) (data p))).
  rewrite (inline_images_round_trip_lemma parts Hclean), map_map. reflexivity.
Qed.

Lemma generate_with_references_witness :
  backendCalls (events (sampleEnv (Resolved helloResponse))
                  (applyAll [SetPrompt (js "make it night");
                             SetImageModel (js "imagen-4.0-generate-001");
                             SetReferenceImages [sampleImage]] initialWorld)
                  (Generate Four))
  = [GenerateContent (js "gemini-2.5-flash-image")
       (Parts [InlineData (js "image/jpeg") (Some (js "QUJD"));
               Text (js "make it night")])
       None].
Proof.
  refine (proj2 (generate_with_references (sampleEnv (Resolved helloResponse))
                   (applyAll [SetPrompt (js "make it night");
                              SetImageModel (js "imagen-4.0-generate-001");
                              SetReferenceImages [sampleImage]] initialWorld)
                   Four eq_refl _ (or_intror _))
                [RInline (js "image/jpeg") (js "QUJD")] eq_refl _).
  - discriminate.
  - intros H. vm_compute in H. discriminate H.
  - clean_pairs.
Defined.

(** ** The reference list *)

(** X9: removing the reference image at a position drops exactly that entry
    and keeps the others in order; a position past the end changes nothing.
    Removal reports no error and makes no backend call.  Attaching an image
    and then removing the position just after the old end gives back the
    old list, also when the list was full and the image was refused. *)
Theorem remove_reference (env : Env) (w : World) (i : nat) :
  let refs := referenceImages (session w) in
  let w' := finalWorld env w (RemoveReference i) in
  referenceImages (session w') = firstn i refs ++ skipn (S i) refs
  /\ ((i < List.length refs)%nat ->
      S (List.length (referenceImages (session w'))) = List.length refs)
  /\ ((List.length refs <= i)%nat -> referenceImages (session w') = refs)
  /\ events env w (RemoveReference i) = [SetReferenceImages (referenceImages (session w'))]
  /\ forall env1 env2 imageSrc,
       referenceImages
         (session (runMany [(env1, SetReference imageSrc);
                            (env2, RemoveReference (List.length refs))] w))
       = refs.
Proof.
  intros refs w'.
  assert (Hrefs : referenceImages (session w') = removeAt i refs) by reflexivity.
  split; [rewrite Hrefs; apply removeAt_firstn_skipn|].
  split.
  { intros Hi. rewrite Hrefs, removeAt_firstn_skipn, length_app, length_firstn,
      length_skipn. lia. }
  split; [intros Hi; rewrite Hrefs; apply removeAt_out_of_range; exact Hi|].
  split; [reflexivity|].
  intros env1 env2 imageSrc. cbn [runMany].
  assert (Hset : referenceImages (session (finalWorld env1 w (SetReference imageSrc)))
                 = (if Z.of_nat (List.length refs) <? 4 then refs ++ [imageSrc]
                    else refs)).
  { unfold finalWorld, run, handler, handleSetReference. fold refs.
    destruct (Z.of_nat (List.length refs) <? 4); reflexivity. }
  change (removeAt (List.length refs)
            (referenceImages (session (finalWorld env1 w (SetReference imageSrc))))
          = refs).
  rewrite Hset. destruct (Z.of_nat (List.length refs) <? 4).
  - apply removeAt_snoc.
  - apply removeAt_out_of_range. lia.
Qed.

Lemma remove_reference_witness :
  referenceImages
    (session (finalWorld (sampleEnv (Resolved helloResponse)) fullWorld
                (RemoveReference 1)))
  = [sampleImage; sampleImage; sampleImage]
  /\ S (List.length
          (referenceImages
             (session (finalWorld (sampleEnv (Resolved helloResponse)) fullWorld
                         (RemoveReference 1)))))
     = List.length (referenceImages (session fullWorld)).
Proof.
  destruct (remove_reference (sampleEnv (Resolved helloResponse)) fullWorld 1)
    as [H [Hlen _]].
  split; [exact H|].
  apply Hlen. simpl. lia.
Defined.

(** X10: an upload is read only when the file has an image type.  A file
    that is read and fits is appended to the reference list as read; a file
    that cannot be read leaves the list as it is and reports the read
    failure; with four images attached a readable file is refused with the
    capacity message.  An upload makes no backend call. *)
Theorem upload_reference (env : Env) (w : World) (file : File) :
  let refs := referenceImages (session w) in
  let op := UploadReference file in
  let w' := finalWorld env w op in
  backendCalls (events env w op) = []
  /\ (In (ReadFile file) (events env w op)
      <-> startsWith (js "image/") (file_type file) = true)
  /\ (startsWith (js "image/") (file_type file) = true ->
      forall dataUrl, file_read file = Resolved dataUrl ->
        ((List.length refs < 4)%nat ->
           referenceImages (session w') = refs ++ [dataUrl]
           /\ error (session w') = error (session w))
        /\ ((4 <= List.length refs)%nat ->
           referenceImages (session w') = refs
           /\ error (session w')
              = Some (js "You can only have a maximum of 4 reference images.")))
  /\ (startsWith (js "image/") (file_type file) = true ->
      forall t, file_read file = Rejected t ->
        referenceImages (session w') = refs
        /\ error (session w') = Some (js "Failed to read the image file."))
  /\ (startsWith (js "image/") (file_type file) = false ->
      referenceImages (session w') = refs
      /\ error (session w') = Some (js "Please upload a valid image file.")).
Proof.
  intros refs op w'. unfold w', op, refs.
  unfold events, finalWorld, run, handler, handleUploadReference, handleSetReference.
  unfold_monad.
  destruct (startsWith (js "image/") (file_type file)) eqn:Ht; simpl.
  - destruct (file_read file) as [b|t] eqn:Hr; simpl.
    + destruct (Z.of_nat (List.length (referenceImages (session w))) <? 4) eqn:Hl;
        simpl.
      * apply Z.ltb_lt in Hl.
        split; [reflexivity|]. split; [split; [reflexivity|auto]|].
        split; [|split; [intros _ t Ht'; discriminate Ht'|intros H; discriminate H]].
        intros _ dataUrl E. inversion E; subst. split; [|lia].
        intros _. split; reflexivity.
      * apply Z.ltb_ge in Hl.
        split; [reflexivity|]. split; [split; [reflexivity|auto]|].
        split; [|split; [intros _ t Ht'; discriminate Ht'|intros H; discriminate H]].
        intros _ dataUrl E. inversion E; subst. split; [lia|].
        intros _. split; reflexivity.
    + split; [reflexivity|]. split; [split; [reflexivity|auto]|].
      split; [intros _ dataUrl E; discriminate E|].
      split; [|intros H; discriminate H].
      intros _ t' _. split; reflexivity.
  - split; [reflexivity|].
    split; [split; [intros [H|[]]; discriminate H|intros H; discriminate H]|].
    split; [intros H; discriminate H|].
    split; [intros H; discriminate H|].
    intros _. split; reflexivity.
Qed.

Lemma upload_reference_witness :
  referenceImages
    (session (finalWorld (sampleEnv (Resolved helloResponse)) squareWorld
                (UploadReference (mkFile (js "image/png")
                                    (Resolved (js "data:image/png;base64,AAAA"))))))
  = [sampleImage; js "data:image/png;base64,AAAA"].
Proof.
  destruct (upload_reference (sampleEnv (Resolved helloResponse)) squareWorld
              (mkFile (js "image/png") (Resolved (js "data:image/png;base64,AAAA"))))
    as [_ [_ [H _]]].
  destruct (H eq_refl (js "data:image/png;base64,AAAA") eq_refl) as [Hfit _].
  exact (proj1 (Hfit ltac:(simpl; lia))).
Defined.

(** ** What the operations make of the answers *)

Ltac settle Hres :=
  repeat match goal with
         | H : backend _ _ = _ |- _ =>
             rewrite Hres in H; first [discriminate H|inversion H; subst; clear H]
         end.

Lemma countOf_app (x : N) (a b : jsstring) :
  countOf x (a ++ b) = (countOf x a + countOf x b)%nat.
Proof. unfold countOf. rewrite filter_app, length_app. reflexivity. Qed.

Lemma countOf_absent (x : N) (s : jsstring) : ~ In x s -> countOf x s = 0%nat.
Proof.
  unfold countOf. induction s as [|c s IH]; intros H; [reflexivity|].
  cbn [filter]. destruct (N.eqb_spec x c) as [->|Hne].
  - exfalso. apply H. left. reflexivity.
  - apply IH. intros Hin. apply H. right. exact Hin.
Qed.

Lemma captionPrompt_quotes (caption : jsstring) :
  ~ In cu_quote caption -> countOf cu_quote (captionPrompt caption) = 2%nat.
Proof.
  intros H. unfold captionPrompt.
  destruct (existsb isThaiLetter caption);
    rewrite !countOf_app, (countOf_absent cu_quote caption H); reflexivity.
Qed.

(** X11: when the caption call resolves, the caption handler of an image
    replaces the reference list by that image and writes a prompt in which
    the caption stands between the only two double quotes of the text: the
    quote characters of the answer have been removed, so the caption cannot
    end its own quotation. *)
Theorem caption_is_delimited (env : Env) (w : World) (imageSrc : jsstring)
    (index : N) (response : Response) :
  (forall call, backend env call = Resolved response) ->
  let caption := stripQuotes (orEmpty (responseText response)) in
  let w' := finalWorld env w (Caption imageSrc index) in
  prompt (session w') = captionPrompt caption
  /\ countOf cu_quote (prompt (session w')) = 2%nat
  /\ ~ In cu_quote caption /\ ~ In cu_apostrophe caption
  /\ referenceImages (session w') = [imageSrc]
  /\ error (session w') = None.
Proof.
  intros Hres caption w'.
  assert (Hp : prompt (session w') = captionPrompt caption)
    by exact (proj1 (caption_run_prompt env w imageSrc index response Hres)).
  split; [exact Hp|].
  split; [rewrite Hp; apply captionPrompt_quotes; apply stripQuotes_clean|].
  split; [apply stripQuotes_clean|]. split; [apply stripQuotes_clean|].
  unfold w'. run_once; settle Hres; split; reflexivity.
Qed.

Lemma caption_is_delimited_witness :
  countOf cu_quote
    (prompt (session (finalWorld
       (sampleEnv (Resolved (mkResponse [] []
                               (Some (cu_quote :: js "Fox" ++ [cu_quote; cu_quote])))))
       squareWorld (Caption sampleImage 0%N))))
  = 2%nat.
Proof.
  exact (proj1 (proj2 (caption_is_delimited
    (sampleEnv (Resolved (mkResponse [] []
                            (Some (cu_quote :: js "Fox" ++ [cu_quote; cu_quote])))))
    squareWorld sampleImage 0%N
    (mkResponse [] [] (Some (cu_quote :: js "Fox" ++ [cu_quote; cu_quote])))
    (fun _ => eq_refl)))).
Defined.

(** X12: the operations that put a text answer into the prompt (describe,
    enhance, concept) keep the prompt as it was when the backend call is
    rejected.  When the call resolves, the prompt becomes the text of the
    answer, and the empty text when the answer carries none: the previous
    prompt is then lost and no error is shown. *)
Theorem text_answer_into_prompt (env : Env) (w : World) (op : Op) :
  textOp op = true -> precondition w op = true ->
  let w' := finalWorld env w op in
  (forall t, (forall call, backend env call = Rejected t) ->
     prompt (session w') = prompt (session w))
  /\ (forall response, (forall call, backend env call = Resolved response) ->
        prompt (session w') = answerOf op response
        /\ error (session w') = None
        /\ (responseText response = None -> prompt (session w') = []))
  /\ referenceImages (session w') = referenceImages (session w)
  /\ images (session w') = images (session w).
Proof.
  intros Hop Hpre w'. unfold w'.
  destruct op; try discriminate Hop; simpl in Hpre.
  all: split; [intros t Hres|split; [intros response Hres|]].
  all: run_once; settle Hres; try discriminate Hpre.
  all: try (match goal with
            | H : negb _ = true |- _ => rewrite Hpre in H; discriminate H
            | H : isEmpty _ = true |- _ => rewrite H in Hpre; discriminate Hpre
            end).
  all: try reflexivity.
  all: try (split; reflexivity).
  all: try (split; [reflexivity|split; [reflexivity|intros ->; reflexivity]]).
Qed.

Lemma text_answer_into_prompt_witness :
  prompt (session foxWorld) = js "a red fox in snow"
  /\ prompt (session (finalWorld (sampleEnv (Resolved emptyResponse)) foxWorld Concept))
     = [].
Proof.
  split; [reflexivity|].
  destruct (text_answer_into_prompt (sampleEnv (Resolved emptyResponse)) foxWorld
              Concept eq_refl eq_refl) as [_ [H _]].
  destruct (H emptyResponse (fun _ => eq_refl)) as [_ [_ Hempty]].
  exact (Hempty eq_refl).
Defined.

(** ** Results of the image operations *)

Lemma generateDispatch_result (r : Session) (c : Z) (env : Env) (w : World)
    (l : list Event) :
  let res := generateDispatch r c env (mkSt w l) in
  let w' := world (snd res) in
  (forall m, error (session w') = Some m -> images (session w') = [])
  /\ (images (session w') <> [] -> error (session w') = None /\ fst res = Val tt).
Proof.
  unfold_dispatch. split_run; simpl; split;
    first [ intros m H; first [discriminate H|reflexivity]
          | intros H; first [contradiction|split; reflexivity] ].
Qed.

(** X13: an operation that generates images (generate, remove text, expand,
    from an image card or from the first reference image) and gets as far
    as raising the loading flag ends with the flag lowered and never shows
    images together with an error message: a reported failure leaves the
    result area empty, and images are only shown by a run that completed
    without an error. *)
Theorem images_or_error (env : Env) (w : World) (op : Op) :
  bulkOp op = true ->
  In (SetLoading true) (events env w op) ->
  let w' := finalWorld env w op in
  loading (session w') = false
  /\ loadingCount (session w') = 0
  /\ (forall m, error (session w') = Some m -> images (session w') = [])
  /\ (images (session w') <> [] ->
      error (session w') = None /\ fst (run env w op) = Val tt).
Proof.
  intros Hop. destruct op; try discriminate Hop; clear Hop.
  1: { unfold events, finalWorld.
       destruct (generate_run_cases env w count)
         as [[_ ->]|[[_ [l [Hl ->]]]|[_ [l [Hl ->]]]]]; simpl.
       - intros [H|[]]. discriminate H.
       - intros H. exfalso. rewrite Forall_forall in Hl.
         destruct (Hl _ H) as [[E|E]|E]; discriminate E.
       - intros _.
         destruct (generateDispatch_world (session w) (countValue count) env w l)
           as [H1 [H2 _]].
         destruct (generateDispatch_result (session w) (countValue count) env w l)
           as [H3 H4].
         repeat split; try assumption; apply H4; assumption. }
  all: run_once; intros Hin.
  all: try (exfalso; in_cases Hin; discriminate Hin).
  all: clear Hin; split; [reflexivity|]; split; [reflexivity|]; split;
    first [ intros m H; first [discriminate H|reflexivity]
          | intros H; first [contradiction|split; reflexivity] ].
Qed.

Lemma images_or_error_witness :
  error (session (finalWorld (sampleEnv (Rejected (ErrorObject (js "quota exceeded"))))
                    squareWorld (RemoveText sampleImage 0%N)))
  = Some (js "quota exceeded")
  /\ images (session (finalWorld (sampleEnv (Rejected (ErrorObject (js "quota exceeded"))))
                        squareWorld (RemoveText sampleImage 0%N)))
     = [].
Proof.
  assert (Hin : In (SetLoading true)
                  (events (sampleEnv (Rejected (ErrorObject (js "quota exceeded"))))
                     squareWorld (RemoveText sampleImage 0%N))).
  { vm_compute. do 4 right. left. reflexivity. }
  destruct (images_or_error (sampleEnv (Rejected (ErrorObject (js "quota exceeded"))))
              squareWorld (RemoveText sampleImage 0%N) eq_refl Hin)
    as [_ [_ [H _]]].
  split; [reflexivity|].
  exact (H (js "quota exceeded") eq_refl).
Defined.

(** X14: what generation does with an answer that carries no image.  With
    a reference image the run reports that no image was returned; without
    one, a model of the multimodal family reports that generation failed,
    but the batch model reports nothing at all: the result area stays
    empty and no error is shown.  A model that is neither is refused
    with an error and without any backend call. *)
Theorem generate_without_images (env : Env) (w : World) (count : Count)
    (response : Response) :
  (forall call, backend env call = Resolved response) ->
  noImage response ->
  truthy (trim (prompt (session w))) = true ->
  keyAvailable env w = true
  \/ imageModel (session w) <> js "gemini-3-pro-image-preview" ->
  let r := session w in
  let w' := finalWorld env w (Generate count) in
  images (session w') = []
  /\ (referenceImages r <> [] ->
      error (session w') = Some (js "Generation failed. No image returned."))
  /\ (referenceImages r = [] -> imageModel r = js "imagen-4.0-generate-001" ->
      error (session w') = None
      /\ fst (run env w (Generate count)) = Val tt)
  /\ (referenceImages r = [] -> imageModel r <> js "imagen-4.0-generate-001" ->
      includes (js "gemini") (imageModel r) || includes (js "flash") (imageModel r)
      || includes (js "pro") (imageModel r) = true ->
      error (session w')
      = Some (js "Generation failed. Ensure your API Key is valid and the model supports image generation."))
  /\ (referenceImages r = [] -> imageModel r <> js "imagen-4.0-generate-001" ->
      includes (js "gemini") (imageModel r) || includes (js "flash") (imageModel r)
      || includes (js "pro") (imageModel r) = false ->
      error (session w') <> None
      /\ backendCalls (events env w (Generate count)) = []).
Proof.
  intros Hres [Hgen Hinl] Hp Hk r w'. unfold w', r.
  unfold events, finalWorld, run, handler. rewrite handleGenerate_phases.
  rewrite Hp. simpl negb. cbv iota.
  rewrite (credentialBootstrap_skipped (session w) env (mkSt w []) Hk).
  unfold generateDispatch, generateRequest, generateCatch. unfold_monad.
  destruct (referenceImages (session w)) as [|ref refs] eqn:Hrefs.
  - simpl.
    destruct (jseqb (imageModel (session w)) (js "imagen-4.0-generate-001")) eqn:Hm;
      simpl.
    + apply jseqb_eq in Hm. rewrite !Hres. simpl. rewrite Hgen. simpl.
      split; [reflexivity|]. split; [intros H; contradiction|].
      split; [intros _ _; split; reflexivity|].
      split; intros _ H; contradiction.
    + assert (Hne : imageModel (session w) <> js "imagen-4.0-generate-001").
      { intros E. rewrite E in Hm. discriminate Hm. }
      destruct (includes (js "gemini") (imageModel (session w))
                || includes (js "flash") (imageModel (session w))
                || includes (js "pro") (imageModel (session w))) eqn:Hfam; simpl.
      * rewrite !Hres. simpl. rewrite Hinl. simpl.
        split; [reflexivity|]. split; [intros H; contradiction|].
        split; [intros _ H; contradiction|].
        split; [intros _ _ _; reflexivity|intros _ _ H; discriminate H].
      * split_run.
        all: split; [reflexivity|]. all: split; [intros H; contradiction|].
        all: split; [intros _ H; contradiction|].
        all: split; [intros _ _ H; discriminate H|intros _ _ _].
        all: split; [intros H; discriminate H|reflexivity].
  - simpl. rewrite !Hres. simpl. rewrite Hinl. simpl.
    split; [reflexivity|]. split; [intros _; reflexivity|].
    split; [intros H; discriminate H|].
    split; intros H; discriminate H.
Qed.

Lemma generate_without_images_witness :
  error (session (finalWorld (sampleEnv (Resolved emptyResponse)) foxWorld
                    (Generate Four)))
  = None
  /\ images (session (finalWorld (sampleEnv (Resolved emptyResponse)) foxWorld
                        (Generate Four)))
     = [].
Proof.
  assert (Hne : imageModel (session foxWorld) <> js "gemini-3-pro-image-preview").
  { intros H. vm_compute in H. discriminate H. }
  destruct (generate_without_images (sampleEnv (Resolved emptyResponse)) foxWorld Four
              emptyResponse (fun _ => eq_refl) (conj eq_refl eq_refl) eq_refl
              (or_intror Hne))
    as [Himg [_ [Hsilent _]]].
  split; [exact (proj1 (Hsilent eq_refl eq_refl))|exact Himg].
Defined.

(** X15: removing the text of an image replaces the prompt and the
    reference list before the backend is called, so they stay replaced
    when the call fails; the one call carries that image and the fixed
    instruction.  The caption handler replaces them only after its call
    has resolved: a rejected caption call leaves both as they were. *)
Theorem remove_text_replaces_first (env : Env) (w : World) (imageSrc : jsstring)
    (index : N) :
  let op := RemoveText imageSrc index in
  let w' := finalWorld env w op in
  referenceImages (session w') = [imageSrc]
  /\ prompt (session w') = removeTextPrompt
  /\ backendCalls (events env w op)
     = [GenerateContent (js "gemini-2.5-flash-image")
          (Parts [InlineData (mimeType (parseDataUrl imageSrc))
                    (data (parseDataUrl imageSrc));
                  Text removeTextPrompt])
          None]
  /\ processingAction (session w') = None
  /\ forall t, (forall call, backend env call = Rejected t) ->
       let w2 := finalWorld env w (Caption imageSrc index) in
       referenceImages (session w2) = referenceImages (session w)
       /\ prompt (session w2) = prompt (session w)
       /\ images (session w2) = images (session w).
Proof.
  intros op w'. unfold w', op. clear w' op.
  split; [run_once; reflexivity|].
  split; [run_once; reflexivity|].
  split; [run_once; reflexivity|].
  split; [run_once; reflexivity|].
  intros t Hres.
  run_once; settle Hres; repeat split; reflexivity.
Qed.

Lemma remove_text_replaces_first_witness :
  referenceImages
    (session (finalWorld (sampleEnv (Rejected (ErrorObject (js "quota exceeded"))))
                fullWorld (Caption sampleImage 0%N)))
  = referenceImages (session fullWorld)
  /\ referenceImages
       (session (finalWorld (sampleEnv (Rejected (ErrorObject (js "quota exceeded"))))
                   fullWorld (RemoveText sampleImage 0%N)))
     = [sampleImage].
Proof.
  destruct (remove_text_replaces_first
              (sampleEnv (Rejected (ErrorObject (js "quota exceeded"))))
              fullWorld sampleImage 0%N) as [Hrefs [_ [_ [_ Hcaption]]]].
  split; [|exact Hrefs].
  exact (proj1 (Hcaption (ErrorObject (js "quota exceeded")) (fun _ => eq_refl))).
Defined.

Ltac expand_run :=
  unfold events, finalWorld;
  match goal with |- context [run ?e ?w0 ?o] =>
    remember (run e w0 o) as R eqn:E; revert E end;
  unfold run, handler, handleExpandImage; unfold_monad; simpl.

Lemma expandImage_loaded (env : Env) (st : St) (imageSrc ratio : jsstring)
    (width height : Z) :
  loadImage env imageSrc = Some (width, height) -> canvasContext env = true ->
  expandImage imageSrc ratio env st
  = (let p := parseDataUrl (toDataURL env imageSrc
                              (expandGeometry width height ratio)) in
     response <- callBackend
       (GenerateContent (js "gemini-2.5-flash-image")
          (Parts [InlineData (mimeType p) (data p); Text (expandPrompt ratio)])
          None) ;;
     let images := inlineImages (candidateParts response) in
     if negb (isEmpty images) then ret images
     else throw (ErrorObject (js "Expansion failed."))) env st.
Proof.
  intros Hload Hctx. unfold expandImage, bind at 1, getEnv.
  rewrite Hload, Hctx. reflexivity.
Qed.

(** X16: expanding an image fails before any backend call when the image
    cannot be loaded or the canvas gives no drawing context, each with its
    own message.  Otherwise the one call carries the composite that the
    canvas exports for the computed geometry, and the instruction naming
    the target ratio; an answer without an image is reported as a failed
    expansion.  In every case the result area is cleared first. *)
Theorem expand_failures (env : Env) (w : World) (imageSrc : jsstring) (index : N)
    (targetAspectRatio : jsstring) :
  let op := ExpandImage imageSrc index targetAspectRatio in
  let w' := finalWorld env w op in
  (loadImage env imageSrc = None ->
     error (session w') = Some (js "Failed to load image.")
     /\ images (session w') = []
     /\ backendCalls (events env w op) = [])
  /\ (forall size, loadImage env imageSrc = Some size -> canvasContext env = false ->
        error (session w') = Some (js "Could not get canvas context")
        /\ images (session w') = []
        /\ backendCalls (events env w op) = [])
  /\ (forall width height,
        loadImage env imageSrc = Some (width, height) -> canvasContext env = true ->
        let composite :=
          parseDataUrl (toDataURL env imageSrc
                          (expandGeometry width height targetAspectRatio)) in
        backendCalls (events env w op)
        = [GenerateContent (js "gemini-2.5-flash-image")
             (Parts [InlineData (mimeType composite) (data composite);
                     Text (js "Expand the scene seamlessly to " ++ targetAspectRatio
                           ++ js ". Match original style.")])
             None]
        /\ forall response,
             (forall call, backend env call = Resolved response) ->
             (inlineImages (candidateParts response) = [] ->
                error (session w') = Some (js "Expansion failed.")
                /\ images (session w') = [])
             /\ (inlineImages (candidateParts response) <> [] ->
                 error (session w') = None
                 /\ images (session w') = inlineImages (candidateParts response))).
Proof.
  intros op w'. unfold w', op. clear w' op.
  split; [intros Hload|split; [intros [width height] Hload Hctx
                              |intros width height Hload Hctx]].
  - expand_run. rewrite Hload. simpl. intros ->. simpl. repeat split; reflexivity.
  - expand_run. rewrite Hload, Hctx. simpl. intros ->. simpl.
    repeat split; reflexivity.
  - remember (parseDataUrl (toDataURL env imageSrc
                (expandGeometry width height targetAspectRatio))) as p eqn:Hp.
    unfold events, finalWorld.
    match goal with |- context [run ?e ?w0 ?o] =>
      remember (run e w0 o) as R eqn:E; revert E end.
    unfold run, handler, handleExpandImage.
    remember (expandImage imageSrc targetAspectRatio) as ex eqn:Hex.
    unfold_monad. simpl. subst ex.
    rewrite (expandImage_loaded env _ imageSrc targetAspectRatio width height
               Hload Hctx).
    cbv zeta. rewrite <- Hp. clear Hp.
    unfold_monad. simpl.
    destruct (backend env _) as [resp|t] eqn:Hb.
    + destruct (inlineImages (candidateParts resp)) as [|img imgs] eqn:Himgs;
        simpl; intros ->; simpl; (split; [reflexivity|]);
        intros response Hres; rewrite Hres in Hb; inversion Hb; subst resp;
        rewrite Himgs; (split; intros Himg);
        first [contradiction|discriminate Himg|split; reflexivity].
    + destruct t; simpl; intros ->; simpl; (split; [reflexivity|]);
        intros response Hres; rewrite Hres in Hb; discriminate Hb.
Qed.

Lemma expand_failures_witness :
  error (session (finalWorld
    (mkEnv (fun _ => Resolved helloResponse) false (fun _ => js "A photo of")
       (fun _ => None) None BrokerAbsent None true (fun _ => None) true
       (fun _ _ => js "data:image/png;base64,AAAA"))
    squareWorld (ExpandImage sampleImage 0%N (js "9:16"))))
  = Some (js "Failed to load image.").
Proof.
  exact (proj1 (proj1 (expand_failures
    (mkEnv (fun _ => Resolved helloResponse) false (fun _ => js "A photo of")
       (fun _ => None) None BrokerAbsent None true (fun _ => None) true
       (fun _ _ => js "data:image/png;base64,AAAA"))
    squareWorld sampleImage 0%N (js "9:16")) eq_refl)).
Defined.

(** ** The story writer *)

(** X17: the two components do not reach into each other.  An operation of
    the main panel leaves the whole state of the story writer as it was.
    An operation of the story writer changes nothing of the main panel
    except, when it posts a text, the prompt: images, reference images,
    error, settings and flags stay as they were. *)
Theorem components_are_isolated (env : Env) (w : World) (op : Op) :
  (storyOp op = false -> writer (finalWorld env w op) = writer w)
  /\ (storyOp op = true ->
      session (finalWorld env w op) = session w
      \/ exists text,
           session (finalWorld env w op) = session (apply (SetPrompt text) w)).
Proof.
  split; intros Hop; destruct op; try discriminate Hop; clear Hop.
  4: { unfold finalWorld.
       destruct (generate_run_cases env w count)
         as [[_ ->]|[[_ [l [Hl ->]]]|[_ [l [Hl ->]]]]].
       - reflexivity.
       - reflexivity.
       - apply (generateDispatch_world (session w) (countValue count) env w l). }
  all: run_once.
  all: first [reflexivity|left; reflexivity|right; eexists; reflexivity].
Qed.

Lemma components_are_isolated_witness :
  writer (finalWorld (sampleEnv (Resolved helloResponse)) (captionWorld 60)
            (Describe sampleImage 0%N))
  = writer (captionWorld 60)
  /\ images (session (finalWorld (sampleEnv (Resolved helloResponse))
                        (captionWorld 60) Polish))
     = images (session (captionWorld 60)).
Proof.
  split.
  - exact (proj1 (components_are_isolated (sampleEnv (Resolved helloResponse))
                    (captionWorld 60) (Describe sampleImage 0%N)) eq_refl).
  - destruct (proj2 (components_are_isolated (sampleEnv (Resolved helloResponse))
                       (captionWorld 60) Polish) eq_refl) as [H|[text H]];
      rewrite H; reflexivity.
Defined.

(** X18: the new Thai caption starts both of its backend calls, the caption
    and the image design, whatever either of them answers.  The prompt is
    written only when both resolve, as the design text followed by the
    quoted caption; when either is rejected the prompt stays as it was and
    the page is not scrolled; when both are rejected, the message shown is
    the one of the call that settled first. *)
Theorem new_thai_caption_parallel (env : Env) (w : World) :
  truthy (trim (story (writer w))) = true ->
  let r := session w in
  let rs := writer w in
  let styleName :=
    match IMAGE_STYLES_name env (style r) with
    | Some name => if truthy name then name else js "Photorealistic"
    | None => js "Photorealistic"
    end in
  let captionCall :=
    GenerateContent (reasoningModel r)
      (Plain (js "Summarize this story in ONE short sentence in Thai. Max 60 chars."
              ++ [cu_newline] ++ js "Story: " ++ story rs)) None in
  let designCall :=
    GenerateContent (reasoningModel r)
      (Plain (js "Create an image prompt based on this story in " ++ styleName
              ++ js " style." ++ [cu_newline] ++ js "Story: " ++ story rs)) None in
  let evs := events env w NewThaiCaption in
  let w' := finalWorld env w NewThaiCaption in
  backendCalls evs = [captionCall; designCall]
  /\ loadingAction (writer w') = None
  /\ (forall t,
        backend env captionCall = Rejected t \/ backend env designCall = Rejected t ->
        prompt (session w') = prompt (session w) /\ ~ In ScrollIntoView evs)
  /\ (forall m1 m2,
        backend env captionCall = Rejected (ErrorObject m1) ->
        backend env designCall = Rejected (ErrorObject m2) ->
        storyError (writer w') = Some (if secondSettlesFirst env then m2 else m1))
  /\ (forall c d,
        backend env captionCall = Resolved c ->
        backend env designCall = Resolved d ->
        prompt (session w')
        = trim (orEmpty (responseText d)) ++ js " Thai text in the image: "
          ++ [cu_quote] ++ trim (orEmpty (responseText c)) ++ [cu_quote]
          ++ thaiCaptionSuffix).
Proof.
  intros Hpre. cbv zeta.
  unfold events, finalWorld.
  remember (run env w NewThaiCaption) as R eqn:E. revert E.
  unfold run, handler, handleNewThaiCaption. rewrite Hpre. simpl negb. cbv iota.
  unfold generateStoryCaption, generateDesignFromStory.
  remember (match IMAGE_STYLES_name env (style (session w)) with
            | Some name => if truthy name then name else js "Photorealistic"
            | None => js "Photorealistic"
            end) as styleName eqn:Hstyle.
  unfold handlePostStoryToPrompt. unfold_monad. simpl. rewrite <- Hstyle.
  destruct (secondSettlesFirst env) eqn:Hfirst.
  all: repeat split_step; simpl.
  all: intros ->; simpl.
  all: split; [reflexivity|]; split; [try reflexivity|].
  all: try (split; [|split]).
  all: try (intros ? [H|H]; try congruence;
            (split; [reflexivity|intros Hin; in_cases Hin; discriminate Hin])).
  all: try (intros m1 m2 H1 H2; try congruence).
  all: try (intros c' d' H1 H2; try congruence).
  all: try (inversion H1; inversion H2; subst; reflexivity).
Qed.

Lemma new_thai_caption_parallel_witness :
  loadingAction (writer (finalWorld (sampleEnv (Rejected (ErrorObject (js "quota exceeded"))))
                           (captionWorld 60) NewThaiCaption))
  = None
  /\ storyError (writer (finalWorld (sampleEnv (Rejected (ErrorObject (js "quota exceeded"))))
                           (captionWorld 60) NewThaiCaption))
     = Some (js "quota exceeded").
Proof.
  destruct (new_thai_caption_parallel
              (sampleEnv (Rejected (ErrorObject (js "quota exceeded"))))
              (captionWorld 60) eq_refl) as [_ [H1 [_ [H2 _]]]].
  split; [exact H1|].
  exact (H2 (js "quota exceeded") (js "quota exceeded") eq_refl eq_refl).
Defined.

(** X19: the idea button needs no story.  When the call resolves, the
    sentence of the answer, trimmed, is appended to the trimmed story after
    one separator, a line feed for the Thai poem style and a space
    otherwise; a blank story is replaced by the sentence alone.  When the
    call is rejected the story is left as it was.  Nothing of the main
    panel changes either way. *)
Theorem idea_appends_sentence (env : Env) (w : World) :
  let rs := writer w in
  let w' := finalWorld env w Idea in
  let separator :=
    if jseqb (storyStyle rs) (js "thai_poem") then cu_newline else cu_space in
  List.length (backendCalls (events env w Idea)) = 1%nat
  /\ session w' = session w
  /\ loadingAction (writer w') = None
  /\ (forall t, (forall call, backend env call = Rejected t) ->
        story (writer w') = story rs)
  /\ (forall response, (forall call, backend env call = Resolved response) ->
        let sentence := trim (orEmpty (responseText response)) in
        storyError (writer w') = None
        /\ (truthy (trim (story rs)) = true ->
            story (writer w') = trim (story rs) ++ separator :: sentence)
        /\ (truthy (trim (story rs)) = false -> story (writer w') = sentence)).
Proof.
  cbv zeta. split; [run_once; reflexivity|].
  split; [run_once; reflexivity|].
  split; [run_once; reflexivity|].
  split; [intros t Hres|intros response Hres].
  - run_once; settle Hres; reflexivity.
  - unfold finalWorld.
    remember (run env w Idea) as R eqn:E. revert E.
    unfold run, handler, handleIdea. unfold_monad. simpl. rewrite Hres. simpl.
    destruct (jseqb (storyStyle (writer w)) (js "thai_poem")); simpl;
      intros ->; simpl;
      (split; [reflexivity|]);
      destruct (truthy (trim (story (writer w)))); split; intros H;
      first [discriminate H|reflexivity].
Qed.

Lemma idea_appends_sentence_witness :
  story (writer (finalWorld (sampleEnv (Resolved helloResponse)) (captionWorld 60) Idea))
  = js "Once upon a time Hello world".
Proof.
  destruct (idea_appends_sentence (sampleEnv (Resolved helloResponse)) (captionWorld 60))
    as [_ [_ [_ [_ H]]]].
  destruct (H helloResponse (fun _ => eq_refl)) as [_ [Happend _]].
  exact (Happend eq_refl).
Defined.

(** X20: saving downloads the story under a name that always ends with
    the text extension: the name of the field when it already ends with
    it, and otherwise that name with the extension added.  The content is
    the story as it stands, and nothing is downloaded for an empty
    story. *)
Theorem save_file_name (env : Env) (w : World) :
  let rs := writer w in
  (truthy (story rs) = true ->
     exists name,
       events env w SaveFile = [SetStoryError None; Download name (story rs)]
       /\ endsWith (js ".txt") name = true
       /\ (endsWith (js ".txt") (fileName rs) = true -> name = fileName rs)
       /\ (endsWith (js ".txt") (fileName rs) = false ->
           name = fileName rs ++ js ".txt"))
  /\ (truthy (story rs) = false ->
      forall name content, ~ In (Download name content) (events env w SaveFile)).
Proof.
  cbv zeta. split; intros Hs.
  - unfold events, run, handler, handleSaveFile. rewrite Hs. unfold_monad. simpl.
    destruct (endsWith (js ".txt") (fileName (writer w))) eqn:He.
    + exists (fileName (writer w)). split; [reflexivity|].
      split; [exact He|]. split; [reflexivity|intros H; discriminate H].
    + exists (fileName (writer w) ++ js ".txt"). split; [reflexivity|].
      split; [apply endsWith_app|]. split; [intros H; discriminate H|reflexivity].
  - unfold events, run, handler, handleSaveFile. rewrite Hs. unfold_monad. simpl.
    intros name content [H|[]]. discriminate H.
Qed.

Lemma save_file_name_witness :
  events (sampleEnv (Resolved helloResponse))
    (applyAll [SetStory (js "Once upon a time")]
       (mkWorld initialSession
          (mkStory [] (js "tale") (js "thai") (js "unspecified") None None) [] None))
    SaveFile
  = [SetStoryError None; Download (js "tale.txt") (js "Once upon a time")].
Proof.
  destruct (proj1 (save_file_name (sampleEnv (Resolved helloResponse))
                     (applyAll [SetStory (js "Once upon a time")]
                        (mkWorld initialSession
                           (mkStory [] (js "tale") (js "thai") (js "unspecified")
                              None None) [] None)))
              eq_refl) as [name [Hev [_ [_ Hadd]]]].
  rewrite Hev, (Hadd eq_refl). reflexivity.
Defined.

(** ** Text areas and the file dialog *)

Lemma firstn_exact {A} (a b : list A) : firstn (List.length a) (a ++ b) = a.
Proof. induction a as [|x a IH]; simpl; [reflexivity|]. rewrite IH. reflexivity. Qed.

Lemma skipn_exact {A} (a b : list A) : skipn (List.length a) (a ++ b) = b.
Proof. induction a as [|x a IH]; simpl; [reflexivity|exact IH]. Qed.

Lemma splice_spec (old middle : jsstring) (start stop : nat) :
  (start <= List.length old)%nat ->
  spliced old (firstn start old ++ middle ++ skipn stop old) middle start stop.
Proof.
  intros Hs.
  assert (Hlen : List.length (firstn start old) = start)
    by (rewrite length_firstn; lia).
  unfold spliced. split; [|split].
  - rewrite <- Hlen at 1. rewrite firstn_exact. reflexivity.
  - rewrite <- Hlen at 1. rewrite skipn_exact. apply firstn_exact.
  - rewrite app_assoc.
    replace (start + List.length middle)%nat
      with (List.length (firstn start old ++ middle))
      by (rewrite length_app, Hlen; reflexivity).
    apply skipn_exact.
Qed.

(** X21: inserting a reference tag replaces the selected part of the
    prompt by the tag with one space on each side: the text before the
    selection and the text after it are kept, and the position the handler
    assigns to the caret is the one just after the trailing space.  With an
    empty selection nothing of the prompt is lost.  Without a mounted text
    area the handler does nothing. *)
Theorem insert_ref_tag (env : Env) (w : World) (t : Textarea) (tag : jsstring) :
  (selectionStart t <= selectionEnd t)%nat ->
  (selectionEnd t <= List.length (value t))%nat ->
  let res := exec (handleInsertRefTag (Some t) tag) env w in
  let newText := prompt (session (world (snd res))) in
  let middle := cu_space :: tag ++ [cu_space] in
  fst res = Val (Some (selectionStart t + List.length middle)%nat)
  /\ spliced (value t) newText middle (selectionStart t) (selectionEnd t)
  /\ (List.length newText + (selectionEnd t - selectionStart t)
      = List.length (value t) + List.length tag + 2)%nat
  /\ (selectionStart t = selectionEnd t ->
      newText = firstn (selectionStart t) (value t) ++ middle
                ++ skipn (selectionStart t) (value t))
  /\ exec (handleInsertRefTag None tag) env w = (Val None, mkSt w []).
Proof.
  intros Hse Hel. cbv zeta.
  assert (Hnew : prompt (session (world (snd (exec (handleInsertRefTag (Some t) tag)
                                                env w))))
                 = firstn (selectionStart t) (value t)
                   ++ (cu_space :: tag ++ [cu_space])
                   ++ skipn (selectionEnd t) (value t)).
  { unfold exec, handleInsertRefTag. unfold_monad. cbn [snd world session prompt apply withSession].
    change (js " ") with [cu_space]. cbn [app]. rewrite <- !app_assoc. reflexivity. }
  rewrite Hnew.
  split.
  { unfold exec, handleInsertRefTag. unfold_monad. cbn [fst].
    rewrite length_cons, length_app. cbn [List.length].
    do 2 f_equal. lia. }
  split; [apply splice_spec; lia|].
  split.
  { rewrite !length_app, length_firstn, length_skipn. cbn [List.length].
    rewrite length_app. cbn [List.length]. lia. }
  split; [intros <-; reflexivity|reflexivity].
Qed.

Lemma insert_ref_tag_witness :
  prompt (session (world (snd (exec
    (handleInsertRefTag (Some (mkTextarea 4 9 (js "the grey fox"))) (js "[ref-1]"))
    (sampleEnv (Resolved helloResponse)) initialWorld))))
  = js "the  [ref-1] fox"
  /\ fst (exec
       (handleInsertRefTag (Some (mkTextarea 4 9 (js "the grey fox"))) (js "[ref-1]"))
       (sampleEnv (Resolved helloResponse)) initialWorld)
     = Val (Some 13%nat).
Proof.
  split; [reflexivity|].
  refine (proj1 (insert_ref_tag (sampleEnv (Resolved helloResponse)) initialWorld
                   (mkTextarea 4 9 (js "the grey fox")) (js "[ref-1]") _ _)).
  - simpl. lia.
  - simpl. lia.
Defined.

(** X22: what the three buttons of the file dialog do with the text of the
    opened file.  Each of them closes the dialog and forgets the text, so
    a second press does nothing.  Overwrite makes the text the story;
    append puts it after the story, on a new line unless the story is
    empty; insert puts it at the caret of the story text area.  A file
    that was read as the empty text opens the dialog, but then none of
    the three buttons does anything: the dialog stays open until it is
    cancelled. *)
Theorem file_open_modes (p : Pad) (mode : OpenMode) (selected : option jsstring)
    (textarea : option Textarea) :
  (forall text,
     text <> [] ->
     let q := handleFileChange text p in
     let p' := handleFileOpen mode selected textarea q in
     pad_showFileOptions q = true
     /\ pad_showFileOptions p' = false
     /\ pad_fileContent p' = None
     /\ (forall mode2 selected2 textarea2,
           handleFileOpen mode2 selected2 textarea2 p' = p')
     /\ (mode = Overwrite -> pad_story p' = text)
     /\ (mode = Append ->
         pad_story p'
         = (if truthy (pad_story p) then pad_story p ++ [cu_newline] else []) ++ text)
     /\ (mode = Insert ->
         forall t, textarea = Some t ->
           (selectionStart t <= List.length (value t))%nat ->
           spliced (value t) (pad_story p') text (selectionStart t) (selectionStart t))
     /\ (mode = Insert -> textarea = None -> pad_story p' = pad_story p)
     /\ (mode <> Overwrite \/ selected = None -> pad_fileName p' = pad_fileName p))
  /\ (let q := handleFileChange [] p in
      pad_showFileOptions q = true
      /\ handleFileOpen mode selected textarea q = q
      /\ pad_showFileOptions (cancelFileOptions q) = false).
Proof.
  split.
  - intros text Hne. cbv zeta.
    destruct text as [|c text]; [contradiction|].
    split; [reflexivity|].
    split; [destruct mode, textarea; reflexivity|].
    split; [destruct mode, textarea; reflexivity|].
    split; [intros; destruct mode, textarea; reflexivity|].
    split; [intros ->; reflexivity|].
    split; [intros ->; reflexivity|].
    split.
    { intros -> t -> Hs. unfold handleFileOpen, handleFileChange.
      cbn [pad_fileContent truthy negb pad_story].
      apply splice_spec. exact Hs. }
    split; [intros -> ->; reflexivity|].
    intros [Hm| ->]; destruct mode, textarea; try reflexivity; congruence.
  - cbv zeta. repeat split; reflexivity.
Qed.

Lemma file_open_modes_witness :
  pad_story (handleFileOpen Append None None
               (handleFileChange (js "The end.")
                  (mkPad (js "Once upon a time") (js "story.txt") None false)))
  = js "Once upon a time" ++ [cu_newline] ++ js "The end.".
Proof.
  assert (Hne : js "The end." <> []) by discriminate.
  destruct (proj1 (file_open_modes
                     (mkPad (js "Once upon a time") (js "story.txt") None false)
                     Append None None) (js "The end.") Hne)
    as [_ [_ [_ [_ [_ [Happend _]]]]]].
  exact (Happend eq_refl).
Defined.

(** ** Controls and guards *)

(** X23: how the disabled state of the buttons relates to the guards of
    the handlers behind them.  When the generate buttons and the buttons
    that work on the first reference image can be pressed, the guard of
    their handler holds, so its message cannot appear from these buttons;
    the button for four images can be pressed only when the handler will
    ask for four.  The buttons that are disabled on an empty text but
    guarded on a blank one (enhance, concept, copy prompt, and the
    backend operations of the story writer) reach the guard message exactly
    for a text that is not empty but consists of white space. *)
Theorem controls_and_guards (w : World) (op : Op) :
  controlEnabled w op = Some true ->
  let r := session w in
  let rs := writer w in
  (match op with
   | Generate _ | DescribeRef1 | CaptionRef1 | RemoveTextRef1 =>
       precondition w op = true
   | EnhancePrompt | Concept | CopyPrompt =>
       prompt r <> []
       /\ (precondition w op = false <-> trim (prompt r) = [])
   | CustomCaption | ThaiCaption | NewThaiCaption | Polish | Translate _ =>
       story rs <> []
       /\ (precondition w op = false <-> trim (story rs) = [])
   | _ => True
   end)
  /\ (op = Generate Four ->
      effectiveCount r 4 = 4 /\ loading r = false /\ referenceImages r = []).
Proof.
  intros Hc. cbv zeta. split.
  - destruct op; try exact I; try reflexivity; simpl in Hc; simpl.
    + destruct count; injection Hc as H;
        repeat (apply andb_true_iff in H; destruct H as [? H]);
        apply negb_true_iff, orb_false_iff in H; destruct H as [_ H];
        apply negb_false_iff in H; exact H.
    + injection Hc as H. rewrite negb_involutive in H.
      split; [intros E; rewrite E in H; discriminate H|].
      destruct (trim (prompt (session w))); simpl; split; congruence.
    + injection Hc as H.
      apply negb_true_iff, orb_false_iff in H. destruct H as [H _].
      apply negb_false_iff in H.
      destruct (referenceImages (session w)); [discriminate H|reflexivity].
    + injection Hc as H.
      apply negb_true_iff, orb_false_iff in H. destruct H as [H _].
      apply negb_false_iff in H.
      destruct (referenceImages (session w)); [discriminate H|reflexivity].
    + injection Hc as H.
      apply negb_true_iff, orb_false_iff in H. destruct H as [H _].
      apply negb_false_iff in H.
      destruct (referenceImages (session w)); [discriminate H|reflexivity].
    + injection Hc as H.
      apply negb_true_iff, orb_false_iff in H. destruct H as [H _].
      apply negb_false_iff in H.
      split; [intros E; rewrite E in H; discriminate H|].
      destruct (trim (prompt (session w))); simpl; split; congruence.
    + injection Hc as H.
      apply negb_true_iff, orb_false_iff in H. destruct H as [H _].
      apply negb_false_iff in H.
      split; [intros E; rewrite E in H; discriminate H|].
      destruct (trim (prompt (session w))); simpl; split; congruence.
    + injection Hc as H.
      apply negb_true_iff, orb_false_iff in H. destruct H as [H _].
      apply negb_false_iff in H.
      split; [intros E; rewrite E in H; discriminate H|].
      destruct (trim (story (writer w))); simpl; split; congruence.
    + injection Hc as H.
      apply negb_true_iff, orb_false_iff in H. destruct H as [H _].
      apply negb_false_iff in H.
      split; [intros E; rewrite E in H; discriminate H|].
      destruct (trim (story (writer w))); simpl; split; congruence.
    + injection Hc as H.
      apply negb_true_iff, orb_false_iff in H. destruct H as [H _].
      apply negb_false_iff in H.
      split; [intros E; rewrite E in H; discriminate H|].
      destruct (trim (story (writer w))); simpl; split; congruence.
    + injection Hc as H.
      apply negb_true_iff, orb_false_iff in H. destruct H as [H _].
      apply negb_false_iff in H.
      split; [intros E; rewrite E in H; discriminate H|].
      destruct (trim (story (writer w))); simpl; split; congruence.
    + destruct targetLanguage; injection Hc as H;
        apply negb_true_iff, orb_false_iff in H; destruct H as [H _];
        apply negb_false_iff in H;
        (split; [intros E; rewrite E in H; discriminate H|]);
        destruct (trim (story (writer w))); simpl; split; congruence.
  - intros ->. simpl in Hc. injection Hc as H.
    apply andb_true_iff in H. destruct H as [Hr H].
    apply negb_true_iff, orb_false_iff in H. destruct H as [Hl _].
    unfold generateFourRendered, isGeminiImageModel in Hr.
    apply negb_true_iff in Hr.
    split; [unfold effectiveCount; rewrite orb_comm; rewrite Hr; reflexivity|].
    split; [exact Hl|].
    apply orb_false_iff in Hr. destruct Hr as [_ Hr].
    destruct (referenceImages (session w)); [reflexivity|].
    apply Z.ltb_ge in Hr. simpl List.length in Hr. lia.
Qed.

Lemma controls_and_guards_witness :
  precondition (applyAll [SetPrompt (js "   ")] initialWorld) EnhancePrompt = false
  /\ controlEnabled (applyAll [SetPrompt (js "   ")] initialWorld) EnhancePrompt
     = Some true.
Proof.
  split; [|reflexivity].
  destruct (proj1 (controls_and_guards (applyAll [SetPrompt (js "   ")] initialWorld)
                     EnhancePrompt eq_refl)) as [_ H].
  apply (proj2 H). reflexivity.
Defined.

(** X24: Clear undoes Send.  After Clear the key field is empty and no key
    is stored, whatever key had been applied before, and Send on the
    emptied field is refused.  The active key becomes the configured
    default, trimmed; a default that is blank or is the placeholder text of
    the field is taken as it is (the empty key when none is configured).
    Every backend call of the operations that follow carries that key. *)
Theorem clear_key_restores_default (env0 : Env) (w : World)
    (steps : list (Env * Op)) :
  Forall (fun s => snd s <> SendKey /\ snd s <> ClearKey) steps ->
  let d := orEmpty (env_API_KEY env0) in
  let w1 := finalWorld env0 w ClearKey in
  let w' := runMany steps w1 in
  apiKeyInput (session w1) = []
  /\ precondition w1 SendKey = false
  /\ storedKey w' = None
  /\ (trim d <> [] -> d <> js "no API key" -> currentActiveApiKey w' = trim d)
  /\ (trim d = [] \/ d = js "no API key" -> currentActiveApiKey w' = d)
  /\ forall env op k call,
       In (BackendCall k call) (events env w' op) -> k = currentActiveApiKey w1.
Proof.
  intros Hsteps. cbv zeta.
  destruct (runMany_key_frame steps (finalWorld env0 w ClearKey) Hsteps) as [F1 F2].
  assert (Hclear :
    currentActiveApiKey (finalWorld env0 w ClearKey)
    = (if truthy (orEmpty (env_API_KEY env0))
          && negb (jseqb (orEmpty (env_API_KEY env0)) (js "no API key"))
          && (0 <? Z.of_nat (List.length (trim (orEmpty (env_API_KEY env0)))))
       then trim (orEmpty (env_API_KEY env0)) else orEmpty (env_API_KEY env0))
    /\ storedKey (finalWorld env0 w ClearKey) = None
    /\ apiKeyInput (session (finalWorld env0 w ClearKey)) = []).
  { unfold finalWorld, run, handler, handleClearKey. unfold_monad.
    destruct (_ && _); repeat split; reflexivity. }
  destruct Hclear as [Hactive [Hstored Hfield]].
  split; [exact Hfield|].
  split; [unfold precondition; rewrite Hfield; reflexivity|].
  split; [rewrite F2; exact Hstored|].
  split; [|split].
  - intros Ht Hn. rewrite F1, Hactive.
    rewrite (jseqb_false _ _ Hn).
    destruct (orEmpty (env_API_KEY env0)) as [|c d] eqn:Hd;
      [exfalso; apply Ht; reflexivity|].
    destruct (trim (c :: d)) eqn:Htrim; [exfalso; apply Ht; reflexivity|].
    reflexivity.
  - intros Hblank. rewrite F1, Hactive.
    destruct Hblank as [Ht|Hn].
    + rewrite Ht. cbn [List.length Z.of_nat Z.ltb Z.compare].
      rewrite andb_false_r. reflexivity.
    + rewrite Hn at 2. rewrite jseqb_refl. cbn [negb].
      rewrite andb_false_r. reflexivity.
  - intros env op k call Hin.
    rewrite (backend_call_key env _ op k call Hin), F1. reflexivity.
Qed.

Lemma clear_key_restores_default_witness :
  currentActiveApiKey
    (runMany [(sampleEnv (Resolved helloResponse), ClearPrompt)]
       (finalWorld (sampleEnv (Resolved helloResponse))
          (finalWorld (sampleEnv (Resolved helloResponse))
             (apply (SetApiKeyInput (js "AIzaSy-demo-key")) initialWorld) SendKey)
          ClearKey))
  = []
  /\ currentActiveApiKey
       (finalWorld (sampleEnv (Resolved helloResponse))
          (apply (SetApiKeyInput (js "AIzaSy-demo-key")) initialWorld) SendKey)
     = js "AIzaSy-demo-key".
Proof.
  assert (Hsteps : Forall (fun s : Env * Op => snd s <> SendKey /\ snd s <> ClearKey)
                     [(sampleEnv (Resolved helloResponse), ClearPrompt)]).
  { apply Forall_cons; [split; discriminate|apply Forall_nil]. }
  split; [|reflexivity].
  destruct (clear_key_restores_default (sampleEnv (Resolved helloResponse))
              (finalWorld (sampleEnv (Resolved helloResponse))
                 (apply (SetApiKeyInput (js "AIzaSy-demo-key")) initialWorld) SendKey)
              [(sampleEnv (Resolved helloResponse), ClearPrompt)] Hsteps)
    as [_ [_ [_ [_ [Hblank _]]]]].
  exact (Hblank (or_introl eq_refl)).
Defined.

(** X25: of the operations of the embedding (the buttons of the main panel
    and, in the story writer, save, clear, copy, post, idea, the three
    caption buttons, polish and translate) only idea and clear write the
    story: every other one leaves the text of the story and the file name
    as they are, whatever the backend answers.  The file dialog buttons
    and the two text fields, which also write them, are not operations of
    the embedding.  The result of a polish or a translation that resolves
    goes to the prompt of the main panel, trimmed, and the story error
    stays cleared unless scrolling to the controls fails. *)
Theorem story_is_kept (env : Env) (w : World) (op : Op) :
  op <> Idea -> op <> ClearStory ->
  let w' := finalWorld env w op in
  story (writer w') = story (writer w)
  /\ fileName (writer w') = fileName (writer w)
  /\ forall response,
       (forall call, backend env call = Resolved response) ->
       precondition w op = true ->
       op = Polish \/ (exists l, op = Translate l) ->
       prompt (session w') = trim (orEmpty (responseText response))
       /\ (scrollFailure env = None -> storyError (writer w') = None).
Proof.
  intros Hi Hc. cbv zeta.
  destruct op; try congruence.
  4: { split; [|split].
       - unfold finalWorld.
         destruct (generate_run_cases env w count)
           as [[_ ->]|[[_ [l [Hl ->]]]|[_ [l [Hl ->]]]]]; try reflexivity.
         destruct (generateDispatch_world (session w) (countValue count) env w l)
           as [_ [_ [_ [_ [_ [_ Hw]]]]]].
         rewrite Hw. reflexivity.
       - unfold finalWorld.
         destruct (generate_run_cases env w count)
           as [[_ ->]|[[_ [l [Hl ->]]]|[_ [l [Hl ->]]]]]; try reflexivity.
         destruct (generateDispatch_world (session w) (countValue count) env w l)
           as [_ [_ [_ [_ [_ [_ Hw]]]]]].
         rewrite Hw. reflexivity.
       - intros response _ _ [H|[l H]]; discriminate H. }
  all: split; [run_once; reflexivity|].
  all: split; [run_once; reflexivity|].
  all: intros response Hres Hpre [H|[l H]]; try discriminate H.
  all: simpl in Hpre.
  all: run_once; settle Hres.
  all: try (match goal with
            | H : negb _ = true |- _ => rewrite Hpre in H; discriminate H
            end).
  all: split; [reflexivity|intros Hscroll; try discriminate Hscroll; reflexivity].
Qed.

Lemma story_is_kept_witness :
  story (writer (finalWorld (sampleEnv (Resolved helloResponse)) (captionWorld 60)
                   Polish))
  = js "Once upon a time"
  /\ prompt (session (finalWorld (sampleEnv (Resolved helloResponse)) (captionWorld 60)
                        Polish))
     = js "Hello world".
Proof.
  assert (H1 : Polish <> Idea) by discriminate.
  assert (H2 : Polish <> ClearStory) by discriminate.
  destruct (story_is_kept (sampleEnv (Resolved helloResponse)) (captionWorld 60) Polish
              H1 H2) as [Hstory [_ Hpost]].
  split; [exact Hstory|].
  exact (proj1 (Hpost helloResponse (fun _ => eq_refl) eq_refl (or_introl eq_refl))).
Defined.
